(** * Fotogrammetrie viewer: the OBJ loader, the orbit controller and the
      viewer's model

    A shallow embedding of [src/html/VisualFotScript.js]:

    - [OBJLoader.parse] and [OBJLoader.load] (lines 213-351), over the text of
      a mesh file;
    - the [OrbitControls] class (lines 12-210): the input handlers that
      accumulate pending deltas and the per-frame [update];
    - the model of the viewer, its texture and the visual settings
      (lines 430-445, 529-564, 577-741 and 784-806);
    - the handler of the files dropped on the viewer (lines 820-851).

    JavaScript numbers are IEEE 754 binary64 values: they are modelled by
    Rocq's primitive floats, whose operations are the same ones (round to
    nearest even, a NaN, signed zeros and infinities).  Strings are sequences
    of code units; the model keeps the code units below 256 ([string]).

    The file has two parts.  The first is the embedding: the built-ins of
    JavaScript the source calls ([JS], [Math]), the loader ([OBJLoader]), the
    vectors of the rendering library, the controller ([OrbitControls]), a
    runtime to evaluate the controller with ([SampleRuntime]), the vocabulary
    of the statements ([FloatOrder], [Mesh], [Orbit], [Damping], [Wavefront],
    [Gestures], [Zoom]), the viewer ([Viewer], with the vocabulary [Shading])
    and the dropped files ([Files]).  The second is the proofs: the order of
    the numbers and the rounding of a product ([FloatOrderFacts],
    [RoundingFacts], [DampingFacts], [ProductFacts]), the loader ([OBJLoaderFacts],
    [WavefrontFacts]), the controller ([OrbitControlsFacts], [GestureFacts]),
    the viewer ([ViewerFacts]) and the dropped files ([FilesFacts]). *)

From Stdlib Require Import ZArith List String Ascii Bool Lia Floats.
Import ListNotations.

Set Warnings "-inexact-float".

(* ================================================================== *)
(** * The JavaScript built-ins the source calls *)

Module JS.

Local Open Scope string_scope.

(** ** Exceptions and completion of a call *)

Inductive Exception : Type :=
| TypeError            (* a property read on [undefined] *)
| Error (message : string)
| ProgressEvent.       (* what an XMLHttpRequest hands to [onerror] *)

Inductive Completion (A : Type) : Type :=
| Return (value : A)
| Throw (e : Exception).
Arguments Return {A} value.
Arguments Throw {A} e.

(** ** Strings *)

(** [\s] of a regular expression and the characters [trim] strips: the
    WhiteSpace and LineTerminator code units (TAB, LF, VT, FF, CR, SP and the
    no-break space among the code units below 256). *)
Definition isWhiteSpace (c : ascii) : bool :=
  let n := N_of_ascii c in
  ((9 <=? n) && (n <=? 13) || (n =? 32) || (n =? 160))%N.

Fixpoint trimStart (s : string) : string :=
  match s with
  | String c s' => if isWhiteSpace c then trimStart s' else s
  | EmptyString => EmptyString
  end.

Fixpoint trimEnd (s : string) : string :=
  match s with
  | String c s' =>
      match trimEnd s' with
      | EmptyString => if isWhiteSpace c then EmptyString else String c EmptyString
      | t => String c t
      end
  | EmptyString => EmptyString
  end.

(** [s.trim()] *)
Definition trim (s : string) : string := trimEnd (trimStart s).

(** [s.startsWith(p)] *)
Fixpoint startsWith (s p : string) : bool :=
  match p, s with
  | EmptyString, _ => true
  | String a p', String b s' => Ascii.eqb a b && startsWith s' p'
  | String _ _, EmptyString => false
  end.

(** [s.substring(n)] *)
Fixpoint substring (n : nat) (s : string) : string :=
  match n, s with
  | S n', String _ s' => substring n' s'
  | _, _ => s
  end.

(** Puts a character in front of the first piece of a split. *)
Definition consHead (c : ascii) (pieces : list string) : list string :=
  match pieces with
  | t :: ts => String c t :: ts
  | [] => [String c EmptyString]
  end.

(** [s.split(sep)] for a separator of one character: the pieces between the
    occurrences of [sep], empty pieces included. *)
Fixpoint split (sep : ascii) (s : string) : list string :=
  match s with
  | String c s' =>
      if Ascii.eqb c sep then EmptyString :: split sep s'
      else consHead c (split sep s')
  | EmptyString => [EmptyString]
  end.

(** [s.split(/\s+/)]: the pieces between the maximal runs of white space;
    [inRun] says that the previous character was white space. *)
Fixpoint splitWhiteSpaceFrom (inRun : bool) (s : string) : list string :=
  match s with
  | String c s' =>
      if isWhiteSpace c then
        if inRun then splitWhiteSpaceFrom true s'
        else EmptyString :: splitWhiteSpaceFrom true s'
      else consHead c (splitWhiteSpaceFrom false s')
  | EmptyString => [EmptyString]
  end.

Definition splitWhiteSpace (s : string) : list string :=
  splitWhiteSpaceFrom false s.

(** An array element or [undefined], and [ToString] of it. *)
Definition toString (v : option string) : string :=
  match v with
  | Some s => s
  | None => "undefined"
  end.

(** [v && v !== ''] used as a condition. *)
Definition nonEmpty (v : option string) : bool :=
  match v with
  | Some EmptyString | None => false
  | Some (String _ _) => true
  end.

(** ** Numeric literals *)

Local Open Scope Z_scope.

Definition digit (radix : Z) (c : ascii) : option Z :=
  let n := Z.of_N (N_of_ascii c) in
  let d := if (48 <=? n) && (n <=? 57) then n - 48
           else if (97 <=? n) && (n <=? 122) then n - 87
           else if (65 <=? n) && (n <=? 90) then n - 55
           else radix in
  if d <? radix then Some d else None.

(** The longest prefix of [s] made of digits of [radix]: how many digits, their
    value (with [acc] in front) and the rest of the string. *)
Fixpoint digits (radix : Z) (s : string) (count : nat) (acc : Z) : nat * Z * string :=
  match s with
  | String c s' =>
      match digit radix c with
      | Some d => digits radix s' (S count) (acc * radix + d)
      | None => (count, acc, s)
      end
  | EmptyString => (count, acc, s)
  end.

(** An optional sign: whether it is [-], and the rest. *)
Definition sign (s : string) : bool * string :=
  match s with
  | String "-"%char s' => (true, s')
  | String "+"%char s' => (false, s')
  | _ => (false, s)
  end.

(** [parseInt(s)] with no radix: [None] stands for NaN.  The integer is kept
    exact; an engine returns it rounded to a Number, and [-0] for ["-0"].  The
    loader only subtracts 1, multiplies by 2 or 3 and compares with 0 and with
    an array length (below 2^32), and rounding changes none of these
    comparisons. *)
Definition parseInt (s : string) : option Z :=
  let (negative, s1) := sign (trimStart s) in
  let (radix, s2) :=
    if startsWith s1 "0x" || startsWith s1 "0X" then (16, substring 2 s1)
    else (10, s1) in
  match digits radix s2 O 0 with
  | (O, _, _) => None
  | (_, n, _) => Some (if negative then - n else n)
  end.

(** The Number nearest to [m * 10^e] (ties to even). *)
Definition decimalToNumber (negative : bool) (m e : Z) : float :=
  match m with
  | Zpos p =>
      if 0 <=? e
      then SF2Prim (binary_normalize prec emax
                      ((if negative then - m else m) * 10 ^ e) 0 negative)
      else SF2Prim (SFdiv prec emax (S754_finite negative p 0)
                      (S754_finite false (Z.to_pos (10 ^ (- e))) 0))
  | _ => if negative then (-0)%float else 0%float
  end.

(** The exponent part [e[+-]ddd] of a decimal literal, when it is complete. *)
Definition exponentPart (s : string) : Z :=
  match s with
  | String c s' =>
      if Ascii.eqb c "e"%char || Ascii.eqb c "E"%char then
        let (negative, s'') := sign s' in
        match digits 10 s'' O 0 with
        | (O, _, _) => 0
        | (_, n, _) => if negative then - n else n
        end
      else 0
  | EmptyString => 0
  end.

(** [parseFloat(s)]: the value of the longest prefix of the trimmed string
    that is a decimal literal ([Infinity], [ddd.ddd], [.ddd], [ddd], each with
    an optional sign and exponent), NaN when there is none. *)
Definition parseFloat (s : string) : float :=
  let (negative, s1) := sign (trimStart s) in
  if startsWith s1 "Infinity" then
    if negative then neg_infinity else infinity
  else
    let '(intCount, intValue, s2) := digits 10 s1 O 0 in
    let '(fracCount, value, s3) :=
      match s2 with
      | String "."%char s2' => digits 10 s2' O intValue
      | _ => (O, intValue, s2)
      end in
    match intCount, fracCount with
    | O, O => nan
    | _, _ => decimalToNumber negative value (exponentPart s3 - Z.of_nat fracCount)
    end.

End JS.

(* ================================================================== *)
(** * OBJLoader (lines 213-351) *)

Module OBJLoader.

Import JS.
Local Open Scope Z_scope.

(** The four arrays [parse] fills while it scans the lines. *)
Record Pools : Type := {
  vertices : list float;
  normals : list float;
  uvs : list float;
  faces : list string
}.

Definition emptyPools : Pools :=
  {| vertices := []; normals := []; uvs := []; faces := [] |}.

(** [parts[i]] handed to [parseFloat]: an index past the end reads
    [undefined], which [parseFloat] turns into a string first. *)
Definition part (parts : list string) (i : nat) : string :=
  toString (nth_error parts i).

(** The body of [lines.forEach] (lines 259-285).  The progress text written to
    the page every 10000 lines has no part in the result and is left out. *)
Definition scanLine (p : Pools) (line : string) : Pools :=
  let line := trim line in
  if startsWith line "v " then
    let parts := splitWhiteSpace line in
    {| vertices := vertices p ++
         [parseFloat (part parts 1); parseFloat (part parts 2);
          parseFloat (part parts 3)];
       normals := normals p; uvs := uvs p; faces := faces p |}
  else if startsWith line "vn " then
    let parts := splitWhiteSpace line in
    {| vertices := vertices p;
       normals := normals p ++
         [parseFloat (part parts 1); parseFloat (part parts 2);
          parseFloat (part parts 3)];
       uvs := uvs p; faces := faces p |}
  else if startsWith line "vt " then
    let parts := splitWhiteSpace line in
    {| vertices := vertices p; normals := normals p;
       uvs := uvs p ++
         [parseFloat (part parts 1); (1.0 - parseFloat (part parts 2))%float];
       faces := faces p |}
  else if startsWith line "f " then
    let parts := splitWhiteSpace (trim (substring 2 line)) in
    {| vertices := vertices p; normals := normals p; uvs := uvs p;
       faces := faces p ++ parts |}
  else p.

(** [text.split('\n')] and the [forEach] over the lines (lines 249-286). *)
Definition scan (text : string) : Pools :=
  fold_left scanLine (split "010" text) emptyPools.

(** The three arrays the second loop fills. *)
Record Buffers : Type := {
  positions : list float;
  normalsArray : list float;
  uvsArray : list float
}.

Definition emptyBuffers : Buffers :=
  {| positions := []; normalsArray := []; uvsArray := [] |}.

(** [pool[i]] for an index inside the array.  (A read past the end would give
    [undefined]; [element_in_pool] below shows that the loader makes none.) *)
Definition element (pool : list float) (i : Z) : float :=
  nth (Z.to_nat i) pool nan.

(** The body of the inner loop (lines 301-320) for the corner [faces[i + j]]. *)
Definition resolveCorner (p : Pools) (b : Buffers) (corner : string) : Buffers :=
  let indices := split "/" corner in
  let positions' :=
    match parseInt (toString (nth_error indices 0)) with
    | Some n =>
        let vIdx := (n - 1) * 3 in
        if (0 <=? vIdx) && (vIdx <? Z.of_nat (List.length (vertices p)))
        then positions b ++
               [element (vertices p) vIdx; element (vertices p) (vIdx + 1);
                element (vertices p) (vIdx + 2)]
        else positions b
    | None => positions b
    end in
  let uvsArray' :=
    if nonEmpty (nth_error indices 1) then
      match parseInt (toString (nth_error indices 1)) with
      | Some n =>
          let uvIdx := (n - 1) * 2 in
          if (0 <=? uvIdx) && (uvIdx <? Z.of_nat (List.length (uvs p)))
          then uvsArray b ++ [element (uvs p) uvIdx; element (uvs p) (uvIdx + 1)]
          else uvsArray b
      | None => uvsArray b
      end
    else uvsArray b in
  let normalsArray' :=
    if nonEmpty (nth_error indices 2) then
      match parseInt (toString (nth_error indices 2)) with
      | Some n =>
          let nIdx := (n - 1) * 3 in
          if (0 <=? nIdx) && (nIdx <? Z.of_nat (List.length (normals p)))
          then normalsArray b ++
                 [element (normals p) nIdx; element (normals p) (nIdx + 1);
                  element (normals p) (nIdx + 2)]
          else normalsArray b
      | None => normalsArray b
      end
    else normalsArray b in
  {| positions := positions'; normalsArray := normalsArray';
     uvsArray := uvsArray' |}.

(** The loop [for (i = 0; i < faces.length; i += 3)] with its inner loop over
    [j = 0, 1, 2] (lines 295-322), on the corners from [faces[i]] on.  When
    fewer than three corners are left, [faces[i + j]] is [undefined] and
    [.split] on it throws. *)
Fixpoint resolveFaces (p : Pools) (rest : list string) (b : Buffers)
  : Completion Buffers :=
  match rest with
  | [] => Return b
  | c0 :: c1 :: c2 :: rest' =>
      resolveFaces p rest'
        (resolveCorner p (resolveCorner p (resolveCorner p b c0) c1) c2)
  | _ => Throw TypeError
  end.

(** The normal attribute of the geometry: the array read from the file, or
    what the renderer's [computeVertexNormals] derives from the positions. *)
Inductive NormalAttribute : Type :=
| Supplied (array : list float)
| ComputedVertexNormals.

Record Material : Type := {
  color : Z;
  doubleSide : bool;
  flatShading : bool;
  roughness : float;
  metalness : float
}.

(** The group [parse] returns: one mesh, with the arrays handed to the
    geometry's attributes and the material.  The attributes are kept as the
    arrays the loader built. *)
Record Object3D : Type := {
  position : list float;
  normal : NormalAttribute;
  uv : option (list float);
  material : Material
}.

Definition defaultMaterial : Material :=
  {| color := 0xcccccc; doubleSide := true; flatShading := false;
     roughness := 0.7; metalness := 0.1 |}.

(** [parse(text)] (lines 243-350). *)
Definition parse (text : string) : Completion Object3D :=
  let p := scan text in
  match resolveFaces p (faces p) emptyBuffers with
  | Throw e => Throw e
  | Return b =>
      Return {| position := positions b;
                normal := match normalsArray b with
                          | [] => ComputedVertexNormals
                          | _ :: _ => Supplied (normalsArray b)
                          end;
                uv := match uvsArray b with
                      | [] => None
                      | _ :: _ => Some (uvsArray b)
                      end;
                material := defaultMaterial |}
  end.

(** What the request ends with: a response with its status and text, or a
    transport error. *)
Inductive Response : Type :=
| Loaded (status : Z) (responseText : string)
| Failed.

(** A call of one of the caller's callbacks. *)
Inductive Callback : Type :=
| onLoad (object : Object3D)
| onError (e : Exception).

(** [if (onError) onError(e)] *)
Definition reportError (hasOnError : bool) (e : Exception) : list Callback :=
  if hasOnError then [onError e] else [].

(** [load] (lines 214-241), as the callbacks it makes once the request ends;
    [hasOnError] says whether the caller passed an [onError].  Transfer
    progress events are left out, and the callbacks are taken to return
    normally. *)
Definition load (hasOnError : bool) (r : Response) : list Callback :=
  match r with
  | Loaded status responseText =>
      if status =? 200 then
        match parse responseText with
        | Return object => [onLoad object]
        | Throw e => reportError hasOnError e
        end
      else reportError hasOnError (Error "Failed to load")
  | Failed => reportError hasOnError ProgressEvent
  end.

End OBJLoader.

(* ================================================================== *)
(** * Numbers: [Math.max], [Math.min] and the constants *)

Module Math.

Local Open Scope float_scope.

Definition PI : float := 3.141592653589793.

Definition isNegativeZero (a : float) : bool :=
  match classify a with
  | NZero => true
  | _ => false
  end.

(** [Math.max(a, b)]: NaN when an argument is NaN, and [+0] above [-0]. *)
Definition max (a b : float) : float :=
  if is_nan a || is_nan b then nan
  else if a <? b then b
  else if b <? a then a
  else if isNegativeZero a then b else a.

(** [Math.min(a, b)]: NaN when an argument is NaN, and [-0] below [+0]. *)
Definition min (a b : float) : float :=
  if is_nan a || is_nan b then nan
  else if a <? b then a
  else if b <? a then b
  else if isNegativeZero a then a else b.

(** [Math.sqrt] *)
Definition sqrt (a : float) : float := PrimFloat.sqrt a.

End Math.

(* ================================================================== *)
(** * The rendering library's vectors

    three.js is loaded by the page and is not among the repository's sources.
    The vector arithmetic the controller calls is written out below as the
    library has it; the trigonometric functions of the engine and the
    library's rotations are taken as parameters ([Runtime.t]). *)

Module Vector2.
Record t : Type := { x : float; y : float }.
Local Open Scope float_scope.

Definition zero : t := {| x := 0; y := 0 |}.

(** [subVectors(a, b)] *)
Definition subVectors (a b : t) : t := {| x := x a - x b; y := y a - y b |}.

(** [multiplyScalar(s)] *)
Definition multiplyScalar (v : t) (s : float) : t :=
  {| x := x v * s; y := y v * s |}.
End Vector2.

Module Vector3.
Record t : Type := { x : float; y : float; z : float }.
Local Open Scope float_scope.

Definition zero : t := {| x := 0; y := 0; z := 0 |}.

Definition add (a b : t) : t :=
  {| x := x a + x b; y := y a + y b; z := z a + z b |}.

Definition sub (a b : t) : t :=
  {| x := x a - x b; y := y a - y b; z := z a - z b |}.

Definition multiplyScalar (v : t) (s : float) : t :=
  {| x := x v * s; y := y v * s; z := z v * s |}.

(** [length()] *)
Definition length (v : t) : float :=
  Math.sqrt (x v * x v + y v * y v + z v * z v).
End Vector3.

Module Quaternion.
Record t : Type := { x : float; y : float; z : float; w : float }.
End Quaternion.

(** What the controller calls and neither the repository nor the float
    arithmetic defines: the engine's [Math.sin], [Math.cos], [Math.acos],
    [Math.atan2] and [Math.tan] (which ECMAScript leaves to the
    implementation), and the library's quaternion methods: [setFromUnitVectors],
    [invert] and [applyQuaternion]. *)
Module Runtime.
Record t : Type := {
  sin : float -> float;
  cos : float -> float;
  acos : float -> float;
  atan2 : float -> float -> float;
  tan : float -> float;
  setFromUnitVectors : Vector3.t -> Vector3.t -> Quaternion.t;
  invert : Quaternion.t -> Quaternion.t;
  applyQuaternion : Vector3.t -> Quaternion.t -> Vector3.t
}.
End Runtime.

Module Spherical.
Record t : Type := { radius : float; phi : float; theta : float }.
Local Open Scope float_scope.

(** [new THREE.Spherical()] *)
Definition default : t := {| radius := 1; phi := 0; theta := 0 |}.

Definition EPS : float := 0.000001.

(** Modelled from the spec: [Spherical.setFromVector3] of three.js, which is
    not under src/, is the conversion "to spherical coordinates (radius,
    polar, azimuth)" of step 1 of the update, written as the library has it. *)
Definition setFromVector3 (rt : Runtime.t) (v : Vector3.t) : t :=
  let r := Vector3.length v in
  if r =? 0 then {| radius := r; phi := 0; theta := 0 |}
  else {| radius := r;
          phi := Runtime.acos rt (Math.max (-1) (Math.min 1 (Vector3.y v / r)));
          theta := Runtime.atan2 rt (Vector3.x v) (Vector3.z v) |}.

(** Modelled from the spec: [Spherical.makeSafe] of three.js, which is not
    under src/, is the "guard against a degenerate pole (avoid exact 0 or π
    where azimuth is undefined)" of step 3, written as the library has it:
    the polar angle is kept between [EPS] and [π - EPS]. *)
Definition makeSafe (s : t) : t :=
  {| radius := radius s;
     phi := Math.max EPS (Math.min (Math.PI - EPS) (phi s));
     theta := theta s |}.

(** Modelled from the spec: [Vector3.setFromSpherical] of three.js, which is
    not under src/, is the conversion of "spherical back to a Cartesian
    offset" of step 6, written as the library has it. *)
Definition setFromSpherical (rt : Runtime.t) (s : t) : Vector3.t :=
  let sinPhiRadius := Runtime.sin rt (phi s) * radius s in
  {| Vector3.x := sinPhiRadius * Runtime.sin rt (theta s);
     Vector3.y := Runtime.cos rt (phi s) * radius s;
     Vector3.z := sinPhiRadius * Runtime.cos rt (theta s) |}.
End Spherical.

(* ================================================================== *)
(** * OrbitControls (lines 12-210) *)

Module OrbitControls.

Local Open Scope float_scope.

(** The camera, as far as the controller reads and writes it: [matrix0] and
    [matrix1] are the first two columns of [camera.matrix].  The orientation
    that [camera.lookAt] sets (line 189) is read by nothing the controller
    computes from (the renderer derives [camera.matrix] from it when it draws
    a frame) and is left out. *)
Record Camera : Type := {
  position : Vector3.t;
  up : Vector3.t;
  fov : float;
  matrix0 : Vector3.t;
  matrix1 : Vector3.t
}.

(** [const STATE = { NONE: -1, ROTATE: 0, DOLLY: 1, PAN: 2 }] *)
Inductive STATE : Type := NONE | ROTATE | DOLLY | PAN.

Definition STATE_eqb (a b : STATE) : bool :=
  match a, b with
  | NONE, NONE | ROTATE, ROTATE | DOLLY, DOLLY | PAN, PAN => true
  | _, _ => false
  end.

(** The public fields the constructor sets and the class only reads. *)
Record Settings : Type := {
  minDistance : float;
  maxDistance : float;
  minPolarAngle : float;
  maxPolarAngle : float;
  enableDamping : bool;
  dampingFactor : float;
  enablePan : bool;
  autoRotate : bool;
  autoRotateSpeed : float;
  enabled : bool
}.

(** The controller: [scope.camera], [scope.domElement.clientHeight],
    [scope.target], the settings, the variables of the constructor's closure
    (lines 31-41), the two quaternions of the closure of [update]
    (lines 160-164) and whether the document listeners of lines 128-129 are
    installed.  ([lastPosition] and [lastQuaternion], lines 165-166, are
    written and read by lines 202-206 only and are left out.) *)
Record t : Type := {
  camera : Camera;
  clientHeight : float;
  target : Vector3.t;
  settings : Settings;
  state : STATE;
  spherical : Spherical.t;
  sphericalDelta : Spherical.t;
  scale : float;
  panOffset : Vector3.t;
  rotateStart : Vector2.t;
  rotateEnd : Vector2.t;
  rotateDelta : Vector2.t;
  panStart : Vector2.t;
  panEnd : Vector2.t;
  panDelta : Vector2.t;
  quat : Quaternion.t;
  quatInverse : Quaternion.t;
  listening : bool
}.

(** ** Assignments to one variable of the controller *)

Definition set_state (v : STATE) (c : t) : t :=
  {| camera := camera c; clientHeight := clientHeight c; target := target c;
     settings := settings c; state := v; spherical := spherical c;
     sphericalDelta := sphericalDelta c; scale := scale c;
     panOffset := panOffset c; rotateStart := rotateStart c;
     rotateEnd := rotateEnd c; rotateDelta := rotateDelta c;
     panStart := panStart c; panEnd := panEnd c; panDelta := panDelta c;
     quat := quat c; quatInverse := quatInverse c; listening := listening c |}.

Definition set_listening (v : bool) (c : t) : t :=
  {| camera := camera c; clientHeight := clientHeight c; target := target c;
     settings := settings c; state := state c; spherical := spherical c;
     sphericalDelta := sphericalDelta c; scale := scale c;
     panOffset := panOffset c; rotateStart := rotateStart c;
     rotateEnd := rotateEnd c; rotateDelta := rotateDelta c;
     panStart := panStart c; panEnd := panEnd c; panDelta := panDelta c;
     quat := quat c; quatInverse := quatInverse c; listening := v |}.

Definition set_sphericalDelta (v : Spherical.t) (c : t) : t :=
  {| camera := camera c; clientHeight := clientHeight c; target := target c;
     settings := settings c; state := state c; spherical := spherical c;
     sphericalDelta := v; scale := scale c;
     panOffset := panOffset c; rotateStart := rotateStart c;
     rotateEnd := rotateEnd c; rotateDelta := rotateDelta c;
     panStart := panStart c; panEnd := panEnd c; panDelta := panDelta c;
     quat := quat c; quatInverse := quatInverse c; listening := listening c |}.

Definition set_scale (v : float) (c : t) : t :=
  {| camera := camera c; clientHeight := clientHeight c; target := target c;
     settings := settings c; state := state c; spherical := spherical c;
     sphericalDelta := sphericalDelta c; scale := v;
     panOffset := panOffset c; rotateStart := rotateStart c;
     rotateEnd := rotateEnd c; rotateDelta := rotateDelta c;
     panStart := panStart c; panEnd := panEnd c; panDelta := panDelta c;
     quat := quat c; quatInverse := quatInverse c; listening := listening c |}.

Definition set_panOffset (v : Vector3.t) (c : t) : t :=
  {| camera := camera c; clientHeight := clientHeight c; target := target c;
     settings := settings c; state := state c; spherical := spherical c;
     sphericalDelta := sphericalDelta c; scale := scale c;
     panOffset := v; rotateStart := rotateStart c;
     rotateEnd := rotateEnd c; rotateDelta := rotateDelta c;
     panStart := panStart c; panEnd := panEnd c; panDelta := panDelta c;
     quat := quat c; quatInverse := quatInverse c; listening := listening c |}.

(** [rotateStart], [rotateEnd] and [rotateDelta] at once. *)
Definition set_rotate (start end_ delta : Vector2.t) (c : t) : t :=
  {| camera := camera c; clientHeight := clientHeight c; target := target c;
     settings := settings c; state := state c; spherical := spherical c;
     sphericalDelta := sphericalDelta c; scale := scale c;
     panOffset := panOffset c; rotateStart := start;
     rotateEnd := end_; rotateDelta := delta;
     panStart := panStart c; panEnd := panEnd c; panDelta := panDelta c;
     quat := quat c; quatInverse := quatInverse c; listening := listening c |}.

(** [panStart], [panEnd] and [panDelta] at once. *)
Definition set_pan (start end_ delta : Vector2.t) (c : t) : t :=
  {| camera := camera c; clientHeight := clientHeight c; target := target c;
     settings := settings c; state := state c; spherical := spherical c;
     sphericalDelta := sphericalDelta c; scale := scale c;
     panOffset := panOffset c; rotateStart := rotateStart c;
     rotateEnd := rotateEnd c; rotateDelta := rotateDelta c;
     panStart := start; panEnd := end_; panDelta := delta;
     quat := quat c; quatInverse := quatInverse c; listening := listening c |}.

(** ** The closure's functions (lines 43-116) *)

Definition rotateLeft (angle : float) (c : t) : t :=
  let d := sphericalDelta c in
  set_sphericalDelta
    {| Spherical.radius := Spherical.radius d; Spherical.phi := Spherical.phi d;
       Spherical.theta := Spherical.theta d - angle |} c.

Definition rotateUp (angle : float) (c : t) : t :=
  let d := sphericalDelta c in
  set_sphericalDelta
    {| Spherical.radius := Spherical.radius d;
       Spherical.phi := Spherical.phi d - angle;
       Spherical.theta := Spherical.theta d |} c.

(** [objectMatrix] is read through its first column only. *)
Definition panLeft (distance : float) (column0 : Vector3.t) (c : t) : t :=
  let v := Vector3.multiplyScalar column0 (- distance) in
  set_panOffset (Vector3.add (panOffset c) v) c.

(** [objectMatrix] is read through its second column only. *)
Definition panUp (distance : float) (column1 : Vector3.t) (c : t) : t :=
  let v := Vector3.multiplyScalar column1 distance in
  set_panOffset (Vector3.add (panOffset c) v) c.

Definition dollyIn (dollyScale : float) (c : t) : t :=
  set_scale (scale c / dollyScale) c.

Definition dollyOut (dollyScale : float) (c : t) : t :=
  set_scale (scale c * dollyScale) c.

(** The fields of a mouse or wheel event the handlers read. *)
Record MouseEvent : Type := {
  button : Z;
  clientX : float;
  clientY : float
}.

Record WheelEvent : Type := { deltaY : float }.

Definition handleMouseDownRotate (event : MouseEvent) (c : t) : t :=
  set_rotate {| Vector2.x := clientX event; Vector2.y := clientY event |}
             (rotateEnd c) (rotateDelta c) c.

Definition handleMouseDownPan (event : MouseEvent) (c : t) : t :=
  set_pan {| Vector2.x := clientX event; Vector2.y := clientY event |}
          (panEnd c) (panDelta c) c.

(** Lines 92-97 of [handleMouseMoveRotate]: all of it but the closing call of
    [update]. *)
Definition accumulateRotate (event : MouseEvent) (c : t) : t :=
  let rotateEnd' := {| Vector2.x := clientX event; Vector2.y := clientY event |} in
  let rotateDelta' :=
    Vector2.multiplyScalar (Vector2.subVectors rotateEnd' (rotateStart c)) 0.5 in
  let c1 := set_rotate (rotateStart c) rotateEnd' rotateDelta' c in
  let c2 := rotateLeft (2 * Math.PI * Vector2.x rotateDelta' / clientHeight c1) c1 in
  let c3 := rotateUp (2 * Math.PI * Vector2.y rotateDelta' / clientHeight c2) c2 in
  set_rotate rotateEnd' rotateEnd' rotateDelta' c3.

(** Lines 110-114 of [handleMouseWheel]: all of it but the closing call of
    [update]. *)
Definition dolly (event : WheelEvent) (c : t) : t :=
  if deltaY event <? 0 then dollyOut 0.95 c
  else if 0 <? deltaY event then dollyIn 0.95 c
  else c.

Section WithRuntime.

Variable rt : Runtime.t.

Definition pan (deltaX deltaY : float) (c : t) : t :=
  let offset := Vector3.sub (position (camera c)) (target c) in
  let targetDistance := Vector3.length offset in
  let targetDistance :=
    targetDistance * Runtime.tan rt ((fov (camera c) / 2) * Math.PI / 180.0) in
  let c1 := panLeft (2 * deltaX * targetDistance / clientHeight c)
                    (matrix0 (camera c)) c in
  panUp (2 * deltaY * targetDistance / clientHeight c1) (matrix1 (camera c1)) c1.

(** Lines 102-105 of [handleMouseMovePan]: all of it but the closing call of
    [update]. *)
Definition accumulatePan (event : MouseEvent) (c : t) : t :=
  let panEnd' := {| Vector2.x := clientX event; Vector2.y := clientY event |} in
  let panDelta' :=
    Vector2.multiplyScalar (Vector2.subVectors panEnd' (panStart c)) 0.5 in
  let c1 := set_pan (panStart c) panEnd' panDelta' c in
  let c2 := pan (Vector2.x panDelta') (Vector2.y panDelta') c1 in
  set_pan panEnd' panEnd' panDelta' c2.

(** Lines 169-172 of [update]: the camera's offset from the target in
    spherical coordinates. *)
Definition readSpherical (c : t) : Spherical.t :=
  let offset := Vector3.sub (position (camera c)) (target c) in
  Spherical.setFromVector3 rt (Runtime.applyQuaternion rt offset (quat c)).

(** Lines 174-176 of [update]: the pending delta once idle auto-rotation has
    been added to it. *)
Definition autoRotated (c : t) : t :=
  if autoRotate (settings c) && STATE_eqb (state c) NONE
  then rotateLeft (2 * Math.PI / 60 / 60 * autoRotateSpeed (settings c)) c
  else c.

(** The function [update] (lines 168-207). *)
Definition update (c : t) : t :=
  let s := readSpherical c in
  let c := autoRotated c in
  let theta := Spherical.theta s + Spherical.theta (sphericalDelta c) in
  let phi := Spherical.phi s + Spherical.phi (sphericalDelta c) in
  let phi := Math.max (minPolarAngle (settings c))
               (Math.min (maxPolarAngle (settings c)) phi) in
  let s := Spherical.makeSafe
             {| Spherical.radius := Spherical.radius s; Spherical.phi := phi;
                Spherical.theta := theta |} in
  let radius := Spherical.radius s * scale c in
  let radius := Math.max (minDistance (settings c))
                  (Math.min (maxDistance (settings c)) radius) in
  let s := {| Spherical.radius := radius; Spherical.phi := Spherical.phi s;
              Spherical.theta := Spherical.theta s |} in
  let target' := Vector3.add (target c) (panOffset c) in
  let offset :=
    Runtime.applyQuaternion rt (Spherical.setFromSpherical rt s) (quatInverse c) in
  let position' := Vector3.add target' offset in
  let camera' :=
    {| position := position'; up := up (camera c); fov := fov (camera c);
       matrix0 := matrix0 (camera c); matrix1 := matrix1 (camera c) |} in
  let k := 1 - dampingFactor (settings c) in
  let sphericalDelta' :=
    if enableDamping (settings c)
    then {| Spherical.radius := Spherical.radius (sphericalDelta c);
            Spherical.phi := Spherical.phi (sphericalDelta c) * k;
            Spherical.theta := Spherical.theta (sphericalDelta c) * k |}
    else {| Spherical.radius := 0; Spherical.phi := 0; Spherical.theta := 0 |} in
  let panOffset' :=
    if enableDamping (settings c)
    then Vector3.multiplyScalar (panOffset c) k
    else Vector3.zero in
  {| camera := camera'; clientHeight := clientHeight c; target := target';
     settings := settings c; state := state c; spherical := s;
     sphericalDelta := sphericalDelta'; scale := 1;
     panOffset := panOffset'; rotateStart := rotateStart c;
     rotateEnd := rotateEnd c; rotateDelta := rotateDelta c;
     panStart := panStart c; panEnd := panEnd c; panDelta := panDelta c;
     quat := quat c; quatInverse := quatInverse c; listening := listening c |}.

Definition handleMouseMoveRotate (event : MouseEvent) (c : t) : t :=
  update (accumulateRotate event c).

Definition handleMouseMovePan (event : MouseEvent) (c : t) : t :=
  update (accumulatePan event c).

Definition handleMouseWheel (event : WheelEvent) (c : t) : t :=
  update (dolly event c).

(** ** The listeners (lines 118-152) *)

Definition onMouseDown (event : MouseEvent) (c : t) : t :=
  if negb (enabled (settings c)) then c
  else
    let c :=
      if (button event =? 0)%Z
      then handleMouseDownRotate event (set_state ROTATE c)
      else if (button event =? 2)%Z
      then handleMouseDownPan event (set_state PAN c)
      else c in
    set_listening true c.

Definition onMouseMove (event : MouseEvent) (c : t) : t :=
  if negb (enabled (settings c)) then c
  else if STATE_eqb (state c) ROTATE then handleMouseMoveRotate event c
  else if STATE_eqb (state c) PAN then handleMouseMovePan event c
  else c.

Definition onMouseUp (c : t) : t :=
  set_state NONE (set_listening false c).

Definition onMouseWheel (event : WheelEvent) (c : t) : t :=
  if negb (enabled (settings c)) then c
  else handleMouseWheel event c.

(** [renderer.render] recomputes [camera.matrix] from the camera's pose; the
    two columns the controller reads come with the frame. *)
Definition rendered (column0 column1 : Vector3.t) (c : t) : t :=
  {| camera := {| position := position (camera c); up := up (camera c);
                  fov := fov (camera c);
                  matrix0 := column0; matrix1 := column1 |};
     clientHeight := clientHeight c; target := target c;
     settings := settings c; state := state c; spherical := spherical c;
     sphericalDelta := sphericalDelta c; scale := scale c;
     panOffset := panOffset c; rotateStart := rotateStart c;
     rotateEnd := rotateEnd c; rotateDelta := rotateDelta c;
     panStart := panStart c; panEnd := panEnd c; panDelta := panDelta c;
     quat := quat c; quatInverse := quatInverse c; listening := listening c |}.

(** What reaches the controller: the events of its listeners and the frame
    callback [animate] (lines 417-421), which calls [update] and then draws.
    The listeners for [mousemove] and [mouseup] are on the document only
    between a [mousedown] and the next [mouseup]. *)
Inductive Input : Type :=
| mousedown (event : MouseEvent)
| mousemove (event : MouseEvent)
| mouseup
| wheel (event : WheelEvent)
| animationFrame (column0 column1 : Vector3.t).

Definition dispatch (c : t) (i : Input) : t :=
  match i with
  | mousedown event => onMouseDown event c
  | mousemove event => if listening c then onMouseMove event c else c
  | mouseup => if listening c then onMouseUp c else c
  | wheel event => onMouseWheel event c
  | animationFrame column0 column1 => rendered column0 column1 (update c)
  end.

(** The controller after a sequence of inputs. *)
Definition run (c : t) (inputs : list Input) : t := fold_left dispatch inputs c.

(** [new OrbitControls(camera, domElement)] (lines 13-41 and 159-164). *)
Definition constructor (cam : Camera) (height : float) : t :=
  let q := Runtime.setFromUnitVectors rt (up cam)
             {| Vector3.x := 0; Vector3.y := 1; Vector3.z := 0 |} in
  {| camera := cam; clientHeight := height; target := Vector3.zero;
     settings := {| minDistance := 0.5; maxDistance := 1000;
                    minPolarAngle := 0; maxPolarAngle := Math.PI;
                    enableDamping := true; dampingFactor := 0.08;
                    enablePan := true; autoRotate := true;
                    autoRotateSpeed := 0.3; enabled := true |};
     state := NONE; spherical := Spherical.default;
     sphericalDelta := Spherical.default; scale := 1;
     panOffset := Vector3.zero; rotateStart := Vector2.zero;
     rotateEnd := Vector2.zero; rotateDelta := Vector2.zero;
     panStart := Vector2.zero; panEnd := Vector2.zero;
     panDelta := Vector2.zero; quat := q; quatInverse := Runtime.invert rt q;
     listening := false |}.

End WithRuntime.

End OrbitControls.

(* ================================================================== *)
(** * A runtime to run the controller with

    The theorems on the controller hold for every [Runtime.t].  To evaluate
    [update] on concrete inputs one is fixed here: truncated series for the
    trigonometric functions, and the quaternion methods as three.js writes
    them. *)

Module SampleRuntime.

Local Open Scope float_scope.

(** The integer nearest to [t], for [t] below 2^51 in magnitude. *)
Definition nearest (t : float) : float :=
  (t + 6755399441055744) - 6755399441055744.

(** Brings an angle into [-π, π]. *)
Definition reduce (a : float) : float :=
  a - nearest (a / (2 * Math.PI)) * (2 * Math.PI).

(** [acc] plus the next [n] terms of the sine or cosine series, the last term
    added being [term], of degree [k]. *)
Fixpoint taylor (n : nat) (k term a2 acc : float) : float :=
  match n with
  | O => acc
  | S n' =>
      let term' := - term * a2 / ((k + 1) * (k + 2)) in
      taylor n' (k + 2) term' a2 (acc + term')
  end.

Definition sin (a : float) : float :=
  let r := reduce a in taylor 14 1 r (r * r) r.

Definition cos (a : float) : float :=
  let r := reduce a in taylor 14 0 1 (r * r) 1.

Definition tan (a : float) : float := sin a / cos a.

(** [acc] plus the next [n] terms of the arctangent series, the last term
    added being [power / k]. *)
Fixpoint arctanSeries (n : nat) (k power a2 acc : float) : float :=
  match n with
  | O => acc
  | S n' =>
      let power' := - power * a2 in
      arctanSeries n' (k + 2) power' a2 (acc + power' / (k + 2))
  end.

(** The tangent of half the angle whose tangent is [t]. *)
Definition halfAngle (t : float) : float := t / (1 + Math.sqrt (1 + t * t)).

Definition arctanUnit (t : float) : float :=
  let u := halfAngle (halfAngle t) in
  4 * arctanSeries 16 1 u (u * u) u.

Definition atan (t : float) : float :=
  if abs t <=? 1 then arctanUnit t
  else if 0 <? t then Math.PI / 2 - arctanUnit (1 / t)
  else if t <? 0 then - (Math.PI / 2) - arctanUnit (1 / t)
  else nan.

Definition atan2 (b a : float) : float :=
  if is_nan a || is_nan b then nan
  else if 0 <? a then atan (b / a)
  else if a <? 0 then (if b <? 0 then atan (b / a) - Math.PI else atan (b / a) + Math.PI)
  else if 0 <? b then Math.PI / 2
  else if b <? 0 then - (Math.PI / 2)
  else 0.

Definition acos (v : float) : float := atan2 (Math.sqrt (1 - v * v)) v.

(** [Number.EPSILON] *)
Definition EPSILON : float := 0x1p-52.

(** [Quaternion.normalize()] *)
Definition normalize (q : Quaternion.t) : Quaternion.t :=
  let l := Math.sqrt (Quaternion.x q * Quaternion.x q + Quaternion.y q * Quaternion.y q
                      + Quaternion.z q * Quaternion.z q + Quaternion.w q * Quaternion.w q) in
  if l =? 0 then {| Quaternion.x := 0; Quaternion.y := 0; Quaternion.z := 0; Quaternion.w := 1 |}
  else
    let l := 1 / l in
    {| Quaternion.x := Quaternion.x q * l; Quaternion.y := Quaternion.y q * l;
       Quaternion.z := Quaternion.z q * l; Quaternion.w := Quaternion.w q * l |}.

(** [Quaternion.setFromUnitVectors(vFrom, vTo)] *)
Definition setFromUnitVectors (vFrom vTo : Vector3.t) : Quaternion.t :=
  let r := Vector3.x vFrom * Vector3.x vTo + Vector3.y vFrom * Vector3.y vTo
           + Vector3.z vFrom * Vector3.z vTo + 1 in
  normalize
    (if r <? EPSILON then
       if abs (Vector3.z vFrom) <? abs (Vector3.x vFrom)
       then {| Quaternion.x := - Vector3.y vFrom; Quaternion.y := Vector3.x vFrom;
               Quaternion.z := 0; Quaternion.w := 0 |}
       else {| Quaternion.x := 0; Quaternion.y := - Vector3.z vFrom;
               Quaternion.z := Vector3.y vFrom; Quaternion.w := 0 |}
     else
       {| Quaternion.x := Vector3.y vFrom * Vector3.z vTo - Vector3.z vFrom * Vector3.y vTo;
          Quaternion.y := Vector3.z vFrom * Vector3.x vTo - Vector3.x vFrom * Vector3.z vTo;
          Quaternion.z := Vector3.x vFrom * Vector3.y vTo - Vector3.y vFrom * Vector3.x vTo;
          Quaternion.w := r |}).

(** [Quaternion.invert()]: the conjugate. *)
Definition invert (q : Quaternion.t) : Quaternion.t :=
  {| Quaternion.x := - Quaternion.x q; Quaternion.y := - Quaternion.y q;
     Quaternion.z := - Quaternion.z q; Quaternion.w := Quaternion.w q |}.

(** [Vector3.applyQuaternion(q)] *)
Definition applyQuaternion (v : Vector3.t) (q : Quaternion.t) : Vector3.t :=
  let x := Vector3.x v in let y := Vector3.y v in let z := Vector3.z v in
  let qx := Quaternion.x q in let qy := Quaternion.y q in
  let qz := Quaternion.z q in let qw := Quaternion.w q in
  let ix := qw * x + qy * z - qz * y in
  let iy := qw * y + qz * x - qx * z in
  let iz := qw * z + qx * y - qy * x in
  let iw := - qx * x - qy * y - qz * z in
  {| Vector3.x := ix * qw + iw * - qx + iy * - qz - iz * - qy;
     Vector3.y := iy * qw + iw * - qy + iz * - qx - ix * - qz;
     Vector3.z := iz * qw + iw * - qz + ix * - qy - iy * - qx |}.

Definition runtime : Runtime.t :=
  {| Runtime.sin := sin; Runtime.cos := cos; Runtime.acos := acos;
     Runtime.atan2 := atan2; Runtime.tan := tan;
     Runtime.setFromUnitVectors := setFromUnitVectors;
     Runtime.invert := invert;
     Runtime.applyQuaternion := applyQuaternion |}.

End SampleRuntime.

(* ================================================================== *)
(** * Vocabulary of the statements *)

(** ** The order of the numbers *)

Module FloatOrder.

Local Open Scope Z_scope.

(** A number that is not NaN, as a point of the lexicographic order on triples
    of integers: its class (negative infinity, negative, zero, positive,
    positive infinity), then its exponent, then its mantissa. *)
Definition key (f : spec_float) : Z * Z * Z :=
  match f with
  | S754_infinity true => (-2, 0, 0)
  | S754_finite true m e => (-1, - e, - Zpos m)
  | S754_zero _ | S754_nan => (0, 0, 0)
  | S754_finite false m e => (1, e, Zpos m)
  | S754_infinity false => (2, 0, 0)
  end.

Definition lexle (a b : Z * Z * Z) : Prop :=
  let '(a1, a2, a3) := a in
  let '(b1, b2, b3) := b in
  a1 < b1 \/ (a1 = b1 /\ (a2 < b2 \/ (a2 = b2 /\ a3 <= b3))).

Definition lexlt (a b : Z * Z * Z) : Prop :=
  let '(a1, a2, a3) := a in
  let '(b1, b2, b3) := b in
  a1 < b1 \/ (a1 = b1 /\ (a2 < b2 \/ (a2 = b2 /\ a3 < b3))).

Definition number (f : spec_float) : Prop := f <> S754_nan.

End FloatOrder.


(** ** Mesh texts *)

Module Mesh.

Import JS OBJLoader.
Local Open Scope string_scope.
Local Open Scope Z_scope.

(** The position index of a corner token: the integer before its first [/]. *)
Definition positionIndex (corner : string) : option Z :=
  parseInt (toString (nth_error (split "/" corner) 0)).

(** How many vertices the pool holds. *)
Definition vertexCount (p : Pools) : Z := Z.of_nat (List.length (vertices p)) / 3.

(** The 1-based position index of the corner resolves into the vertex pool. *)
Definition resolves (p : Pools) (corner : string) : bool :=
  match positionIndex corner with
  | Some n => (1 <=? n) && (n <=? vertexCount p)
  | None => false
  end.

(** The coordinates of the [n]-th vertex of the pool, counting from 1. *)
Definition vertex (p : Pools) (n : Z) : list float :=
  [element (vertices p) ((n - 1) * 3); element (vertices p) ((n - 1) * 3 + 1);
   element (vertices p) ((n - 1) * 3 + 2)].

(** What a corner contributes to the position buffer: the coordinates of its
    vertex when its index resolves, nothing otherwise. *)
Definition cornerPosition (p : Pools) (corner : string) : list float :=
  match positionIndex corner with
  | Some n => if (1 <=? n) && (n <=? vertexCount p) then vertex p n else []
  | None => []
  end.

(** The corner tokens of the text, over all its [f] lines. *)
Definition corners (text : string) : list string := faces (scan text).

(** The face corners come in triples: the faces are triangles. *)
Definition triangulated (text : string) : Prop :=
  (List.length (corners text) mod 3 = 0)%nat.

(** The number of triangles: of groups of three consecutive corners. *)
Definition faceTriangleCount (text : string) : nat :=
  (List.length (corners text) / 3)%nat.

(** The coordinates of a [v] line as [parseFloat] reads them, none for
    another line. *)
Definition vCoordinates (line : string) : list float :=
  let line := trim line in
  if startsWith line "v " then
    let parts := splitWhiteSpace line in
    map parseFloat [part parts 1; part parts 2; part parts 3]
  else [].

(** The [v] lines of the text, and the coordinates of its source vertices,
    one after the other. *)
Definition vLines (text : string) : list string :=
  filter (fun line => startsWith (trim line) "v ") (split "010" text).

Definition sourceVertices (text : string) : list float :=
  flat_map vCoordinates (vLines text).

(** The corner tokens of an [f] line, none for another line. *)
Definition faceRecord (line : string) : list string :=
  let line := trim line in
  if startsWith line "f " then splitWhiteSpace (trim (substring 2 line))
  else [].

(** The [f] lines of the text. *)
Definition faceLines (text : string) : list string :=
  filter (fun line => startsWith (trim line) "f ") (split "010" text).


(** The number of corners whose position index resolves, or does not. *)
Definition resolvedCount (text : string) : nat :=
  List.length (filter (resolves (scan text)) (corners text)).

Definition droppedCount (text : string) : nat :=
  List.length (filter (fun c => negb (resolves (scan text) c)) (corners text)).

(** The source values [(u, v)] of a [vt] line, none for another line. *)
Definition vtRecord (line : string) : list (float * float) :=
  let line := trim line in
  if startsWith line "vt " then
    let parts := splitWhiteSpace line in
    [(parseFloat (part parts 1), parseFloat (part parts 2))]
  else [].

(** The source values of the [vt] lines of the text, in order. *)
Definition vtRecords (text : string) : list (float * float) :=
  flat_map vtRecord (split "010" text).

(** A texture coordinate as the loader stores it: V flipped. *)
Definition flipV (uv : float * float) : list float :=
  [fst uv; (1.0 - snd uv)%float].

(** Line feed. *)
Definition LF : string := String "010" "".

(** Four vertices and the face [f 1 2 3]. *)
Definition tetrahedronFace : string :=
  "v 0 0 0" ++ LF ++ "v 1 0 0" ++ LF ++ "v 0 1 0" ++ LF ++ "v 0 0 1" ++ LF
  ++ "f 1 2 3".

(** Three vertices and a face whose last corner has index 99. *)
Definition danglingCorner : string :=
  "v 0 0 0" ++ LF ++ "v 1 0 0" ++ LF ++ "v 0 1 0" ++ LF ++ "f 1 2 99".

(** Three vertices and a face whose last corner has the relative index -1. *)
Definition relativeCorner : string :=
  "v 0 0 0" ++ LF ++ "v 1 0 0" ++ LF ++ "v 0 1 0" ++ LF ++ "f 1 2 -1".


(** A triangle whose first coordinate is not a number, a texture coordinate
    that is not one either, and a corner whose index is not one. *)
Definition malformedTokens : string :=
  "v abc 0 0" ++ LF ++ "v 1 0 0" ++ LF ++ "v 0 1 0" ++ LF
  ++ "vt 0.5 x" ++ LF ++ "f 1/1 2 3" ++ LF ++ "f 1 2 z".

(** A face of four corners. *)
Definition quad : string :=
  "v 0 0 0" ++ LF ++ "v 1 0 0" ++ LF ++ "v 1 1 0" ++ LF ++ "v 0 1 0" ++ LF
  ++ "f 1 2 3 4".

End Mesh.

(** ** Controllers *)

Module Orbit.

Import OrbitControls.
Local Open Scope float_scope.

(** The camera of [init] (lines 357-363), drawn once. *)
Definition initCamera : Camera :=
  {| position := {| Vector3.x := 5; Vector3.y := 5; Vector3.z := 5 |};
     up := {| Vector3.x := 0; Vector3.y := 1; Vector3.z := 0 |};
     fov := 45;
     matrix0 := {| Vector3.x := 1; Vector3.y := 0; Vector3.z := 0 |};
     matrix1 := {| Vector3.x := 0; Vector3.y := 1; Vector3.z := 0 |} |}.

(** The controller of [init] (line 379) on a viewport 600 pixels high. *)
Definition initControls : t :=
  constructor SampleRuntime.runtime initCamera 600.

(** The same controller with auto-rotation toggled off (lines 687-690). *)
Definition stillControls : t :=
  let s := settings initControls in
  {| camera := camera initControls; clientHeight := clientHeight initControls;
     target := target initControls;
     settings := {| minDistance := minDistance s; maxDistance := maxDistance s;
                    minPolarAngle := minPolarAngle s;
                    maxPolarAngle := maxPolarAngle s;
                    enableDamping := enableDamping s;
                    dampingFactor := dampingFactor s;
                    enablePan := enablePan s; autoRotate := false;
                    autoRotateSpeed := autoRotateSpeed s;
                    enabled := enabled s |};
     state := state initControls; spherical := spherical initControls;
     sphericalDelta := sphericalDelta initControls; scale := scale initControls;
     panOffset := panOffset initControls;
     rotateStart := rotateStart initControls;
     rotateEnd := rotateEnd initControls;
     rotateDelta := rotateDelta initControls;
     panStart := panStart initControls; panEnd := panEnd initControls;
     panDelta := panDelta initControls; quat := quat initControls;
     quatInverse := quatInverse initControls;
     listening := listening initControls |}.

(** A press of the primary button at (100, 100) and a move to (300, 200). *)
Definition press : MouseEvent :=
  {| button := 0; clientX := 100; clientY := 100 |}.

Definition drag : MouseEvent :=
  {| button := 0; clientX := 300; clientY := 200 |}.

(** The controller once the button is down: in the ROTATE state. *)
Definition pressedControls : t := onMouseDown press initControls.

(** A wheel event scrolling up, and one scrolling down. *)
Definition scrollUp : WheelEvent := {| deltaY := -100 |}.
Definition scrollDown : WheelEvent := {| deltaY := 100 |}.

(** The pending delta after [n] updates that only damp it by the factor [k]. *)
Fixpoint damped (n : nat) (k : float) (d : Spherical.t) : Spherical.t :=
  match n with
  | O => d
  | S n' =>
      let d' := damped n' k d in
      {| Spherical.radius := Spherical.radius d';
         Spherical.phi := Spherical.phi d' * k;
         Spherical.theta := Spherical.theta d' * k |}
  end.

(** The angle idle auto-rotation subtracts from the azimuthal pending delta
    at each update (line 175). *)
Definition autoRotationAngle (c : t) : float :=
  2 * Math.PI / 60 / 60 * autoRotateSpeed (settings c).

(** The angular delta as the specification words it:
    [2π · pixels / viewportHeight]. *)
Definition specifiedRotation (pixels viewportHeight : float) : float :=
  2 * Math.PI * pixels / viewportHeight.

(** The zoom scale after a wheel event as the specification words it: a
    negative delta divides it by the dolly factor, a positive delta multiplies
    it. *)
Definition specifiedWheelScale (delta zoomScale : float) : float :=
  if delta <? 0 then zoomScale / 0.95
  else if 0 <? delta then zoomScale * 0.95
  else zoomScale.

(** One frame of the viewer's loop: [update], then the drawing, which leaves
    the columns of an upright camera's matrix as they were. *)
Definition frame : Input :=
  animationFrame (matrix0 initCamera) (matrix1 initCamera).


End Orbit.

(** ** Damping *)

Module Damping.

Local Open Scope Z_scope.

(** The factor by which [update] damps the pending delta, with the damping
    factor 0.08 the viewer sets: [1 - 0.08], of mantissa [mantissa] and
    exponent -53. *)
Definition factor : float := (1 - 0.08)%float.

Definition mantissa : positive := 8286623314361713.

Definition K : spec_float := S754_finite false mantissa (-53).

(** The smallest magnitudes, which damping no longer shrinks: 6 · 2^-1074
    (about 3e-323) is the largest of them. *)
Definition tiny : float := 0x6p-1074%float.

Definition small (f : spec_float) : Prop :=
  match f with
  | S754_zero _ => True
  | S754_finite _ m e => e = -1074 /\ Zpos m <= 6
  | _ => False
  end.

(** A finite number. *)
Definition finite (f : spec_float) : Prop :=
  match f with
  | S754_zero _ | S754_finite _ _ _ => True
  | _ => False
  end.

(** The place of a finite number in the order of the magnitudes. *)
Definition rank (f : spec_float) : Z :=
  match f with
  | S754_finite _ m e => (e + 1074) * 2 ^ 53 + Zpos m
  | _ => 0
  end.

(** The magnitude of [g] is at most that of [f]; below it when [strict]. *)
Definition shrunk (strict : bool) (f g : spec_float) : Prop :=
  match f, g with
  | S754_finite _ mx ex, S754_finite _ m' e' =>
      e' < ex \/
      (e' = ex /\ if strict then Zpos m' < Zpos mx else Zpos m' <= Zpos mx)
  | S754_finite _ _ _, S754_zero _ => True
  | S754_zero _, S754_zero _ => strict = false
  | S754_infinity _, S754_infinity _ => strict = false
  | _, _ => False
  end.

(** A number damped [n] times. *)
Definition decay (n : nat) (x : float) : float :=
  Nat.iter n (fun t => (t * factor)%float) x.

End Damping.

(** ** Mesh texts: the records of each kind and the corners' other indices *)

Module Wavefront.

Import JS OBJLoader Mesh.
Local Open Scope string_scope.
Local Open Scope Z_scope.

(** The [vn] and [vt] lines of the text. *)
Definition vnLines (text : string) : list string :=
  filter (fun line => startsWith (trim line) "vn ") (split "010" text).

Definition vtLines (text : string) : list string :=
  filter (fun line => startsWith (trim line) "vt ") (split "010" text).

(** The coordinates of a [vn] line as [parseFloat] reads them, none for
    another line. *)
Definition vnCoordinates (line : string) : list float :=
  let line := trim line in
  if startsWith line "vn " then
    let parts := splitWhiteSpace line in
    map parseFloat [part parts 1; part parts 2; part parts 3]
  else [].

(** The mesh with no vertex: no position, the normals left to the renderer,
    no texture coordinate. *)
Definition emptyMesh : Object3D :=
  {| position := []; normal := ComputedVertexNormals; uv := None;
     material := defaultMaterial |}.

(** The texture index of a corner token, between its first and second [/],
    and its normal index, after the second: none when the part is missing or
    empty (lines 308 and 315) or is no integer. *)
Definition uvIndex (corner : string) : option Z :=
  let indices := split "/" corner in
  if nonEmpty (nth_error indices 1)
  then parseInt (toString (nth_error indices 1)) else None.

Definition normalIndex (corner : string) : option Z :=
  let indices := split "/" corner in
  if nonEmpty (nth_error indices 2)
  then parseInt (toString (nth_error indices 2)) else None.

(** How many texture coordinates and normals the pools hold. *)
Definition uvCount (p : Pools) : Z := Z.of_nat (List.length (uvs p)) / 2.
Definition normalCount (p : Pools) : Z := Z.of_nat (List.length (normals p)) / 3.

(** The 1-based texture and normal indices of the corner resolve. *)
Definition resolvesUV (p : Pools) (corner : string) : bool :=
  match uvIndex corner with
  | Some n => (1 <=? n) && (n <=? uvCount p)
  | None => false
  end.

Definition resolvesNormal (p : Pools) (corner : string) : bool :=
  match normalIndex corner with
  | Some n => (1 <=? n) && (n <=? normalCount p)
  | None => false
  end.

(** The [n]-th texture coordinate and the [n]-th normal of the pools,
    counting from 1. *)
Definition textureCoordinate (p : Pools) (n : Z) : list float :=
  [element (uvs p) ((n - 1) * 2); element (uvs p) ((n - 1) * 2 + 1)].

Definition normalVector (p : Pools) (n : Z) : list float :=
  [element (normals p) ((n - 1) * 3); element (normals p) ((n - 1) * 3 + 1);
   element (normals p) ((n - 1) * 3 + 2)].

(** What a corner contributes to the uv buffer and to the normal buffer. *)
Definition cornerUV (p : Pools) (corner : string) : list float :=
  match uvIndex corner with
  | Some n => if (1 <=? n) && (n <=? uvCount p) then textureCoordinate p n else []
  | None => []
  end.

Definition cornerNormal (p : Pools) (corner : string) : list float :=
  match normalIndex corner with
  | Some n => if (1 <=? n) && (n <=? normalCount p) then normalVector p n else []
  | None => []
  end.

(** The attribute the loader makes of a normal buffer (lines 326-331) and of
    a uv buffer (lines 333-335). *)
Definition normalAttribute (array : list float) : NormalAttribute :=
  match array with
  | [] => ComputedVertexNormals
  | _ :: _ => Supplied array
  end.

Definition uvAttribute (array : list float) : option (list float) :=
  match array with
  | [] => None
  | _ :: _ => Some array
  end.

(** The three indices of the corner resolve. *)
Definition complete (p : Pools) (corner : string) : bool :=
  resolves p corner && resolvesUV p corner && resolvesNormal p corner.

(** Every [f] line of the text is a polygon of [k] corners. *)
Definition polygonFaces (k : nat) (text : string) : Prop :=
  Forall (fun line => List.length (faceRecord line) = k) (faceLines text).

(** The text with a carriage return before every line feed: the line ends of
    a file written on Windows. *)
Fixpoint crlf (text : string) : string :=
  match text with
  | String c text' =>
      if Ascii.eqb c "010" then String "013" (String "010" (crlf text'))
      else String c (crlf text')
  | EmptyString => EmptyString
  end.

(** The line [l1] is the line [l2], or [l2] with a carriage return at its
    end. *)
Definition sameLine (l1 l2 : string) : Prop :=
  l1 = l2 \/ l1 = l2 ++ String "013" EmptyString.

(** The index an index token stands for: none for the empty token. *)
Definition indexOf (token : string) : option Z :=
  if nonEmpty (Some token) then parseInt token else None.

(** The keywords of the four kinds of record, and a keyword followed by a
    tabulation and the rest of a line. *)
Definition keywords : list string := ["v"; "vn"; "vt"; "f"].

Definition tabbed (keyword rest : string) : string :=
  keyword ++ String "009" rest.

(** The token holds no [/]. *)
Fixpoint noSlash (token : string) : bool :=
  match token with
  | String c token' => negb (Ascii.eqb c "/") && noSlash token'
  | EmptyString => true
  end.

(** The corner token [a/b/c]. *)
Definition slashed (a b c : string) : string := a ++ "/" ++ b ++ "/" ++ c.

(** A triangle with texture coordinates and a normal, after a comment. *)
Definition fullTriangle : string :=
  "# a triangle" ++ LF
  ++ "v 0 0 0" ++ LF ++ "v 1 0 0" ++ LF ++ "v 0 1 0" ++ LF
  ++ "vt 0 0" ++ LF ++ "vt 1 0" ++ LF ++ "vt 0 1" ++ LF
  ++ "vn 0 0 1" ++ LF
  ++ "f 1/1/1 2/2/1 3/3/1".

(** The same records with the face first, between lines of other kinds. *)
Definition facesFirst : string :=
  "mtllib triangle.mtl" ++ LF
  ++ "f 1/1/1 2/2/1 3/3/1" ++ LF
  ++ "vn 0 0 1" ++ LF ++ "o triangle" ++ LF
  ++ "vt 0 0" ++ LF ++ "v 0 0 0" ++ LF ++ "vt 1 0" ++ LF ++ "v 1 0 0" ++ LF
  ++ LF ++ "vt 0 1" ++ LF ++ "v 0 1 0" ++ LF ++ "s off".

(** Vertices and no face: a point cloud. *)
Definition pointCloud : string :=
  "v 0 0 0" ++ LF ++ "v 1 0 0" ++ LF ++ "v 0 1 0".

(** Three quadrilaterals on six vertices. *)
Definition threeQuads : string :=
  "v 0 0 0" ++ LF ++ "v 1 0 0" ++ LF ++ "v 1 1 0" ++ LF ++ "v 0 1 0" ++ LF
  ++ "v 0 0 1" ++ LF ++ "v 1 0 1" ++ LF
  ++ "f 1 2 3 4" ++ LF ++ "f 1 2 6 5" ++ LF ++ "f 2 3 6 5".

End Wavefront.

(** ** Gestures and frames *)

Module Gestures.

Import OrbitControls.
Local Open Scope float_scope.

(** The controller with the flags [enablePan] and [enabled] set. *)
Definition withFlags (pan on : bool) (c : t) : t :=
  let s := settings c in
  {| camera := camera c; clientHeight := clientHeight c; target := target c;
     settings := {| minDistance := minDistance s; maxDistance := maxDistance s;
                    minPolarAngle := minPolarAngle s;
                    maxPolarAngle := maxPolarAngle s;
                    enableDamping := enableDamping s;
                    dampingFactor := dampingFactor s;
                    enablePan := pan; autoRotate := autoRotate s;
                    autoRotateSpeed := autoRotateSpeed s;
                    enabled := on |};
     state := state c; spherical := spherical c;
     sphericalDelta := sphericalDelta c; scale := scale c;
     panOffset := panOffset c; rotateStart := rotateStart c;
     rotateEnd := rotateEnd c; rotateDelta := rotateDelta c;
     panStart := panStart c; panEnd := panEnd c; panDelta := panDelta c;
     quat := quat c; quatInverse := quatInverse c; listening := listening c |}.

(** [c.enablePan = v] *)
Definition withEnablePan (v : bool) (c : t) : t :=
  withFlags v (enabled (settings c)) c.

(** [c.enabled = v] *)
Definition withEnabled (v : bool) (c : t) : t :=
  withFlags (enablePan (settings c)) v c.

(** Between gestures the controller is idle, and no gesture is a dolly. *)
Definition settled (c : t) : Prop :=
  state c <> DOLLY /\ (listening c = false -> state c = NONE).

(** A frame of the viewer's loop, or an event of the mouse or the wheel. *)
Definition isFrame (i : Input) : bool :=
  match i with
  | animationFrame _ _ => true
  | _ => false
  end.

Definition isPointer (i : Input) : bool := negb (isFrame i).

(** A vector whose components are damped [n] times. *)
Definition decayed (n : nat) (v : Vector3.t) : Vector3.t :=
  {| Vector3.x := Damping.decay n (Vector3.x v);
     Vector3.y := Damping.decay n (Vector3.y v);
     Vector3.z := Damping.decay n (Vector3.z v) |}.

(** The magnitude of every component of [v] is at most that of the same
    component of [w]; is at most [bound]; is finite. *)
Definition noLonger (v w : Vector3.t) : Prop :=
  (abs (Vector3.x v) <=? abs (Vector3.x w)) = true /\
  (abs (Vector3.y v) <=? abs (Vector3.y w)) = true /\
  (abs (Vector3.z v) <=? abs (Vector3.z w)) = true.

Definition withinMagnitude (bound : float) (v : Vector3.t) : Prop :=
  (abs (Vector3.x v) <=? bound) = true /\
  (abs (Vector3.y v) <=? bound) = true /\
  (abs (Vector3.z v) <=? bound) = true.

Definition finiteVector (v : Vector3.t) : Prop :=
  (abs (Vector3.x v) <? infinity) = true /\
  (abs (Vector3.y v) <? infinity) = true /\
  (abs (Vector3.z v) <? infinity) = true.

(** A press of the secondary button at (100, 100) and a move to (160, 130). *)
Definition pressSecondary : MouseEvent :=
  {| button := 2; clientX := 100; clientY := 100 |}.

Definition dragSecondary : MouseEvent :=
  {| button := 2; clientX := 160; clientY := 130 |}.

(** A drag with the secondary button, and a drag and a scroll with the
    primary one. *)
Definition panGesture : list Input :=
  [mousedown pressSecondary; mousemove dragSecondary; mouseup].

Definition rotateAndZoom : list Input :=
  [mousedown Orbit.press; mousemove Orbit.drag; wheel Orbit.scrollUp; mouseup].

(** The viewer's controller after the pan, with its flag [enablePan] off,
    and not enabled. *)
Definition pannedControls : t :=
  run SampleRuntime.runtime Orbit.initControls panGesture.

Definition panDisabledControls : t := withEnablePan false Orbit.initControls.

Definition disabledControls : t := withEnabled false Orbit.initControls.

End Gestures.

(* ================================================================== *)
(** * The viewer: the model, its texture and the visual settings
      (lines 2-9, 430-445, 529-564, 577-741 and 784-806) *)

Module Viewer.

Import JS.
Local Open Scope float_scope.

(** [visualSettings] (lines 4-9). *)
Record VisualSettings : Type := {
  brightness : float;
  contrast : float;
  saturation : float;
  exposure : float
}.

Definition initialSettings : VisualSettings :=
  {| brightness := 1.0; contrast := 1.0; saturation := 1.0; exposure := 1.0 |}.

(** A colour of the rendering library: its three channels. *)
Record Color : Type := { r : float; g : float; b : float }.

(** A texture: the image of a file of the user, named by the file. *)
Record Texture : Type := { image : string }.

(** A material, as far as the viewer reads and writes it: [color], [map]
    (null or a texture), [userData.originalColor] (undefined or a colour) and
    [wireframe].  The assignments [mat.needsUpdate = true], which ask the
    renderer to compile the material again, are left out. *)
Record Material : Type := {
  color : Color;
  map : option Texture;
  originalColor : option Color;
  wireframe : bool
}.

(** [child.material]: undefined, a material or an array of materials. *)
Inductive Materials : Type :=
| NoMaterial
| Single (m : Material)
| Several (ms : list Material).

(** An object of the scene graph, as far as the viewer reads it: [isMesh],
    whether its geometry has a [uv] attribute, its materials and its
    children.  A material is taken to belong to one object, as in the groups
    the loader builds. *)
#[local] Unset Elimination Schemes.
Inductive Node : Type :=
| node (isMesh hasUV : bool) (material : Materials) (children : list Node).
#[local] Set Elimination Schemes.

Definition isMesh (n : Node) : bool := let 'node m _ _ _ := n in m.
Definition hasUV (n : Node) : bool := let 'node _ u _ _ := n in u.
Definition material (n : Node) : Materials := let 'node _ _ ms _ := n in ms.
Definition children (n : Node) : list Node := let 'node _ _ _ cs := n in cs.

(** [object.traverse(callback)], for a callback that writes to the materials
    of the object it is given: the callback is called on the object and on
    all its descendants. *)
Fixpoint traverse (callback : Node -> Materials) (n : Node) : Node :=
  match n with
  | node m u ms cs => node m u (callback n) (List.map (traverse callback) cs)
  end.

(** [if (child.material)], then the write [f] to the material, or to each
    material of the array (lines 625-635, 651-653 and 698-705). *)
Definition forEachMaterial (f : Material -> Material) (ms : Materials)
  : Materials :=
  match ms with
  | NoMaterial => NoMaterial
  | Single m => Single (f m)
  | Several l => Several (List.map f l)
  end.

(** ** [applyTextureToModel] (lines 619-642) *)

(** [mat.map = texture] *)
Definition setMap (texture : Texture) (mat : Material) : Material :=
  {| color := color mat; map := Some texture;
     originalColor := originalColor mat; wireframe := wireframe mat |}.

(** The callback of the traversal (lines 621-637). *)
Definition textureChild (texture : Texture) (child : Node) : Materials :=
  if isMesh child then
    if hasUV child then forEachMaterial (setMap texture) (material child)
    else material child
  else material child.

(** ** [applyVisualSettings] (lines 644-675) *)

(** The body of [materials.forEach] (lines 654-671). *)
Definition brighten (settings : VisualSettings) (mat : Material) : Material :=
  match map mat with
  | Some _ =>
      let original :=
        match originalColor mat with
        | Some c => c
        | None => color mat
        end in
      let brightness := brightness settings in
      let r := r original * brightness in
      let g := g original * brightness in
      let b := b original * brightness in
      {| color := {| r := Math.min r 1; g := Math.min g 1; b := Math.min b 1 |};
         map := map mat; originalColor := Some original;
         wireframe := wireframe mat |}
  | None => mat
  end.

(** The callback of the traversal (lines 650-673). *)
Definition visualiseChild (settings : VisualSettings) (child : Node)
  : Materials :=
  if isMesh child then forEachMaterial (brighten settings) (material child)
  else material child.

(** ** [toggleWireframe] (lines 694-708) *)

Definition flipWireframe (mat : Material) : Material :=
  {| color := color mat; map := map mat; originalColor := originalColor mat;
     wireframe := negb (wireframe mat) |}.

Definition wireframeChild (child : Node) : Materials :=
  if isMesh child then forEachMaterial flipWireframe (material child)
  else material child.

(** ** The variables of the viewer *)

(** [currentModel], [loadedTexture], [visualSettings] and the exposure of the
    renderer.  No current model stands for [undefined] (before the first
    load) and for [null] (after [clearModel]): the functions below test
    [currentModel] for truth only.  The scene, the camera, the overlay and
    the texts written to the page are left out. *)
Record App : Type := {
  currentModel : option Node;
  loadedTexture : option Texture;
  visualSettings : VisualSettings;
  toneMappingExposure : float
}.

(** The viewer once [init] has run (lines 1-9 and 376). *)
Definition initialApp : App :=
  {| currentModel := None; loadedTexture := None;
     visualSettings := initialSettings; toneMappingExposure := 1.0 |}.

Definition set_currentModel (v : option Node) (a : App) : App :=
  {| currentModel := v; loadedTexture := loadedTexture a;
     visualSettings := visualSettings a;
     toneMappingExposure := toneMappingExposure a |}.

Definition set_loadedTexture (v : option Texture) (a : App) : App :=
  {| currentModel := currentModel a; loadedTexture := v;
     visualSettings := visualSettings a;
     toneMappingExposure := toneMappingExposure a |}.

Definition set_visualSettings (v : VisualSettings) (a : App) : App :=
  {| currentModel := currentModel a; loadedTexture := loadedTexture a;
     visualSettings := v; toneMappingExposure := toneMappingExposure a |}.

(** [applyVisualSettings()] (lines 644-675). *)
Definition applyVisualSettings (a : App) : App :=
  match currentModel a with
  | None => a
  | Some model =>
      {| currentModel := Some (traverse (visualiseChild (visualSettings a)) model);
         loadedTexture := loadedTexture a;
         visualSettings := visualSettings a;
         toneMappingExposure := exposure (visualSettings a) |}
  end.

(** [applyTextureToModel(model, texture)] (lines 619-642).  At each of its
    calls (lines 553 and 601) [model] is the current model, which the
    function writes to in place: the current model is then the model with
    the texture. *)
Definition applyTextureToModel (model : Node) (texture : Texture) (a : App)
  : App :=
  applyVisualSettings
    (set_currentModel (Some (traverse (textureChild texture) model)) a).

(** The completion callback of [loadAndApplyTexture] (lines 589-611). *)
Definition textureLoaded (texture : Texture) (a : App) : App :=
  let a := set_loadedTexture (Some texture) a in
  match currentModel a with
  | Some model => applyTextureToModel model texture a
  | None => a
  end.

(** [clearModel()] (lines 430-445). *)
Definition clearModel (a : App) : App :=
  match currentModel a with
  | Some _ => set_currentModel None a
  | None => a
  end.

(** [loadOBJ], up to the request (lines 529-541). *)
Definition loadOBJ (a : App) : App := clearModel a.

(** The completion callback [loadOBJ] hands to the loader (lines 544-564);
    [textureFile] says whether a texture file came with the model, whose
    texture then arrives later, through [textureLoaded]. *)
Definition objLoaded (object : Node) (textureFile : bool) (a : App) : App :=
  let a := set_currentModel (Some object) a in
  if textureFile then a
  else
    match loadedTexture a with
    | Some texture => applyTextureToModel object texture a
    | None => a
    end.

(** The handlers of the four sliders (lines 784-806) and [resetVisuals]
    (lines 724-741). *)
Definition setBrightness (value : string) (a : App) : App :=
  let s := visualSettings a in
  applyVisualSettings
    (set_visualSettings
       {| brightness := parseFloat value; contrast := contrast s;
          saturation := saturation s; exposure := exposure s |} a).

Definition setContrast (value : string) (a : App) : App :=
  let s := visualSettings a in
  applyVisualSettings
    (set_visualSettings
       {| brightness := brightness s; contrast := parseFloat value;
          saturation := saturation s; exposure := exposure s |} a).

Definition setSaturation (value : string) (a : App) : App :=
  let s := visualSettings a in
  applyVisualSettings
    (set_visualSettings
       {| brightness := brightness s; contrast := contrast s;
          saturation := parseFloat value; exposure := exposure s |} a).

Definition setExposure (value : string) (a : App) : App :=
  let s := visualSettings a in
  applyVisualSettings
    (set_visualSettings
       {| brightness := brightness s; contrast := contrast s;
          saturation := saturation s; exposure := parseFloat value |} a).

Definition resetVisuals (a : App) : App :=
  applyVisualSettings
    (set_visualSettings
       {| brightness := 1.0; contrast := 1.0; saturation := 1.0;
          exposure := 1.0 |} a).

(** [toggleWireframe()] (lines 694-708). *)
Definition toggleWireframe (a : App) : App :=
  match currentModel a with
  | None => a
  | Some model => set_currentModel (Some (traverse wireframeChild model)) a
  end.

(** ** The model the loader delivers *)

Section WithLibrary.

(** [new THREE.Color(hex)], which the rendering library defines. *)
Variable setHex : Z -> Color.

(** The group [parse] returns (lines 337-349) in the scene graph: a group
    with one child, the mesh, whose geometry has a [uv] attribute when
    [parse] set one and whose material is a new one of the colour given. *)
Definition groupOf (object : OBJLoader.Object3D) : Node :=
  node false false NoMaterial
    [node true
       (match OBJLoader.uv object with
        | Some _ => true
        | None => false
        end)
       (Single {| color := setHex (OBJLoader.color (OBJLoader.material object));
                  map := None; originalColor := None; wireframe := false |})
       []].

(** What [loadOBJ] does when its request ends (lines 542-574): the loader
    calls one of the two callbacks; the error callback writes to the page
    only. *)
Definition requestEnded (textureFile : bool) (response : OBJLoader.Response)
  (a : App) : App :=
  fold_left
    (fun a callback =>
       match callback with
       | OBJLoader.onLoad object => objLoaded (groupOf object) textureFile a
       | OBJLoader.onError _ => a
       end)
    (OBJLoader.load true response) a.

End WithLibrary.

End Viewer.

(** ** Materials of a model *)

Module Shading.

Import Viewer.
Local Open Scope float_scope.

(** The materials of a [child.material]. *)
Definition materialsOf (ms : Materials) : list Material :=
  match ms with
  | NoMaterial => []
  | Single m => [m]
  | Several l => l
  end.

(** The materials of the meshes of a model. *)
Fixpoint meshMaterials (n : Node) : list Material :=
  match n with
  | node m _ ms cs =>
      (if m then materialsOf ms else []) ++ flat_map meshMaterials cs
  end.

(** The callback that writes [f] to the materials of the meshes. *)
Definition onMeshes (f : Material -> Material) (child : Node) : Materials :=
  if isMesh child then forEachMaterial f (material child) else material child.

(** The colour a material had when it came: the one put aside in
    [userData.originalColor], or its colour when none was put aside yet. *)
Definition original (mat : Material) : Color :=
  match originalColor mat with
  | Some c => c
  | None => color mat
  end.

(** A material with a texture back in its original colour. *)
Definition restore (mat : Material) : Material :=
  match map mat with
  | Some _ =>
      {| color := original mat; map := map mat;
         originalColor := Some (original mat); wireframe := wireframe mat |}
  | None => mat
  end.

(** No channel of the colour is above 1. *)
Definition displayable (c : Color) : Prop :=
  (1 <? r c) = false /\ (1 <? g c) = false /\ (1 <? b c) = false.

(** The materials of the meshes that have a texture. *)
Definition textured (mat : Material) : bool :=
  match map mat with
  | Some _ => true
  | None => false
  end.

(** Grey, as the loader's material: every channel 0.8. *)
Definition grey (hex : Z) : Color := {| r := 0.8; g := 0.8; b := 0.8 |}.

Definition stone : Texture := {| image := "stone.jpg" |}.

(** A mesh with texture coordinates and a grey material, in a group. *)
Definition greyModel : Node :=
  node false false NoMaterial
    [node true true
       (Single {| color := grey 0; map := None; originalColor := None;
                  wireframe := false |}) []].

(** The viewer with that model and the texture on it. *)
Definition texturedApp : App :=
  textureLoaded stone (objLoaded greyModel false initialApp).

End Shading.

(* ================================================================== *)
(** * The files dropped on the viewer (lines 820-851) *)

Module Files.

Import JS.
Local Open Scope string_scope.

(** [toLowerCase] on a code unit below 256: the letters A to Z, and À to Þ
    but for the sign ×, have a lower-case form, 32 code units above. *)
Definition lowerCase (c : ascii) : ascii :=
  let n := N_of_ascii c in
  if ((65 <=? n) && (n <=? 90)
      || (192 <=? n) && (n <=? 222) && negb (n =? 215))%N
  then ascii_of_N (n + 32) else c.

(** [s.toLowerCase()] *)
Fixpoint toLowerCase (s : string) : string :=
  match s with
  | String c s' => String (lowerCase c) (toLowerCase s')
  | EmptyString => EmptyString
  end.

(** [s.endsWith(suffix)]: the characters of [s] from the position
    [s.length - suffix.length] on are those of [suffix]; false when that
    position is negative. *)
Definition endsWith (s suffix : string) : bool :=
  (String.length suffix <=? String.length s)%nat
  && String.eqb (substring (String.length s - String.length suffix) s) suffix.

(** A file of the user, as far as the handler reads it: its name. *)
Record File : Type := { name : string }.

(** The three predicates of the handler (lines 825-833). *)
Definition isObj (f : File) : bool := endsWith (toLowerCase (name f)) ".obj".

Definition isMtl (f : File) : bool := endsWith (toLowerCase (name f)) ".mtl".

Definition isTexture (f : File) : bool :=
  let name := toLowerCase (name f) in
  endsWith name ".jpg" || endsWith name ".jpeg" ||
  endsWith name ".png" || endsWith name ".bmp" ||
  endsWith name ".tga" || endsWith name ".tiff" ||
  endsWith name ".webp".

(** The calls the handler makes to load something. *)
Inductive Call : Type :=
| loadOBJ (objFile : File) (mtlFile textureFile : option File)
| loadAndApplyTexture (file : File).

(** The handler of [drop] (lines 820-851), as the loads it starts.
    [files.find] gives the first file that passes the test, or [undefined].
    The labels written to the page are left out. *)
Definition onDrop (files : list File) : list Call :=
  let objFile := find isObj files in
  let mtlFile := find isMtl files in
  let textureFile := find isTexture files in
  match objFile with
  | Some f => [loadOBJ f mtlFile textureFile]
  | None => []
  end
  ++
  match textureFile, objFile with
  | Some t, None => [loadAndApplyTexture t]
  | _, _ => []
  end.

(** A scan of a statue: the mesh, its material library, two pictures and a
    note. *)
Definition statue : list File :=
  [{| name := "README.txt" |}; {| name := "Statue.PNG" |};
   {| name := "statue.mtl" |}; {| name := "STATUE.OBJ" |};
   {| name := "statue.obj.jpeg" |}].

End Files.

(** ** Zooming *)

Module Zoom.

Local Open Scope Z_scope.


End Zoom.

(* ================================================================== *)
(** * Facts on the order of the numbers *)

Module FloatOrderFacts.

Import FloatOrder.
Local Open Scope Z_scope.

Lemma SFcompare_key (f g : spec_float) :
  number f -> number g ->
  exists c, SFcompare f g = Some c /\
    match c with
    | Lt => lexlt (key f) (key g)
    | Eq => lexle (key f) (key g) /\ lexle (key g) (key f)
    | Gt => lexlt (key g) (key f)
    end.
Proof.
  unfold number.
  destruct f as [[] | [] | | [] m1 e1], g as [[] | [] | | [] m2 e2];
    intros Hf Hg; try congruence; cbn [SFcompare key];
    try (eexists; split; [reflexivity | cbn; lia]).
  - change (Pos.compare_cont Eq m1 m2) with (m1 ?= m2)%positive.
    destruct (Z.compare_spec e1 e2), (Pos.compare_spec m1 m2);
      eexists; (split; [reflexivity | cbn; lia]).
  - change (Pos.compare_cont Eq m1 m2) with (m1 ?= m2)%positive.
    destruct (Z.compare_spec e1 e2), (Pos.compare_spec m1 m2);
      eexists; (split; [reflexivity | cbn; lia]).
Qed.

Lemma SFcompare_number (f g : spec_float) (c : comparison) :
  SFcompare f g = Some c -> number f /\ number g.
Proof.
  unfold number. destruct f, g; cbn; intros H; split; congruence.
Qed.

Lemma SFleb_key (f g : spec_float) :
  SFleb f g = true <-> number f /\ number g /\ lexle (key f) (key g).
Proof.
  unfold SFleb. split.
  - destruct (SFcompare f g) as [c |] eqn:E; [| discriminate].
    destruct (SFcompare_number _ _ _ E) as [Hf Hg].
    destruct (SFcompare_key f g Hf Hg) as (c' & E' & H).
    rewrite E in E'. injection E' as <-.
    destruct (key f) as [[? ?] ?], (key g) as [[? ?] ?].
    destruct c; intros; try discriminate; repeat split; auto; cbn in *; lia.
  - intros (Hf & Hg & Hle).
    destruct (SFcompare_key f g Hf Hg) as (c & -> & H).
    destruct (key f) as [[? ?] ?], (key g) as [[? ?] ?].
    destruct c; auto. cbn in *; lia.
Qed.

Lemma SFltb_key (f g : spec_float) :
  SFltb f g = true <-> number f /\ number g /\ lexlt (key f) (key g).
Proof.
  unfold SFltb. split.
  - destruct (SFcompare f g) as [c |] eqn:E; [| discriminate].
    destruct (SFcompare_number _ _ _ E) as [Hf Hg].
    destruct (SFcompare_key f g Hf Hg) as (c' & E' & H).
    rewrite E in E'. injection E' as <-.
    destruct c; intros; try discriminate; repeat split; auto.
  - intros (Hf & Hg & Hlt).
    destruct (SFcompare_key f g Hf Hg) as (c & -> & H).
    destruct (key f) as [[? ?] ?], (key g) as [[? ?] ?].
    destruct c; auto; cbn in *; lia.
Qed.

Local Open Scope float_scope.

Lemma is_nan_number (x : float) : is_nan x = false <-> number (Prim2SF x).
Proof.
  unfold is_nan. rewrite eqb_spec. unfold SFeqb, number. split.
  - intros H E. rewrite E in H. discriminate.
  - intros H. destruct (SFcompare_key _ _ H H) as (c & -> & Hc).
    destruct (key (Prim2SF x)) as [[? ?] ?].
    destruct c; auto; cbn in *; lia.
Qed.

(** [x <= y] as JavaScript evaluates it. *)
Lemma leb_key (x y : float) :
  (x <=? y) = true <->
  is_nan x = false /\ is_nan y = false /\ lexle (key (Prim2SF x)) (key (Prim2SF y)).
Proof. rewrite leb_spec, SFleb_key, !is_nan_number. tauto. Qed.

Lemma ltb_key (x y : float) :
  (x <? y) = true <->
  is_nan x = false /\ is_nan y = false /\ lexlt (key (Prim2SF x)) (key (Prim2SF y)).
Proof. rewrite ltb_spec, SFltb_key, !is_nan_number. tauto. Qed.

Lemma leb_number (x y : float) :
  (x <=? y) = true -> is_nan x = false /\ is_nan y = false.
Proof. rewrite leb_key. tauto. Qed.


Lemma leb_trans (x y z : float) :
  (x <=? y) = true -> (y <=? z) = true -> (x <=? z) = true.
Proof.
  rewrite !leb_key. intros (Hx & Hy & H1) (_ & Hz & H2). repeat split; auto.
  destruct (key (Prim2SF x)) as [[? ?] ?], (key (Prim2SF y)) as [[? ?] ?],
    (key (Prim2SF z)) as [[? ?] ?]. cbn in *. lia.
Qed.

Lemma ltb_leb (x y : float) : (x <? y) = true -> (x <=? y) = true.
Proof.
  rewrite ltb_key, leb_key. intros (Hx & Hy & H). repeat split; auto.
  destruct (key (Prim2SF x)) as [[? ?] ?], (key (Prim2SF y)) as [[? ?] ?].
  cbn in *. lia.
Qed.

Lemma ltb_false_leb (x y : float) :
  is_nan x = false -> is_nan y = false -> (x <? y) = false -> (y <=? x) = true.
Proof.
  intros Hx Hy H. rewrite leb_key. repeat split; auto.
  destruct (key (Prim2SF x)) as [[a1 a2] a3] eqn:Ex,
    (key (Prim2SF y)) as [[b1 b2] b3] eqn:Ey.
  destruct (x <? y) eqn:E; [discriminate |].
  assert (N : ~ lexlt (a1, a2, a3) (b1, b2, b3)).
  { intros L. rewrite <- Ex, <- Ey in L.
    assert (T : (x <? y) = true) by (apply ltb_key; auto). congruence. }
  cbn in *. lia.
Qed.

Lemma ltb_asym (x y : float) : (x <? y) = true -> (y <? x) = false.
Proof.
  intros H. destruct (y <? x) eqn:E; auto.
  apply ltb_key in H. apply ltb_key in E.
  destruct H as (_ & _ & H), E as (_ & _ & E).
  destruct (key (Prim2SF x)) as [[? ?] ?], (key (Prim2SF y)) as [[? ?] ?].
  cbn in *. lia.
Qed.


(** [Math.max] and [Math.min] on numbers. *)

Lemma min_cases (a b : float) :
  is_nan a = false -> is_nan b = false ->
  (Math.min a b = a /\ (a <=? b) = true) \/ (Math.min a b = b /\ (b <=? a) = true).
Proof.
  intros Ha Hb. unfold Math.min. rewrite Ha, Hb. cbn [orb].
  destruct (a <? b) eqn:E1; [left; split; auto using ltb_leb |].
  destruct (b <? a) eqn:E2; [right; split; auto using ltb_leb |].
  destruct (Math.isNegativeZero a);
    [left | right]; split; auto using ltb_false_leb.
Qed.




End FloatOrderFacts.

(* ================================================================== *)
(** * Facts on rounding: the product by the damping factor *)

Module RoundingFacts.

Import Damping.
Local Open Scope Z_scope.

Lemma digits2_pos_bounds (m : positive) :
  2 ^ (Zpos (digits2_pos m) - 1) <= Zpos m < 2 ^ Zpos (digits2_pos m).
Proof.
  induction m as [m IH | m IH |]; cbn [digits2_pos].
  - rewrite Pos2Z.inj_succ, Z.pow_succ_r by lia.
    replace (Z.succ (Zpos (digits2_pos m)) - 1) with (Z.succ (Zpos (digits2_pos m) - 1)) by lia.
    rewrite Z.pow_succ_r by lia. lia.
  - rewrite Pos2Z.inj_succ, Z.pow_succ_r by lia.
    replace (Z.succ (Zpos (digits2_pos m)) - 1) with (Z.succ (Zpos (digits2_pos m) - 1)) by lia.
    rewrite Z.pow_succ_r by lia. lia.
  - cbn. lia.
Qed.

Lemma Zdigits2_le (a : Z) (d : Z) : 0 <= a < 2 ^ d -> 0 <= d -> Zdigits2 a <= d.
Proof.
  intros [H0 H1] Hd. destruct a as [| p | p]; cbn [Zdigits2]; try lia.
  pose proof (digits2_pos_bounds p) as [Hlo _].
  destruct (Z.le_gt_cases (Zpos (digits2_pos p)) d) as [| Hgt]; [assumption |].
  assert (2 ^ d <= 2 ^ (Zpos (digits2_pos p) - 1)) by (apply Z.pow_le_mono_r; lia).
  lia.
Qed.

Lemma shr_1_m (mrs : shr_record) :
  0 <= shr_m mrs -> shr_m (shr_1 mrs) = shr_m mrs / 2.
Proof.
  destruct mrs as [m r s]. cbn [shr_m]. intros H.
  rewrite <- Z.div2_div.
  destruct m as [| [p | p |] | p]; try reflexivity; lia.
Qed.

Lemma iter_pos_shr_m (p : positive) :
  forall mrs : shr_record,
  0 <= shr_m mrs ->
  shr_m (iter_pos shr_1 p mrs) = shr_m mrs / 2 ^ Zpos p.
Proof.
  induction p as [p IH | p IH |]; intros mrs H; cbn [iter_pos].
  - assert (H1 : 0 <= shr_m (shr_1 mrs))
      by (rewrite shr_1_m by assumption; apply Z.div_pos; lia).
    assert (H2 : 0 <= shr_m (iter_pos shr_1 p (shr_1 mrs)))
      by (rewrite IH by assumption; apply Z.div_pos; lia).
    rewrite IH, IH, shr_1_m by assumption.
    rewrite !Z.div_div by lia.
    f_equal. replace (Zpos p~1) with (1 + Zpos p + Zpos p) by lia.
    rewrite !Z.pow_add_r by lia. change (2 ^ 1) with 2. lia.
  - assert (H2 : 0 <= shr_m (iter_pos shr_1 p mrs))
      by (rewrite IH by assumption; apply Z.div_pos; lia).
    rewrite IH, IH by assumption.
    rewrite !Z.div_div by lia.
    f_equal. replace (Zpos p~0) with (Zpos p + Zpos p) by lia.
    rewrite !Z.pow_add_r by lia. lia.
  - rewrite shr_1_m by assumption. reflexivity.
Qed.

Lemma round_nearest_even_bounds (m : Z) (l : location) :
  m <= round_nearest_even m l <= m + 1.
Proof.
  destruct l as [| []]; cbn [round_nearest_even]; try lia.
  destruct (Z.even m); lia.
Qed.


(** The first shift of [binary_round_aux] by a known positive amount. *)
Lemma shr_fexp_shift (M E : Z) (p : positive) :
  0 <= M ->
  fexp prec emax (Zdigits2 M + E) - E = Zpos p ->
  exists mrs, shr_fexp prec emax M E loc_Exact = (mrs, E + Zpos p) /\
    shr_m mrs = M / 2 ^ Zpos p.
Proof.
  intros HM Hn. unfold shr_fexp, shr. rewrite Hn.
  eexists. split; [reflexivity |].
  now rewrite iter_pos_shr_m.
Qed.

(** No shift when the number already fits. *)
Lemma shr_fexp_fits (M E : Z) :
  fexp prec emax (Zdigits2 M + E) - E <= 0 ->
  shr_fexp prec emax M E loc_Exact = (Build_shr_record M false false, E).
Proof.
  intros Hn. unfold shr_fexp, shr.
  destruct (fexp prec emax (Zdigits2 M + E) - E); try reflexivity; lia.
Qed.


(** The final step of [binary_round_aux]. *)
Lemma round_result (s : bool) (m e ex : Z) (mx : positive) :
  0 <= m -> e <= 971 ->
  e < ex \/ (e = ex /\ m <= Zpos mx /\ (13 <= Zpos mx -> m < Zpos mx)) ->
  let r := match m with
           | Z0 => S754_zero s
           | Zpos m' => if e <=? emax - prec then S754_finite s m' e
                        else S754_infinity s
           | Zneg _ => S754_nan
           end in
  r = S754_zero s \/
  exists m' e', r = S754_finite s m' e' /\
    (e' < ex \/ (e' = ex /\ Zpos m' <= Zpos mx /\ (13 <= Zpos mx -> Zpos m' < Zpos mx))).
Proof.
  intros Hm He H r. subst r. destruct m as [| m' | m']; [now left | | lia].
  right. exists m', e. split; [| exact H].
  destruct (Z.leb_spec e (emax - prec)) as [| Hgt]; [reflexivity |].
  unfold emax, prec in Hgt. lia.
Qed.

Lemma round_mul_k (s : bool) (mx : positive) (ex : Z) :
  bounded prec emax mx ex = true ->
  let r := binary_round_aux prec emax s (Zpos (mx * mantissa)) (ex + -53) loc_Exact in
  r = S754_zero s \/
  exists m' e', r = S754_finite s m' e' /\
    (e' < ex \/ (e' = ex /\ Zpos m' <= Zpos mx /\ (13 <= Zpos mx -> Zpos m' < Zpos mx))).
Proof.
  unfold bounded, canonical_mantissa. intros H.
  apply andb_prop in H as [Hc Hb].
  apply Z.eqb_eq in Hc. apply Z.leb_le in Hb.
  unfold fexp, emin in Hc. unfold prec, emax in Hc, Hb.
  pose proof (digits2_pos_bounds mx) as HD.
  pose proof (digits2_pos_bounds (mx * mantissa)) as Hd.
  set (D := Zpos (digits2_pos mx)) in *.
  set (d := Zpos (digits2_pos (mx * mantissa))) in *.
  set (M := Zpos (mx * mantissa)) in *.
  assert (HM : M = Zpos mx * 8286623314361713) by reflexivity.
  assert (HDpos : 1 <= D) by (unfold D; lia).
  assert (Hdpos : 1 <= d) by (unfold d; lia).
  assert (HX : 2 ^ D = 2 * 2 ^ (D - 1)).
  { replace D with (Z.succ (D - 1)) at 1 by lia. apply Z.pow_succ_r. lia. }
  assert (Hhi : M < 2 ^ (D + 53)).
  { rewrite Z.pow_add_r by lia. change (2 ^ 53) with 9007199254740992. lia. }
  assert (Hlo : 2 ^ (D + 51) < M).
  { replace (D + 51) with (D - 1 + 52) by lia.
    rewrite Z.pow_add_r by lia. change (2 ^ 52) with 4503599627370496. lia. }
  assert (Hdd : d = D + 52 \/ d = D + 53).
  { assert (d - 1 < D + 53)
      by (apply (Z.pow_lt_mono_r_iff 2); lia).
    assert (D + 51 < d)
      by (apply (Z.pow_lt_mono_r_iff 2); lia).
    lia. }
  assert (Hn : fexp prec emax (Zdigits2 M + (ex + -53)) - (ex + -53) = 53 \/
               (fexp prec emax (Zdigits2 M + (ex + -53)) - (ex + -53) = 52 /\
                D = 53 /\ d = 105 /\ -1074 < ex)).
  { unfold fexp, emin, prec, emax. cbn [Zdigits2 M]. fold d. lia. }
  unfold binary_round_aux.
  destruct Hn as [Hn | (Hn & HD53 & Hd105 & Hex)].
  - (* the product is cut by 53 bits: its exponent is that of the operand *)
    destruct (shr_fexp_shift M (ex + -53) 53 ltac:(lia) Hn) as (mrs & -> & Hq).
    pose proof (round_nearest_even_bounds (shr_m mrs) (loc_of_shr_record mrs)) as Hm1.
    set (m1 := round_nearest_even (shr_m mrs) (loc_of_shr_record mrs)) in *.
    change (2 ^ 53) with 9007199254740992 in Hq.
    assert (Hq0 : 0 <= shr_m mrs) by (rewrite Hq; apply Z.div_pos; lia).
    assert (Hq1 : shr_m mrs < Zpos mx)
      by (rewrite Hq; apply Z.div_lt_upper_bound; lia).
    assert (Hq2 : 13 <= Zpos mx -> shr_m mrs < Zpos mx - 1)
      by (intros; rewrite Hq; apply Z.div_lt_upper_bound; lia).
    replace (ex + -53 + 53) with ex by lia.
    rewrite shr_fexp_fits.
    + cbn [shr_m]. apply round_result; lia.
    + assert (Zdigits2 m1 <= D) by (apply Zdigits2_le; lia).
      unfold fexp, emin, prec, emax. lia.
  - (* the product is cut by 52 bits: its exponent is one below *)
    destruct (shr_fexp_shift M (ex + -53) 52 ltac:(lia) Hn) as (mrs & -> & Hq).
    pose proof (round_nearest_even_bounds (shr_m mrs) (loc_of_shr_record mrs)) as Hm1.
    set (m1 := round_nearest_even (shr_m mrs) (loc_of_shr_record mrs)) in *.
    change (2 ^ 52) with 4503599627370496 in Hq.
    assert (HM105 : M < 2 ^ 105) by (rewrite <- Hd105; lia).
    change (2 ^ 105) with (4503599627370496 * 9007199254740992) in HM105.
    assert (H252 : 4503599627370496 <= Zpos mx).
    { rewrite HD53 in HD. change (2 ^ (53 - 1)) with 4503599627370496 in HD. lia. }
    assert (Hq0 : 0 <= shr_m mrs) by (rewrite Hq; apply Z.div_pos; lia).
    assert (Hq1 : shr_m mrs < 9007199254740992)
      by (rewrite Hq; apply Z.div_lt_upper_bound; lia).
    assert (Hq2 : shr_m mrs < 2 * Zpos mx - 2)
      by (rewrite Hq; apply Z.div_lt_upper_bound; lia).
    replace (ex + -53 + 52) with (ex - 1) by lia.
    destruct (Z.le_gt_cases (Zdigits2 m1) 53) as [Hfit | Hcarry].
    + rewrite shr_fexp_fits by (unfold fexp, emin, prec, emax; lia).
      cbn [shr_m]. apply round_result; lia.
    + assert (Hm54 : Zdigits2 m1 <= 54)
        by (apply Zdigits2_le; [change (2 ^ 54) with 18014398509481984 |]; lia).
      destruct (shr_fexp_shift m1 (ex - 1) 1 ltac:(lia)) as (mrs2 & -> & Hq').
      { unfold fexp, emin, prec, emax. lia. }
      change (2 ^ 1) with 2 in Hq'.
      assert (0 <= shr_m mrs2) by (rewrite Hq'; apply Z.div_pos; lia).
      assert (shr_m mrs2 < Zpos mx)
        by (rewrite Hq'; apply Z.div_lt_upper_bound; lia).
      replace (ex - 1 + 1) with ex by lia.
      apply round_result; lia.
Qed.


Lemma mul_K_small_cases (s : bool) (mx : positive) :
  7 <= Zpos mx <= 12 ->
  shrunk true (S754_finite s mx (-1074))
    (binary_round_aux prec emax s (Zpos (mx * mantissa)) (-1074 + -53) loc_Exact).
Proof.
  intros H.
  assert (C : (mx = 7 \/ mx = 8 \/ mx = 9 \/ mx = 10 \/ mx = 11 \/ mx = 12)%positive)
    by lia.
  destruct C as [-> | [-> | [-> | [-> | [-> | ->]]]]];
    match goal with
    | |- shrunk _ _ ?r => let v := eval vm_compute in r in change r with v
    end; cbn [shrunk]; lia.
Qed.

Lemma mul_K_shrinks (f : spec_float) :
  valid_binary f = true -> f <> S754_nan ->
  shrunk false f (SF64mul f K) /\
  (finite f -> ~ small f -> shrunk true f (SF64mul f K)).
Proof.
  intros Hv Hn. unfold SF64mul.
  destruct f as [s | s | | s mx ex]; cbn [SFmul K shrunk finite small].
  - split; [reflexivity | tauto].
  - split; [reflexivity | tauto].
  - congruence.
  - cbn [SpecFloat.valid_binary] in Hv. rewrite xorb_false_r.
    assert (Hex : ex = -1074 \/ 4503599627370496 <= Zpos mx).
    { unfold bounded, canonical_mantissa in Hv. apply andb_prop in Hv as [Hc _].
      apply Z.eqb_eq in Hc. unfold fexp, emin, prec, emax in Hc.
      pose proof (digits2_pos_bounds mx) as HD.
      destruct (Z.eq_dec (Zpos (digits2_pos mx)) 53) as [E |]; [| lia].
      rewrite E in HD. change (2 ^ (53 - 1)) with 4503599627370496 in HD. lia. }
    pose proof (round_mul_k s mx ex Hv) as R. cbv zeta in R.
    split.
    + destruct R as [-> | (m' & e' & -> & H)]; [exact I | lia].
    + intros _ Hsmall. destruct (Z.le_gt_cases 13 (Zpos mx)) as [Hbig | Hlow].
      * destruct R as [-> | (m' & e' & -> & H)]; [exact I | lia].
      * destruct Hex as [-> |]; [| lia]. apply mul_K_small_cases. lia.
Qed.

End RoundingFacts.

(* ================================================================== *)
(** * Facts on damping: the magnitudes of the damped numbers *)

Module DampingFacts.

Import FloatOrder FloatOrderFacts Damping RoundingFacts.
Local Open Scope Z_scope.

Lemma factor_spec : Prim2SF factor = K.
Proof. reflexivity. Qed.

Lemma mul_factor_spec (x : float) :
  Prim2SF (x * factor)%float = SF64mul (Prim2SF x) K.
Proof. now rewrite mul_spec, factor_spec. Qed.

(** The exponent and mantissa of a number. *)
Lemma valid_bounds (s : bool) (m : positive) (e : Z) :
  valid_binary (S754_finite s m e) = true ->
  -1074 <= e /\ Zpos m < 2 ^ 53.
Proof.
  cbn [SpecFloat.valid_binary]. unfold bounded, canonical_mantissa. intros H.
  apply andb_prop in H as [Hc _]. apply Z.eqb_eq in Hc.
  unfold fexp, emin, prec, emax in Hc.
  pose proof (digits2_pos_bounds m) as [_ Hhi].
  assert (Zpos (digits2_pos m) <= 53) by lia.
  assert (2 ^ Zpos (digits2_pos m) <= 2 ^ 53) by (apply Z.pow_le_mono_r; lia).
  lia.
Qed.

Lemma number_abs (f : spec_float) : number f -> number (SFabs f).
Proof. unfold number. destruct f; cbn; congruence. Qed.

Lemma finite_number (f : spec_float) : finite f -> number f.
Proof. unfold number. destruct f; cbn; congruence || tauto. Qed.

Lemma shrunk_number (strict : bool) (f g : spec_float) :
  shrunk strict f g -> number f /\ number g.
Proof.
  unfold number. destruct f, g; cbn [shrunk]; intros H; split;
    congruence || tauto.
Qed.

Lemma shrunk_finite (strict : bool) (f g : spec_float) :
  shrunk strict f g -> finite f -> finite g.
Proof. destruct f, g; cbn [shrunk finite]; tauto. Qed.

Lemma shrunk_key (f g : spec_float) :
  shrunk false f g -> lexle (key (SFabs g)) (key (SFabs f)).
Proof.
  destruct f as [| | | s m e], g as [| | | s' m' e'];
    cbn [shrunk SFabs key lexle]; lia.
Qed.

Lemma shrunk_strict_key (f g : spec_float) :
  shrunk true f g -> lexlt (key (SFabs g)) (key (SFabs f)).
Proof.
  destruct f as [| | | s m e], g as [| | | s' m' e'];
    cbn [shrunk SFabs key lexlt]; try lia; discriminate.
Qed.

Local Open Scope float_scope.

Lemma is_nan_abs (x : float) : is_nan x = false -> is_nan (abs x) = false.
Proof. rewrite !is_nan_number, abs_spec. apply number_abs. Qed.

(** A finite number, as JavaScript tests it. *)
Lemma finite_spec (x : float) :
  (abs x <? infinity) = true <-> finite (Prim2SF x).
Proof.
  rewrite ltb_key, abs_spec.
  change (Prim2SF infinity) with (S754_infinity false).
  rewrite is_nan_number, abs_spec.
  destruct (Prim2SF x) as [| [] | | s m e];
    cbn [SFabs key lexlt finite]; unfold number;
    intuition (try congruence; try lia).
Qed.

Lemma small_spec (x : float) :
  (abs x <=? tiny) = true <-> small (Prim2SF x).
Proof.
  rewrite leb_key, is_nan_number, abs_spec.
  change (Prim2SF tiny) with (S754_finite false 6 (-1074)).
  pose proof (Prim2SF_valid x) as Hv.
  destruct (Prim2SF x) as [| [] | | s m e];
    cbn [SFabs key lexle small]; unfold number;
    try (intuition (try congruence; try lia); fail).
  destruct (valid_bounds s m e Hv) as [He _].
  intuition (try congruence; try lia).
Qed.

(** ** One multiplication by the factor *)

Lemma mul_factor_shrinks (x : float) :
  is_nan x = false ->
  shrunk false (Prim2SF x) (Prim2SF (x * factor)) /\
  ((abs x <? infinity) = true -> (abs x <=? tiny) = false ->
   shrunk true (Prim2SF x) (Prim2SF (x * factor))).
Proof.
  intros Hx. rewrite mul_factor_spec.
  destruct (mul_K_shrinks (Prim2SF x) (Prim2SF_valid x)
              (proj1 (is_nan_number x) Hx)) as [H1 H2].
  split; [exact H1 |]. intros Hfin Hbig. apply H2.
  - now apply finite_spec.
  - intros Hs. apply small_spec in Hs. congruence.
Qed.

(** The magnitude of a number never grows under damping. *)
Lemma damping_never_increases (x : float) :
  is_nan x = false -> (abs (x * factor) <=? abs x) = true.
Proof.
  intros Hx. destruct (mul_factor_shrinks x Hx) as [H _].
  destruct (shrunk_number _ _ _ H) as [_ Hy].
  destruct (shrunk_number _ _ _ H) as [Hnx _].
  rewrite leb_key, !is_nan_number, !abs_spec.
  auto using number_abs, shrunk_key.
Qed.

(** The magnitude of a finite number above [tiny] shrinks under damping. *)
Lemma damping_decreases (x : float) :
  (abs x <? infinity) = true -> (abs x <=? tiny) = false ->
  (abs (x * factor) <? abs x) = true.
Proof.
  intros Hfin Hbig.
  assert (Hx : is_nan x = false)
    by (apply is_nan_number, finite_number, finite_spec, Hfin).
  destruct (mul_factor_shrinks x Hx) as [_ H]. specialize (H Hfin Hbig).
  destruct (shrunk_number _ _ _ H) as [Hnx Hy].
  rewrite ltb_key, !is_nan_number, !abs_spec.
  auto using number_abs, shrunk_strict_key.
Qed.

Lemma damping_keeps_finite (x : float) :
  (abs x <? infinity) = true -> (abs (x * factor) <? infinity) = true.
Proof.
  intros Hfin.
  assert (Hx : is_nan x = false)
    by (apply is_nan_number, finite_number, finite_spec, Hfin).
  destruct (mul_factor_shrinks x Hx) as [H _].
  apply finite_spec. apply finite_spec in Hfin.
  eauto using shrunk_finite.
Qed.

(** ** Repeated damping *)

Lemma decay_succ (n : nat) (x : float) :
  decay (S n) x = decay n x * factor.
Proof. reflexivity. Qed.

Lemma decay_succ_r (n : nat) (x : float) :
  decay (S n) x = decay n (x * factor).
Proof. unfold decay. now rewrite Nat.iter_succ_r. Qed.

Lemma decay_finite (n : nat) (x : float) :
  (abs x <? infinity) = true -> (abs (decay n x) <? infinity) = true.
Proof.
  intros H. induction n as [| n IH]; [exact H |].
  rewrite decay_succ. now apply damping_keeps_finite.
Qed.

Lemma finite_is_number (x : float) :
  (abs x <? infinity) = true -> is_nan x = false.
Proof. intros H. apply is_nan_number, finite_number, finite_spec, H. Qed.

(** Once at most [tiny], always at most [tiny]. *)
Lemma decay_stays_tiny (n : nat) (x : float) :
  (abs x <=? tiny) = true -> (abs (decay n x) <=? tiny) = true.
Proof.
  intros H. induction n as [| n IH]; [exact H |].
  rewrite decay_succ.
  eapply leb_trans; [| exact IH].
  apply damping_never_increases.
  destruct (leb_number _ _ IH) as [Ha _].
  rewrite is_nan_number in Ha |- *. rewrite abs_spec in Ha.
  unfold number in *. destruct (Prim2SF (decay n x)); cbn in *; congruence.
Qed.

(** The rank of a finite number above [tiny] drops under damping. *)
Lemma damping_rank (x : float) :
  (abs x <? infinity) = true -> (abs x <=? tiny) = false ->
  (0 <= rank (Prim2SF (x * factor)) < rank (Prim2SF x))%Z.
Proof.
  intros Hfin Hbig.
  destruct (mul_factor_shrinks x (finite_is_number x Hfin)) as [_ H].
  specialize (H Hfin Hbig).
  pose proof (Prim2SF_valid x) as Hvx.
  pose proof (Prim2SF_valid (x * factor)) as Hvy.
  destruct (Prim2SF x) as [| | | s m e], (Prim2SF (x * factor)) as [| | | s' m' e'];
    cbn [shrunk] in H; try contradiction; try discriminate.
  - destruct (valid_bounds _ _ _ Hvx) as [He Hm]. cbn [rank].
    change (2 ^ 53)%Z with 9007199254740992%Z in *. lia.
  - destruct (valid_bounds _ _ _ Hvx) as [He Hm].
    destruct (valid_bounds _ _ _ Hvy) as [He' Hm']. cbn [rank].
    change (2 ^ 53)%Z with 9007199254740992%Z in *. lia.
Qed.

(** A finite number is at most [tiny] after finitely many dampings. *)
Lemma decay_reaches_tiny (x : float) :
  (abs x <? infinity) = true ->
  exists N : nat, (abs (decay N x) <=? tiny) = true.
Proof.
  remember (Z.to_nat (rank (Prim2SF x))) as r eqn:Hr.
  revert x Hr. induction r as [r IH] using lt_wf_ind. intros x Hr Hfin.
  destruct (abs x <=? tiny) eqn:Hbig; [now exists 0%nat |].
  destruct (damping_rank x Hfin Hbig) as [H0 H1].
  destruct (IH (Z.to_nat (rank (Prim2SF (x * factor)))) ltac:(lia)
              (x * factor) eq_refl (damping_keeps_finite x Hfin)) as [N HN].
  exists (S N). now rewrite decay_succ_r.
Qed.

(** Repeated damping of a finite number: its magnitude never grows, shrinks
    while above [tiny], and is at most [tiny] from some point on. *)
Lemma decay_converges (x : float) :
  (abs x <? infinity) = true ->
  (forall n : nat,
     (abs (decay (S n) x) <=? abs (decay n x)) = true /\
     ((abs (decay n x) <=? tiny) = false ->
      (abs (decay (S n) x) <? abs (decay n x)) = true)) /\
  (exists N : nat, forall n : nat, (N <= n)%nat ->
     (abs (decay n x) <=? tiny) = true).
Proof.
  intros Hfin. split.
  - intros n. rewrite decay_succ.
    pose proof (decay_finite n x Hfin) as Hn. split.
    + apply damping_never_increases, finite_is_number, Hn.
    + now apply damping_decreases.
  - destruct (decay_reaches_tiny x Hfin) as [N HN]. exists N.
    intros n Hle. replace n with ((n - N) + N)%nat by lia.
    unfold decay in *. rewrite Nat.iter_add.
    now apply decay_stays_tiny.
Qed.

End DampingFacts.

(* ================================================================== *)
(** * Facts on the loader *)

Module OBJLoaderFacts.

Import JS OBJLoader Mesh.

(** ** The scan *)

Lemma startsWith_vt (line : string) :
  startsWith line "vt "%string = true ->
  startsWith line "v "%string = false /\ startsWith line "vn "%string = false.
Proof.
  destruct line as [| c1 [| c2 line]]; cbn [startsWith]; try discriminate.
  - now rewrite andb_false_r.
  - destruct (Ascii.eqb "v"%char c1); [| discriminate].
    destruct (Ascii.eqb_spec "t"%char c2) as [<- |]; [| discriminate].
    intros _. split; reflexivity.
Qed.

Lemma startsWith_vn (line : string) :
  startsWith line "vn "%string = true -> startsWith line "v "%string = false.
Proof.
  destruct line as [| c1 [| c2 line]]; cbn [startsWith]; try discriminate.
  - now rewrite andb_false_r.
  - destruct (Ascii.eqb "v"%char c1); [| discriminate].
    destruct (Ascii.eqb_spec "n"%char c2) as [<- |]; [| discriminate].
    reflexivity.
Qed.

Lemma startsWith_f (line : string) :
  startsWith line "f "%string = true ->
  startsWith line "v "%string = false /\ startsWith line "vn "%string = false /\
  startsWith line "vt "%string = false.
Proof.
  destruct line as [| c1 line]; cbn [startsWith]; try discriminate.
  destruct (Ascii.eqb_spec "f"%char c1) as [<- |]; [| discriminate].
  intros _. repeat split.
Qed.

(** What a line adds to each pool. *)
Lemma scanLine_vertices (p : Pools) (line : string) :
  vertices (scanLine p line) = vertices p ++ vCoordinates line.
Proof.
  unfold scanLine, vCoordinates.
  destruct (startsWith (trim line) "v "); [reflexivity |].
  repeat match goal with
         | |- context [if ?b then _ else _] => destruct b
         end; cbn [vertices]; symmetry; apply app_nil_r.
Qed.

Lemma scanLine_normals (p : Pools) (line : string) :
  exists added, normals (scanLine p line) = normals p ++ added /\
    (added = [] \/ List.length added = 3%nat).
Proof.
  unfold scanLine.
  repeat match goal with
         | |- context [if ?b then _ else _] => destruct b
         end; cbn [normals];
    (eexists; split; [reflexivity | auto]) ||
    (exists []; split; [symmetry; apply app_nil_r | auto]).
Qed.

Lemma scanLine_uvs (p : Pools) (line : string) :
  uvs (scanLine p line) = uvs p ++ flat_map flipV (vtRecord line).
Proof.
  unfold scanLine, vtRecord.
  destruct (startsWith (trim line) "vt ") eqn:Evt.
  - destruct (startsWith_vt _ Evt) as [-> ->]. reflexivity.
  - repeat match goal with
           | |- context [if ?b then _ else _] => destruct b
           end; cbn [uvs flat_map]; symmetry; apply app_nil_r.
Qed.

Lemma scanLine_faces (p : Pools) (line : string) :
  faces (scanLine p line) = faces p ++ faceRecord line.
Proof.
  unfold scanLine, faceRecord.
  destruct (startsWith (trim line) "f ") eqn:Ef.
  - destruct (startsWith_f _ Ef) as (-> & -> & ->). reflexivity.
  - repeat match goal with
           | |- context [if ?b then _ else _] => destruct b
           end; cbn [faces]; symmetry; apply app_nil_r.
Qed.

Section Folded.

Variable lines : list string.

Lemma fold_scanLine_vertices (p : Pools) :
  vertices (fold_left scanLine lines p)
  = vertices p ++ flat_map vCoordinates lines.
Proof.
  revert p. induction lines as [| line rest IH]; intros p; cbn [fold_left flat_map].
  - symmetry. apply app_nil_r.
  - rewrite IH, scanLine_vertices, app_assoc. reflexivity.
Qed.

(** Only the [v] lines have coordinates, three each. *)
Lemma v_lines_coordinates :
  flat_map vCoordinates lines
  = flat_map vCoordinates
      (filter (fun line => startsWith (trim line) "v ") lines) /\
  List.length (flat_map vCoordinates lines)
  = (3 * List.length (filter (fun line => startsWith (trim line) "v ") lines))%nat.
Proof.
  induction lines as [| line rest [IH1 IH2]]; [split; reflexivity |].
  cbn [filter flat_map]. rewrite length_app, IH2.
  assert (Hline : if startsWith (trim line) "v "
                  then List.length (vCoordinates line) = 3%nat
                  else vCoordinates line = []).
  { unfold vCoordinates. now destruct (startsWith (trim line) "v "). }
  destruct (startsWith (trim line) "v ").
  - cbn [flat_map List.length]. rewrite <- IH1, Hline.
    split; [reflexivity | lia].
  - rewrite Hline. split; [exact IH1 | reflexivity].
Qed.

Lemma fold_scanLine_normals (p : Pools) :
  (exists k, List.length (normals p) = 3 * k)%nat ->
  (exists k, List.length (normals (fold_left scanLine lines p)) = 3 * k)%nat.
Proof.
  revert p. induction lines as [| line rest IH]; intros p [k Hk]; cbn.
  - now exists k.
  - apply IH.
    destruct (scanLine_normals p line) as (added & -> & [-> | H]);
      rewrite length_app.
    + exists k. cbn. lia.
    + exists (S k). lia.
Qed.

Lemma fold_scanLine_uvs (p : Pools) :
  uvs (fold_left scanLine lines p)
  = uvs p ++ flat_map flipV (flat_map vtRecord lines).
Proof.
  revert p. induction lines as [| line rest IH]; intros p; cbn [fold_left flat_map].
  - symmetry. apply app_nil_r.
  - rewrite IH, scanLine_uvs, flat_map_app, app_assoc. reflexivity.
Qed.

Lemma fold_scanLine_faces (p : Pools) :
  faces (fold_left scanLine lines p) = faces p ++ flat_map faceRecord lines.
Proof.
  revert p. induction lines as [| line rest IH]; intros p; cbn [fold_left flat_map].
  - symmetry. apply app_nil_r.
  - rewrite IH, scanLine_faces, app_assoc. reflexivity.
Qed.


End Folded.

(** The vertex pool is the coordinates of the source vertices. *)
Lemma scan_vertices (text : string) :
  vertices (scan text) = sourceVertices text.
Proof.
  unfold scan, sourceVertices, vLines. rewrite fold_scanLine_vertices.
  apply v_lines_coordinates.
Qed.

(** The pools hold whole records: three numbers a vertex or normal, two a
    texture coordinate. *)
Lemma scan_vertices_count (text : string) :
  List.length (vertices (scan text)) = (3 * List.length (vLines text))%nat.
Proof.
  unfold scan, vLines. rewrite fold_scanLine_vertices.
  apply v_lines_coordinates.
Qed.

Lemma scan_vertices_length (text : string) :
  (exists k, List.length (vertices (scan text)) = 3 * k)%nat.
Proof. eexists. apply scan_vertices_count. Qed.

Lemma scan_normals_length (text : string) :
  (exists k, List.length (normals (scan text)) = 3 * k)%nat.
Proof. apply fold_scanLine_normals. now exists 0%nat. Qed.

Lemma scan_uvs (text : string) :
  uvs (scan text) = flat_map flipV (vtRecords text).
Proof. unfold scan, vtRecords. now rewrite fold_scanLine_uvs. Qed.

Lemma corners_of_lines (text : string) :
  corners text = flat_map faceRecord (split "010" text).
Proof. unfold corners, scan. now rewrite fold_scanLine_faces. Qed.


Lemma flat_map_flipV_length (records : list (float * float)) :
  List.length (flat_map flipV records) = (2 * List.length records)%nat.
Proof. induction records as [| r rest IH]; cbn in *; lia. Qed.

Local Open Scope Z_scope.

(** Every read of the second loop falls inside its pool: the guard admits the
    start of a record, and the pool holds whole records. *)
Lemma element_in_pool (pool : list float) (stride n j : Z) (k : nat) :
  Z.of_nat (List.length pool) = stride * Z.of_nat k ->
  0 <= (n - 1) * stride < Z.of_nat (List.length pool) ->
  0 <= j < stride ->
  (Z.to_nat ((n - 1) * stride + j) < List.length pool)%nat.
Proof.
  intros H1 H2 H3. apply Nat2Z.inj_lt.
  rewrite Z2Nat.id by lia.
  assert (n - 1 < Z.of_nat k) by nia. nia.
Qed.

(** ** The position buffer *)

(** The guard of line 304 says that the 1-based index resolves. *)
Lemma position_guard (p : Pools) (n : Z) :
  (exists k, List.length (vertices p) = 3 * k)%nat ->
  (0 <=? (n - 1) * 3) && ((n - 1) * 3 <? Z.of_nat (List.length (vertices p)))
  = (1 <=? n) && (n <=? vertexCount p).
Proof.
  intros [k Hk]. unfold vertexCount. rewrite Hk.
  replace (Z.of_nat (3 * k)) with (Z.of_nat k * 3) by lia.
  rewrite Z.div_mul by lia.
  destruct (Z.leb_spec 0 ((n - 1) * 3)), (Z.ltb_spec ((n - 1) * 3) (Z.of_nat k * 3)),
    (Z.leb_spec 1 n), (Z.leb_spec n (Z.of_nat k)); cbn; lia || reflexivity.
Qed.

Lemma resolveCorner_positions (p : Pools) (b : Buffers) (corner : string) :
  (exists k, List.length (vertices p) = 3 * k)%nat ->
  positions (resolveCorner p b corner) = positions b ++ cornerPosition p corner.
Proof.
  intros Hp. unfold resolveCorner, cornerPosition, positionIndex.
  cbn [positions].
  destruct (parseInt _) as [n |]; [| symmetry; apply app_nil_r].
  rewrite (position_guard p n Hp).
  destruct ((1 <=? n) && (n <=? vertexCount p)); [reflexivity |].
  symmetry; apply app_nil_r.
Qed.

Lemma cornerPosition_length (p : Pools) (corner : string) :
  List.length (cornerPosition p corner)
  = if resolves p corner then 3%nat else 0%nat.
Proof.
  unfold cornerPosition, resolves.
  destruct (positionIndex corner) as [n |]; [| reflexivity].
  now destruct ((1 <=? n) && (n <=? vertexCount p)).
Qed.

Lemma flat_map_cornerPosition_length (p : Pools) (cs : list string) :
  List.length (flat_map (cornerPosition p) cs)
  = (3 * List.length (filter (resolves p) cs))%nat.
Proof.
  induction cs as [| c cs IH]; [reflexivity |].
  cbn [flat_map filter]. rewrite length_app, cornerPosition_length, IH.
  destruct (resolves p c); cbn [List.length]; lia.
Qed.

Lemma filter_partition_length (f : string -> bool) (cs : list string) :
  (List.length (filter f cs) + List.length (filter (fun c => negb (f c)) cs)
   = List.length cs)%nat.
Proof.
  induction cs as [| c cs IH]; [reflexivity |].
  cbn [filter]. destruct (f c); cbn [negb List.length]; lia.
Qed.

Lemma filter_all (f : string -> bool) (cs : list string) :
  forallb f cs = true -> filter f cs = cs.
Proof.
  induction cs as [| c cs IH]; [reflexivity |].
  cbn. destruct (f c); [| discriminate]. cbn. intros H. now rewrite IH.
Qed.

(** The second loop on whole triples of corners. *)
Lemma resolveFaces_triples (p : Pools) (k : nat) :
  (exists m, List.length (vertices p) = 3 * m)%nat ->
  forall (cs : list string) (b : Buffers),
  List.length cs = (3 * k)%nat ->
  exists b', resolveFaces p cs b = Return b' /\
    positions b' = positions b ++ flat_map (cornerPosition p) cs.
Proof.
  intros Hp. induction k as [| k IH]; intros cs b Hlen.
  - destruct cs; [| discriminate]. exists b. split; [reflexivity |].
    symmetry; apply app_nil_r.
  - destruct cs as [| c0 [| c1 [| c2 rest]]]; try (cbn in Hlen; lia).
    cbn [resolveFaces].
    destruct (IH rest (resolveCorner p (resolveCorner p (resolveCorner p b c0) c1) c2))
      as (b' & Hb' & Hpos); [cbn in Hlen; lia |].
    exists b'. split; [exact Hb' |].
    rewrite Hpos, !resolveCorner_positions by exact Hp.
    cbn [flat_map]. now rewrite <- !app_assoc.
Qed.

(** The second loop on a number of corners that is not a multiple of 3. *)
Lemma resolveFaces_incomplete (p : Pools) (k : nat) :
  forall (cs : list string) (b : Buffers),
  (List.length cs = 3 * k + 1 \/ List.length cs = 3 * k + 2)%nat ->
  resolveFaces p cs b = Throw TypeError.
Proof.
  induction k as [| k IH]; intros cs b Hlen.
  - destruct cs as [| c0 [| c1 [| c2 rest]]]; cbn in Hlen; try lia; reflexivity.
  - destruct cs as [| c0 [| c1 [| c2 rest]]]; cbn in Hlen; try lia.
    cbn [resolveFaces]. apply IH. lia.
Qed.

Lemma triangulated_length (text : string) :
  triangulated text ->
  List.length (corners text) = (3 * faceTriangleCount text)%nat.
Proof.
  unfold triangulated, faceTriangleCount. intros H.
  pose proof (Nat.div_mod_eq (List.length (corners text)) 3). lia.
Qed.

Lemma not_triangulated_length (text : string) :
  ~ triangulated text ->
  (List.length (corners text) = 3 * faceTriangleCount text + 1 \/
   List.length (corners text) = 3 * faceTriangleCount text + 2)%nat.
Proof.
  unfold triangulated, faceTriangleCount. intros H.
  pose proof (Nat.div_mod_eq (List.length (corners text)) 3).
  pose proof (Nat.mod_upper_bound (List.length (corners text)) 3). lia.
Qed.

(** [parse] on a triangulated text returns, with the position buffer made of
    what each corner contributes, in order. *)
Lemma parse_triangulated (text : string) :
  triangulated text ->
  exists object, parse text = Return object /\
    position object = flat_map (cornerPosition (scan text)) (corners text).
Proof.
  intros H. unfold parse.
  destruct (resolveFaces_triples (scan text) (faceTriangleCount text)
              (scan_vertices_length text) (faces (scan text)) emptyBuffers
              (triangulated_length text H)) as (b & -> & Hpos).
  eexists. split; [reflexivity |]. exact Hpos.
Qed.

(** [parse] throws on any other text. *)
Lemma parse_not_triangulated (text : string) :
  ~ triangulated text -> parse text = Throw TypeError.
Proof.
  intros H. unfold parse.
  now rewrite (resolveFaces_incomplete (scan text) (faceTriangleCount text)
                 (faces (scan text)) emptyBuffers (not_triangulated_length text H)).
Qed.

(** ** The texture-coordinate buffer *)




Local Open Scope nat_scope.

(* ------------------------------------------------------------------ *)
(** ** The claims on the loader *)



(** C2.  In a mesh text whose faces are triangles, a face corner whose
    position index does not resolve into the vertex pool (index 99 with three
    vertices, say) is dropped and nothing else happens: [parse] returns, the
    position buffer holds the coordinates of every other corner, in order,
    and when exactly one corner is dropped its length is not a multiple
    of 9 (it is 6 modulo 9). *)
Theorem out_of_range_corner_is_dropped (text : string) :
  triangulated text ->
  exists object, parse text = Return object /\
    (forall corner, resolves (scan text) corner = false ->
                    cornerPosition (scan text) corner = []) /\
    position object = flat_map (cornerPosition (scan text)) (corners text) /\
    List.length (position object) = 3 * resolvedCount text /\
    (droppedCount text = 1 -> List.length (position object) mod 9 = 6).
Proof.
  intros Htri.
  destruct (parse_triangulated text Htri) as (object & Hparse & Hpos).
  exists object. split; [exact Hparse |].
  assert (Hlen : List.length (position object) = 3 * resolvedCount text)
    by (rewrite Hpos; apply flat_map_cornerPosition_length).
  repeat split; auto.
  - intros corner H. unfold cornerPosition, resolves in *.
    destruct (positionIndex corner); [| reflexivity]. now rewrite H.
  - intros Hone. rewrite Hlen.
    pose proof (filter_partition_length (resolves (scan text)) (corners text)) as Hsum.
    fold (resolvedCount text) (droppedCount text) in Hsum.
    rewrite (triangulated_length text Htri) in Hsum.
    replace (3 * resolvedCount text) with (6 + (faceTriangleCount text - 1) * 9) by lia.
    rewrite Nat.Div0.mod_add. reflexivity.
Qed.

(** The scenario of C2: three vertices and the face [f 1 2 99]. *)
Lemma out_of_range_corner_is_dropped_witness :
  triangulated danglingCorner /\
  droppedCount danglingCorner = 1 /\
  (exists object, parse danglingCorner = Return object /\
     List.length (position object) mod 9 = 6) /\
  parse danglingCorner
  = Return {| position := [0; 0; 0; 1; 0; 0]%float;
              normal := ComputedVertexNormals; uv := None;
              material := defaultMaterial |}.
Proof.
  split; [reflexivity |]. split; [reflexivity |]. split; [| reflexivity].
  destruct (out_of_range_corner_is_dropped danglingCorner eq_refl)
    as (object & Hparse & _ & _ & _ & Hmod).
  exists object. split; [exact Hparse | apply Hmod; reflexivity].
Defined.



(** C10.  A face corner whose position index parses to an integer n ≤ 0 (the
    index 0, or a negative index, which the OBJ format reads from the end of
    the pool) adds nothing to the position buffer: the step that resolves it
    leaves the buffer as it was and returns as for any other corner, and the
    position buffer of a triangulated text is what the corners before and
    after it contribute. *)
Theorem nonpositive_index_appends_nothing (corner : string) (n : Z) :
  positionIndex corner = Some n -> (n <= 0)%Z ->
  (forall (p : Pools) (b : Buffers),
     positions (resolveCorner p b corner) = positions b) /\
  (forall (text : string) (before after : list string),
     triangulated text ->
     corners text = before ++ corner :: after ->
     exists object, parse text = Return object /\
       position object
       = flat_map (cornerPosition (scan text)) (before ++ after)).
Proof.
  intros Hn Hle. split.
  - intros p b. unfold resolveCorner. cbn [positions].
    fold (positionIndex corner). rewrite Hn.
    destruct (Z.leb_spec 0 ((n - 1) * 3)); [lia | reflexivity].
  - intros text before after Htri Hc.
    destruct (parse_triangulated text Htri) as (object & Hparse & Hpos).
    exists object. split; [exact Hparse |].
    rewrite Hpos, Hc, !flat_map_app. cbn [flat_map].
    unfold cornerPosition at 2. rewrite Hn.
    destruct (Z.leb_spec 1 n); [lia | reflexivity].
Qed.

(** C10 on the corners [-1] and [0/2/3] of a pool of three vertices, and on
    a text whose face has the corner [-1]. *)
Lemma nonpositive_index_appends_nothing_witness :
  positionIndex "-1" = Some (-1)%Z /\
  positionIndex "0/2/3" = Some 0%Z /\
  positions (resolveCorner (scan danglingCorner) emptyBuffers "-1") = [] /\
  positions (resolveCorner (scan danglingCorner) emptyBuffers "0/2/3") = [] /\
  corners relativeCorner = ["1"; "2"; "-1"]%string /\
  parse relativeCorner
  = Return {| position := [0; 0; 0; 1; 0; 0]%float;
              normal := ComputedVertexNormals; uv := None;
              material := defaultMaterial |}.
Proof.
  split; [reflexivity |]. split; [reflexivity |].
  pose proof (nonpositive_index_appends_nothing "-1" (-1) eq_refl
                ltac:(discriminate)) as [Hminus _].
  pose proof (nonpositive_index_appends_nothing "0/2/3" 0 eq_refl
                ltac:(discriminate)) as [Hzero _].
  split; [apply Hminus |]. split; [apply Hzero |]. split; reflexivity.
Defined.

(** C4, as the code has it.  A malformed numeric token does not fail the
    load.  A [v], [vn] or [vt] line stores what [parseFloat] makes of its
    tokens, NaN for a malformed one, and a corner whose position index is no
    number leaves the position buffer as it was.  Whatever the numeric tokens
    of its records, a mesh text whose face corners come in triples is parsed
    to a mesh, which [load] hands to the completion callback without calling
    the error callback.  The error callback is called, and no mesh delivered,
    when the number of face corners is not a multiple of 3 (the second loop
    then reads a corner that is not there), when the status is not 200 and
    when the request fails. *)
Theorem malformed_numbers_do_not_fail_the_load :
  (forall (p : Pools) (line : string),
     let parts := splitWhiteSpace (trim line) in
     (startsWith (trim line) "v " = true ->
      vertices (scanLine p line)
      = vertices p ++ map parseFloat [part parts 1; part parts 2; part parts 3]) /\
     (startsWith (trim line) "vn " = true ->
      normals (scanLine p line)
      = normals p ++ map parseFloat [part parts 1; part parts 2; part parts 3]) /\
     (startsWith (trim line) "vt " = true ->
      uvs (scanLine p line)
      = uvs p ++ [parseFloat (part parts 1); (1.0 - parseFloat (part parts 2))%float]))
  /\
  (forall (p : Pools) (b : Buffers) (corner : string),
     positionIndex corner = None ->
     positions (resolveCorner p b corner) = positions b)
  /\
  (forall (hasOnError : bool) (text : string),
     (triangulated text ->
      exists object, parse text = Return object /\
        load hasOnError (Loaded 200 text) = [onLoad object])
     /\
     (~ triangulated text ->
      parse text = Throw TypeError /\
      load hasOnError (Loaded 200 text) = reportError hasOnError TypeError)
     /\
     (forall status : Z, (status =? 200)%Z = false ->
      load hasOnError (Loaded status text)
      = reportError hasOnError (Error "Failed to load"))
     /\
     load hasOnError Failed = reportError hasOnError ProgressEvent).
Proof.
  split; [| split].
  - intros p line parts. unfold scanLine. fold parts. repeat split; intros H.
    + now rewrite H.
    + now rewrite (startsWith_vn _ H), H.
    + destruct (startsWith_vt _ H) as [-> ->]. now rewrite H.
  - intros p b corner H. unfold resolveCorner. cbn [positions].
    fold (positionIndex corner). now rewrite H.
  - intros hasOnError text. repeat split.
    + intros Htri.
      destruct (parse_triangulated text Htri) as (object & Hparse & _).
      exists object. split; [exact Hparse |].
      cbn [load Z.eqb Pos.eqb]. now rewrite Hparse.
    + now apply parse_not_triangulated.
    + cbn [load Z.eqb Pos.eqb]. now rewrite (parse_not_triangulated text).
    + intros status H. cbn [load]. now rewrite H.
Qed.

(** C4 as the code has it, on a text with malformed tokens and on a face of
    four corners. *)
Lemma malformed_numbers_do_not_fail_the_load_witness :
  vertices (scanLine emptyPools "v abc 0 0") = [nan; 0; 0]%float /\
  positionIndex "z" = None /\
  triangulated malformedTokens /\
  (exists object, parse malformedTokens = Return object /\
     load true (Loaded 200 malformedTokens) = [onLoad object]) /\
  load true (Loaded 200 quad) = [onError TypeError].
Proof.
  destruct malformed_numbers_do_not_fail_the_load as (Hscan & _ & Hload).
  split; [apply (proj1 (Hscan emptyPools "v abc 0 0"%string)); reflexivity |].
  split; [reflexivity |]. split; [reflexivity |]. split.
  - apply (proj1 (Hload true malformedTokens)). reflexivity.
  - apply (proj1 (proj2 (Hload true quad))). discriminate.
Defined.

(** C4 as the specification states it fails: the tokens [abc], [x] and [z]
    are no numbers, and the load delivers a mesh, with NaN where they stood
    and without the corner [z], and makes no call of the error callback. *)
Lemma malformed_tokens_load_counterexample :
  parseFloat "abc" = nan /\ parseFloat "x" = nan /\ parseInt "z" = None /\
  load true (Loaded 200 malformedTokens)
  = [onLoad {| position := [nan; 0; 0; 1; 0; 0; 0; 1; 0;
                            nan; 0; 0; 1; 0; 0]%float;
               normal := ComputedVertexNormals;
               uv := Some [0.5; nan]%float;
               material := defaultMaterial |}].
Proof. repeat split. Qed.

End OBJLoaderFacts.

(* ================================================================== *)
(** * Facts on the controller *)

Module OrbitControlsFacts.

Import OrbitControls Orbit FloatOrderFacts.
Local Open Scope float_scope.

(** The components of a pending delta damped [n] times by the factor the
    viewer sets. *)
Lemma damped_components (n : nat) (d : Spherical.t) :
  Spherical.theta (damped n Damping.factor d) = Damping.decay n (Spherical.theta d) /\
  Spherical.phi (damped n Damping.factor d) = Damping.decay n (Spherical.phi d).
Proof.
  induction n as [| n [IHt IHp]]; [split; reflexivity |].
  cbn [damped Spherical.theta Spherical.phi].
  rewrite IHt, IHp. split; reflexivity.
Qed.


Section WithRuntime.

Variable rt : Runtime.t.

(** ** What [update] leaves and what it computes *)

Lemma update_settings (c : t) : settings (update rt c) = settings c.
Proof. unfold update, autoRotated. now destruct (_ && _). Qed.

Lemma update_state (c : t) : state (update rt c) = state c.
Proof. unfold update, autoRotated. now destruct (_ && _). Qed.



Lemma update_radius (c : t) :
  Spherical.radius (spherical (update rt c))
  = Math.max (minDistance (settings c))
      (Math.min (maxDistance (settings c))
         (Spherical.radius (readSpherical rt c) * scale c)).
Proof. unfold update, autoRotated. now destruct (_ && _). Qed.

Lemma update_sphericalDelta (c : t) :
  enableDamping (settings c) = true ->
  sphericalDelta (update rt c)
  = damped 1 (1 - dampingFactor (settings c)) (sphericalDelta (autoRotated c)).
Proof.
  intros H. unfold update.
  replace (settings (autoRotated c)) with (settings c)
    by (unfold autoRotated; now destruct (_ && _)).
  cbn [sphericalDelta]. now rewrite H.
Qed.

(** ** The settings through the inputs *)



Lemma iter_update_settings (n : nat) (c : t) :
  settings (Nat.iter n (update rt) c) = settings c.
Proof.
  induction n as [| n IH]; [reflexivity |].
  rewrite Nat.iter_succ. now rewrite update_settings.
Qed.

Lemma iter_update_state (n : nat) (c : t) :
  state (Nat.iter n (update rt) c) = state c.
Proof.
  induction n as [| n IH]; [reflexivity |].
  rewrite Nat.iter_succ. now rewrite update_state.
Qed.

(* ------------------------------------------------------------------ *)
(** ** The claims on the controller *)

(** C5, as the code has it.  A wheel event with a negative [deltaY]
    multiplies the zoom scale by the dolly factor 0.95 and one with a positive
    [deltaY] divides it by 0.95, before [update] applies the scale to the
    radius and resets it: after the handler the radius is the camera's
    distance times that scale, kept within the distance limits. *)
Theorem wheel_scales_zoom (event : WheelEvent) (c : t) :
  ((deltaY event <? 0) = true ->
   dolly event c = set_scale (scale c * 0.95) c /\
   handleMouseWheel rt event c = update rt (set_scale (scale c * 0.95) c) /\
   Spherical.radius (spherical (handleMouseWheel rt event c))
   = Math.max (minDistance (settings c))
       (Math.min (maxDistance (settings c))
          (Spherical.radius (readSpherical rt c) * (scale c * 0.95))))
  /\
  ((0 <? deltaY event) = true ->
   dolly event c = set_scale (scale c / 0.95) c /\
   handleMouseWheel rt event c = update rt (set_scale (scale c / 0.95) c) /\
   Spherical.radius (spherical (handleMouseWheel rt event c))
   = Math.max (minDistance (settings c))
       (Math.min (maxDistance (settings c))
          (Spherical.radius (readSpherical rt c) * (scale c / 0.95)))).
Proof.
  split; intros H.
  - assert (E : dolly event c = set_scale (scale c * 0.95) c)
      by (unfold dolly; now rewrite H).
    unfold handleMouseWheel. rewrite E, update_radius. repeat split.
  - assert (E : dolly event c = set_scale (scale c / 0.95) c)
      by (unfold dolly; now rewrite (ltb_asym _ _ H), H).
    unfold handleMouseWheel. rewrite E, update_radius. repeat split.
Qed.

(** C6, as the code has it.  A pointer move in the ROTATE state halves the
    pixel delta since the last sampled position, subtracts
    [2π · (dx · 0.5) / clientHeight] from the azimuthal pending delta and
    [2π · (dy · 0.5) / clientHeight] from the polar one, takes the pointer
    position as the new reference position, and calls [update]. *)
Theorem rotate_accumulates_half_the_pixel_delta (event : MouseEvent) (c : t) :
  enabled (settings c) = true -> state c = ROTATE ->
  let dx := clientX event - Vector2.x (rotateStart c) in
  let dy := clientY event - Vector2.y (rotateStart c) in
  Spherical.theta (sphericalDelta (accumulateRotate event c))
  = Spherical.theta (sphericalDelta c) - specifiedRotation (dx * 0.5) (clientHeight c) /\
  Spherical.phi (sphericalDelta (accumulateRotate event c))
  = Spherical.phi (sphericalDelta c) - specifiedRotation (dy * 0.5) (clientHeight c) /\
  rotateStart (accumulateRotate event c)
  = {| Vector2.x := clientX event; Vector2.y := clientY event |} /\
  onMouseMove rt event c = update rt (accumulateRotate event c).
Proof.
  intros Hen Hst dx dy. repeat split.
  unfold onMouseMove. now rewrite Hen, Hst.
Qed.



(** C9, as the code has it.  With damping enabled and no input between the
    calls, a call of [update] multiplies the polar pending delta by
    [1 − dampingFactor], and the azimuthal one too when auto-rotation is off
    or the controller is not idle: [n] calls then leave each component
    multiplied [n] times by that factor, and, with the damping factor 0.08 of
    the viewer and a finite pending delta, the magnitude of each component
    never grows, shrinks at each call while above 6 · 2^-1074, and is at
    most 6 · 2^-1074 from some call on: the pending delta goes to (0, 0) as
    far as the numbers resolve.  With auto-rotation on and the controller
    idle, the call first subtracts the auto-rotation angle from the azimuthal
    pending delta. *)
Theorem damping_scales_pending_delta (c : t) :
  enableDamping (settings c) = true ->
  let k := 1 - dampingFactor (settings c) in
  let theta := fun n : nat =>
    Spherical.theta (sphericalDelta (Nat.iter n (update rt) c)) in
  let phi := fun n : nat =>
    Spherical.phi (sphericalDelta (Nat.iter n (update rt) c)) in
  (autoRotate (settings c) && STATE_eqb (state c) NONE = false ->
   (forall n : nat,
      sphericalDelta (Nat.iter n (update rt) c) = damped n k (sphericalDelta c))
   /\
   (dampingFactor (settings c) = 0.08 ->
    (abs (theta 0%nat) <? infinity) = true ->
    (abs (phi 0%nat) <? infinity) = true ->
    (forall n : nat,
       (abs (theta (S n)) <=? abs (theta n)) = true /\
       (abs (phi (S n)) <=? abs (phi n)) = true /\
       ((abs (theta n) <=? Damping.tiny) = false ->
        (abs (theta (S n)) <? abs (theta n)) = true) /\
       ((abs (phi n) <=? Damping.tiny) = false ->
        (abs (phi (S n)) <? abs (phi n)) = true))
    /\
    (exists N : nat, forall n : nat, (N <= n)%nat ->
       (abs (theta n) <=? Damping.tiny) = true /\
       (abs (phi n) <=? Damping.tiny) = true)))
  /\
  (autoRotate (settings c) && STATE_eqb (state c) NONE = true ->
   theta 1%nat = (theta 0%nat - autoRotationAngle c) * k /\
   phi 1%nat = phi 0%nat * k).
Proof.
  intros Hd k theta phi. split; intros Hauto.
  - assert (Hpending : forall n : nat,
      sphericalDelta (Nat.iter n (update rt) c) = damped n k (sphericalDelta c)).
    { induction n as [| n IH]; [reflexivity |].
      rewrite Nat.iter_succ, update_sphericalDelta
        by (now rewrite iter_update_settings).
      unfold autoRotated.
      rewrite iter_update_settings, iter_update_state, Hauto, IH.
      reflexivity. }
    split; [exact Hpending |].
    intros Hfactor Htheta Hphi.
    assert (Et : forall n, theta n = Damping.decay n (Spherical.theta (sphericalDelta c))).
    { intros n. unfold theta. rewrite Hpending. unfold k. rewrite Hfactor.
      apply (damped_components n (sphericalDelta c)). }
    assert (Ep : forall n, phi n = Damping.decay n (Spherical.phi (sphericalDelta c))).
    { intros n. unfold phi. rewrite Hpending. unfold k. rewrite Hfactor.
      apply (damped_components n (sphericalDelta c)). }
    destruct (DampingFacts.decay_converges _ Htheta) as [Mt [Nt Ht]].
    destruct (DampingFacts.decay_converges _ Hphi) as [Mp [Np Hp]].
    split.
    + intros n. rewrite !Et, !Ep.
      destruct (Mt n) as [Mt1 Mt2], (Mp n) as [Mp1 Mp2]. auto.
    + exists (Nt + Np)%nat. intros n Hn. rewrite Et, Ep.
      split; [apply Ht | apply Hp]; lia.
  - unfold theta, phi. cbn [Nat.iter nat_rect].
    rewrite update_sphericalDelta by exact Hd.
    unfold autoRotated. rewrite Hauto. split; reflexivity.
Qed.

End WithRuntime.

(** C5 as the code has it, on the viewer's controller. *)
Lemma wheel_scales_zoom_witness :
  (deltaY scrollUp <? 0) = true /\ (0 <? deltaY scrollDown) = true /\
  dolly scrollUp initControls = set_scale (1 * 0.95) initControls /\
  dolly scrollDown initControls = set_scale (1 / 0.95) initControls.
Proof.
  split; [reflexivity |]. split; [reflexivity |]. split.
  - apply (proj1 (wheel_scales_zoom SampleRuntime.runtime scrollUp initControls)).
    reflexivity.
  - apply (proj2 (wheel_scales_zoom SampleRuntime.runtime scrollDown initControls)).
    reflexivity.
Defined.

(** C5 as the specification states it fails: scrolling up ([deltaY] = −100)
    from the zoom scale 1 gives [update] the scale 0.95, not 1/0.95, and the
    camera comes closer (radius 8.66 to 8.23); scrolling down gives 1/0.95. *)
Lemma wheel_scale_counterexample :
  (deltaY scrollUp <? 0) = true /\
  scale initControls = 1 /\
  scale (dolly scrollUp initControls) = 0.95 /\
  specifiedWheelScale (deltaY scrollUp) 1 = 1.0526315789473684 /\
  Spherical.radius (readSpherical SampleRuntime.runtime initControls)
  = 8.6602540378443873 /\
  Spherical.radius
    (spherical (handleMouseWheel SampleRuntime.runtime scrollUp initControls))
  = 8.2272413359521668 /\
  scale (dolly scrollDown initControls) = 1.0526315789473684 /\
  specifiedWheelScale (deltaY scrollDown) 1 = 0.95.
Proof. repeat split. Qed.

(** C6 as the code has it: a drag of (200, 100) pixels on a viewport 600
    pixels high. *)
Lemma rotate_accumulates_half_the_pixel_delta_witness :
  enabled (settings pressedControls) = true /\
  state pressedControls = ROTATE /\
  Spherical.theta (sphericalDelta (accumulateRotate drag pressedControls))
  = 0 - specifiedRotation ((300 - 100) * 0.5) 600 /\
  onMouseMove SampleRuntime.runtime drag pressedControls
  = update SampleRuntime.runtime (accumulateRotate drag pressedControls).
Proof.
  split; [reflexivity |]. split; [reflexivity |].
  destruct (rotate_accumulates_half_the_pixel_delta SampleRuntime.runtime drag
              pressedControls eq_refl eq_refl) as (Htheta & _ & _ & Hmove).
  split; [exact Htheta | exact Hmove].
Defined.

(** C6 as the specification states it fails: for the drag of 200 pixels to
    the right the azimuthal pending delta goes from 0 to −2π·100/600, half of
    the −2π·200/600 of the specification; the polar one likewise. *)
Lemma rotate_delta_counterexample :
  state pressedControls = ROTATE /\
  rotateStart pressedControls = {| Vector2.x := 100; Vector2.y := 100 |} /\
  sphericalDelta pressedControls = Spherical.default /\
  Spherical.theta (sphericalDelta (accumulateRotate drag pressedControls))
  = -1.0471975511965979 /\
  0 - specifiedRotation (300 - 100) 600 = -2.0943951023931957 /\
  Spherical.phi (sphericalDelta (accumulateRotate drag pressedControls))
  = -0.52359877559829893 /\
  0 - specifiedRotation (200 - 100) 600 = -1.0471975511965979.
Proof. repeat split. Qed.



(** C9 as the code has it: with auto-rotation off, the pending delta a drag
    left decays by the factor 0.92 a call, towards (0, 0). *)
Lemma damping_scales_pending_delta_witness :
  let c := run SampleRuntime.runtime stillControls
             [mousedown press; mousemove drag; mouseup] in
  let pending := fun n : nat =>
    sphericalDelta (Nat.iter n (update SampleRuntime.runtime) c) in
  enableDamping (settings c) = true /\
  autoRotate (settings c) && STATE_eqb (state c) NONE = false /\
  dampingFactor (settings c) = 0.08 /\
  sphericalDelta c
  = {| Spherical.radius := 1; Spherical.phi := -0.48171087355043501;
       Spherical.theta := -0.96342174710087003 |} /\
  pending 3%nat = damped 3 (1 - 0.08) (sphericalDelta c) /\
  (exists N : nat, forall n : nat, (N <= n)%nat ->
     (abs (Spherical.theta (pending n)) <=? Damping.tiny) = true /\
     (abs (Spherical.phi (pending n)) <=? Damping.tiny) = true).
Proof.
  intros c pending.
  split; [reflexivity |]. split; [reflexivity |]. split; [reflexivity |].
  split; [reflexivity |].
  destruct (proj1 (damping_scales_pending_delta SampleRuntime.runtime c eq_refl)
              eq_refl) as [Hpending Hconverges].
  split; [apply Hpending |].
  apply (Hconverges eq_refl eq_refl eq_refl).
Defined.

(** C9 as the specification states it fails: the viewer's controller is idle
    with auto-rotation and damping on and a pending delta of (0, 0); with no
    input, the magnitude of the azimuthal pending delta grows at each call of
    [update], towards 0.00602, instead of decreasing towards 0. *)
Lemma damping_counterexample :
  enableDamping (settings initControls) = true /\
  autoRotate (settings initControls) = true /\
  state initControls = NONE /\
  Spherical.theta (sphericalDelta initControls) = 0 /\
  Spherical.phi (sphericalDelta initControls) = 0 /\
  (forall rt : Runtime.t,
     Spherical.theta (sphericalDelta (update rt initControls))
     = -0.00048171087355043494 /\
     Spherical.theta (sphericalDelta (Nat.iter 2 (update rt) initControls))
     = -0.00092488487721683504 /\
     Spherical.theta (sphericalDelta (Nat.iter 200 (update rt) initControls))
     = -0.0060213855748227638).
Proof. repeat split. Qed.

End OrbitControlsFacts.

(* ================================================================== *)
(** * More facts on the loader *)

Module WavefrontFacts.

Import JS OBJLoader Mesh Wavefront OBJLoaderFacts.

(** ** The pools, record by record *)

Lemma flat_map_filter {A B : Type} (f : A -> list B) (g : A -> bool) (l : list A) :
  (forall x, g x = false -> f x = []) ->
  flat_map f l = flat_map f (filter g l).
Proof.
  intros H. induction l as [| x l IH]; [reflexivity |].
  cbn [flat_map filter]. destruct (g x) eqn:E.
  - cbn [flat_map]. now rewrite IH.
  - now rewrite (H x E).
Qed.

Lemma scanLine_vnCoordinates (p : Pools) (line : string) :
  normals (scanLine p line) = normals p ++ vnCoordinates line.
Proof.
  unfold scanLine, vnCoordinates.
  destruct (startsWith (trim line) "vn ") eqn:Evn.
  - now rewrite (startsWith_vn _ Evn).
  - repeat match goal with
           | |- context [if ?b then _ else _] => destruct b
           end; cbn [normals]; symmetry; apply app_nil_r.
Qed.

Lemma fold_scanLine_vnCoordinates (lines : list string) (p : Pools) :
  normals (fold_left scanLine lines p)
  = normals p ++ flat_map vnCoordinates lines.
Proof.
  revert p. induction lines as [| line rest IH]; intros p; cbn [fold_left flat_map].
  - symmetry. apply app_nil_r.
  - rewrite IH, scanLine_vnCoordinates, app_assoc. reflexivity.
Qed.

(** Each pool is made of the lines of its kind, in the order of the text. *)
Lemma scan_normals (text : string) :
  normals (scan text) = flat_map vnCoordinates (vnLines text).
Proof.
  unfold scan, vnLines. rewrite fold_scanLine_vnCoordinates. cbn [normals emptyPools app].
  apply flat_map_filter. intros line E. unfold vnCoordinates. now rewrite E.
Qed.

Lemma scan_uvs_lines (text : string) :
  uvs (scan text) = flat_map flipV (flat_map vtRecord (vtLines text)).
Proof.
  rewrite scan_uvs. unfold vtRecords, vtLines. f_equal.
  apply flat_map_filter. intros line E. unfold vtRecord. now rewrite E.
Qed.

Lemma scan_faces_lines (text : string) :
  faces (scan text) = flat_map faceRecord (faceLines text).
Proof.
  fold (corners text). rewrite corners_of_lines. unfold faceLines.
  apply flat_map_filter. intros line E. unfold faceRecord. now rewrite E.
Qed.

Lemma pools_eq (p q : Pools) :
  vertices p = vertices q -> normals p = normals q -> uvs p = uvs q ->
  faces p = faces q -> p = q.
Proof. destruct p, q. cbn. now intros -> -> -> ->. Qed.

Lemma flat_map_filter_length {A B : Type} (f : A -> list B) (g : A -> bool)
  (k : nat) (l : list A) :
  (forall x, g x = true -> List.length (f x) = k) ->
  List.length (flat_map f (filter g l)) = (k * List.length (filter g l))%nat.
Proof.
  intros H. induction l as [| x l IH]; [cbn; lia |].
  cbn [filter]. destruct (g x) eqn:E; [| exact IH].
  cbn [flat_map List.length]. rewrite length_app, IH, (H x E). lia.
Qed.

Lemma scan_normals_count (text : string) :
  List.length (normals (scan text)) = (3 * List.length (vnLines text))%nat.
Proof.
  rewrite scan_normals. unfold vnLines. apply flat_map_filter_length.
  intros line E. unfold vnCoordinates. now rewrite E.
Qed.

Lemma scan_uvs_count (text : string) :
  List.length (uvs (scan text)) = (2 * List.length (vtLines text))%nat.
Proof.
  rewrite scan_uvs_lines, flat_map_flipV_length. f_equal. unfold vtLines.
  rewrite (flat_map_filter_length vtRecord _ 1); [apply Nat.mul_1_l |].
  intros line E. unfold vtRecord. now rewrite E.
Qed.

Local Open Scope Z_scope.

(** ** The guards of the second loop *)

(** On a pool of whole records of [stride] numbers, the guard on the start of
    the record says that the 1-based index resolves. *)
Lemma record_guard (stride n : Z) (k : nat) :
  0 < stride ->
  (0 <=? (n - 1) * stride) && ((n - 1) * stride <? stride * Z.of_nat k)
  = (1 <=? n) && (n <=? stride * Z.of_nat k / stride).
Proof.
  intros Hs. rewrite (Z.mul_comm stride (Z.of_nat k)), Z.div_mul by lia.
  destruct (Z.leb_spec 0 ((n - 1) * stride)),
    (Z.ltb_spec ((n - 1) * stride) (Z.of_nat k * stride)),
    (Z.leb_spec 1 n), (Z.leb_spec n (Z.of_nat k)); cbn; nia || reflexivity.
Qed.

(** What one corner adds to the three buffers. *)
Lemma resolveCorner_buffers (text : string) (b : Buffers) (corner : string) :
  let p := scan text in
  resolveCorner p b corner
  = {| positions := positions b ++ cornerPosition p corner;
       normalsArray := normalsArray b ++ cornerNormal p corner;
       uvsArray := uvsArray b ++ cornerUV p corner |}.
Proof.
  intros p.
  assert (Hu : forall n,
    (0 <=? (n - 1) * 2) && ((n - 1) * 2 <? Z.of_nat (List.length (uvs p)))
    = (1 <=? n) && (n <=? uvCount p)).
  { intros n. unfold uvCount, p. rewrite scan_uvs_count, Nat2Z.inj_mul.
    now apply record_guard. }
  assert (Hn : forall n,
    (0 <=? (n - 1) * 3) && ((n - 1) * 3 <? Z.of_nat (List.length (normals p)))
    = (1 <=? n) && (n <=? normalCount p)).
  { intros n. unfold normalCount, p. rewrite scan_normals_count, Nat2Z.inj_mul.
    now apply record_guard. }
  rewrite <- (resolveCorner_positions p b corner (scan_vertices_length text)).
  unfold resolveCorner, cornerNormal, cornerUV, normalIndex, uvIndex.
  cbn [positions]. f_equal.
  - destruct (nonEmpty (nth_error (split "/" corner) 2));
      [| symmetry; apply app_nil_r].
    destruct (parseInt _) as [n |]; [| symmetry; apply app_nil_r].
    rewrite Hn. destruct (_ && _); [reflexivity | symmetry; apply app_nil_r].
  - destruct (nonEmpty (nth_error (split "/" corner) 1));
      [| symmetry; apply app_nil_r].
    destruct (parseInt _) as [n |]; [| symmetry; apply app_nil_r].
    rewrite Hu. destruct (_ && _); [reflexivity | symmetry; apply app_nil_r].
Qed.

(** The second loop on whole triples of corners: the three buffers. *)
Lemma resolveFaces_buffers (text : string) (k : nat) :
  let p := scan text in
  forall (cs : list string) (b : Buffers),
  List.length cs = (3 * k)%nat ->
  resolveFaces p cs b
  = Return {| positions := positions b ++ flat_map (cornerPosition p) cs;
              normalsArray := normalsArray b ++ flat_map (cornerNormal p) cs;
              uvsArray := uvsArray b ++ flat_map (cornerUV p) cs |}.
Proof.
  intros p. induction k as [| k IH]; intros cs b Hlen.
  - destruct cs; [| discriminate]. cbn [resolveFaces flat_map].
    rewrite !app_nil_r. now destruct b.
  - destruct cs as [| c0 [| c1 [| c2 rest]]]; try (cbn in Hlen; lia).
    cbn [resolveFaces]. rewrite IH by (cbn in Hlen; lia).
    unfold p. rewrite !resolveCorner_buffers. cbn [positions normalsArray uvsArray flat_map].
    now rewrite <- !app_assoc.
Qed.

(** [parse] on a triangulated text: the mesh, attribute by attribute. *)
Lemma parse_buffers (text : string) :
  triangulated text ->
  let p := scan text in
  parse text
  = Return {| position := flat_map (cornerPosition p) (corners text);
              normal := normalAttribute (flat_map (cornerNormal p) (corners text));
              uv := uvAttribute (flat_map (cornerUV p) (corners text));
              material := defaultMaterial |}.
Proof.
  intros H p. unfold parse.
  rewrite (resolveFaces_buffers text (faceTriangleCount text))
    by (apply triangulated_length, H).
  cbn [positions normalsArray uvsArray emptyBuffers app]. reflexivity.
Qed.

Lemma flat_map_length_filter {A B : Type} (f : A -> list B) (g : A -> bool)
  (k : nat) (l : list A) :
  (forall x, List.length (f x) = if g x then k else 0%nat) ->
  List.length (flat_map f l) = (k * List.length (filter g l))%nat.
Proof.
  intros H. induction l as [| x l IH]; [cbn; lia |].
  cbn [flat_map filter]. rewrite length_app, IH, H.
  destruct (g x); cbn [List.length]; lia.
Qed.

Lemma cornerUV_length (p : Pools) (corner : string) :
  List.length (cornerUV p corner) = if resolvesUV p corner then 2%nat else 0%nat.
Proof.
  unfold cornerUV, resolvesUV.
  destruct (uvIndex corner) as [n |]; [| reflexivity].
  now destruct ((1 <=? n) && (n <=? uvCount p)).
Qed.

Lemma cornerNormal_length (p : Pools) (corner : string) :
  List.length (cornerNormal p corner)
  = if resolvesNormal p corner then 3%nat else 0%nat.
Proof.
  unfold cornerNormal, resolvesNormal.
  destruct (normalIndex corner) as [n |]; [| reflexivity].
  now destruct ((1 <=? n) && (n <=? normalCount p)).
Qed.

(** ** White space around a line *)

Lemma trimEnd_app_space (c : ascii) (s : string) :
  isWhiteSpace c = true ->
  trimEnd (s ++ String c EmptyString) = trimEnd s.
Proof.
  intros Hc. induction s as [| a s IH].
  - cbn [append trimEnd]. now rewrite Hc.
  - cbn [append trimEnd]. now rewrite IH.
Qed.

Lemma trim_app_space (c : ascii) (s : string) :
  isWhiteSpace c = true ->
  trim (s ++ String c EmptyString) = trim s.
Proof.
  intros Hc. unfold trim. induction s as [| a s IH].
  - cbn [append trimStart]. now rewrite Hc.
  - cbn [append trimStart]. destruct (isWhiteSpace a); [exact IH |].
    apply (trimEnd_app_space c (String a s) Hc).
Qed.

Lemma trim_cons_space (c : ascii) (s : string) :
  isWhiteSpace c = true -> trim (String c s) = trim s.
Proof. intros Hc. unfold trim. cbn [trimStart]. now rewrite Hc. Qed.

(** A line is read through its trimmed form. *)
Lemma scanLine_trim (p : Pools) (l1 l2 : string) :
  trim l1 = trim l2 -> scanLine p l1 = scanLine p l2.
Proof. intros H. unfold scanLine. now rewrite H. Qed.

(** The lines of the text in Windows line ends are those of the text, with a
    carriage return at the end of all but the last. *)
Lemma consHead_sameLine (c : ascii) (ls1 ls2 : list string) :
  Forall2 sameLine ls1 ls2 ->
  Forall2 sameLine (consHead c ls1) (consHead c ls2).
Proof.
  intros [| l1 l2 r1 r2 [-> | ->] Hr]; cbn [consHead].
  - repeat constructor.
  - constructor; [now left | exact Hr].
  - constructor; [now right | exact Hr].
Qed.

Lemma split_crlf (text : string) :
  Forall2 sameLine (split "010" (crlf text)) (split "010" text).
Proof.
  induction text as [| c text IH]; [repeat constructor |].
  cbn [crlf split]. destruct (Ascii.eqb c "010") eqn:E.
  - cbn [split Ascii.eqb Bool.eqb andb consHead].
    constructor; [now right | exact IH].
  - cbn [split]. rewrite E. now apply consHead_sameLine.
Qed.

Lemma fold_scanLine_sameLine (ls1 ls2 : list string) :
  Forall2 sameLine ls1 ls2 ->
  forall p, fold_left scanLine ls1 p = fold_left scanLine ls2 p.
Proof.
  induction 1 as [| l1 l2 r1 r2 Hl Hr IH]; intros p; [reflexivity |].
  cbn [fold_left]. rewrite IH. f_equal. apply scanLine_trim.
  destruct Hl as [-> | ->]; [reflexivity |].
  now apply trim_app_space.
Qed.

(** ** The parts of a corner token *)

Lemma split_noSlash (a : string) :
  noSlash a = true -> split "/" a = [a].
Proof.
  induction a as [| c a IH]; [reflexivity |].
  cbn [noSlash split]. intros H. apply andb_prop in H as [Hc Ha].
  apply negb_true_iff in Hc. rewrite Hc, (IH Ha). reflexivity.
Qed.

Lemma split_app_slash (a rest : string) :
  noSlash a = true ->
  split "/" (a ++ String "/" rest) = a :: split "/" rest.
Proof.
  induction a as [| c a IH]; [reflexivity |].
  cbn [noSlash append split]. intros H. apply andb_prop in H as [Hc Ha].
  apply negb_true_iff in Hc. rewrite Hc, (IH Ha). reflexivity.
Qed.

(** The end of a line after a character that is no white space, and after a
    tabulation. *)
Lemma trimEnd_cons_letter (c : ascii) (s : string) :
  isWhiteSpace c = false -> trimEnd (String c s) = String c (trimEnd s).
Proof. intros H. cbn [trimEnd]. rewrite H. now destruct (trimEnd s). Qed.

Lemma trimEnd_tab (rest : string) :
  trimEnd (String "009" rest) = EmptyString \/
  exists t, trimEnd (String "009" rest) = String "009" t.
Proof.
  cbn [trimEnd]. destruct (trimEnd rest); [left | right; eexists]; reflexivity.
Qed.


Local Open Scope nat_scope.

(* ------------------------------------------------------------------ *)
(** ** Properties of the loader *)

(** X1.  [parse] reads the records of each kind and nothing else: two texts
    with the same [v] lines, the same [vn] lines, the same [vt] lines and the
    same [f] lines, in whatever order the kinds are interleaved and whatever
    other lines stand between them, give the same result.  A text with no
    [f] line (the empty text, or vertices alone) gives the mesh with no
    vertex, and no error. *)
Theorem parse_reads_the_records_of_each_kind :
  (forall t1 t2 : string,
     vLines t1 = vLines t2 -> vnLines t1 = vnLines t2 ->
     vtLines t1 = vtLines t2 -> faceLines t1 = faceLines t2 ->
     parse t1 = parse t2) /\
  (forall text : string, faceLines text = [] -> parse text = Return emptyMesh).
Proof.
  split.
  - intros t1 t2 Hv Hvn Hvt Hf.
    assert (E : scan t1 = scan t2).
    { apply pools_eq.
      - rewrite !scan_vertices. unfold sourceVertices. now rewrite Hv.
      - rewrite !scan_normals. now rewrite Hvn.
      - rewrite !scan_uvs_lines. now rewrite Hvt.
      - rewrite !scan_faces_lines. now rewrite Hf. }
    unfold parse. now rewrite E.
  - intros text Hf. unfold parse.
    rewrite scan_faces_lines, Hf. reflexivity.
Qed.

(** X1 on a triangle written in two orders, and on a point cloud. *)
Lemma parse_reads_the_records_of_each_kind_witness :
  parse facesFirst = parse fullTriangle /\
  parse pointCloud = Return emptyMesh.
Proof.
  split.
  - apply (proj1 parse_reads_the_records_of_each_kind); reflexivity.
  - apply (proj2 parse_reads_the_records_of_each_kind); reflexivity.
Defined.

(** X2.  The pools hold whole records: three numbers for each [v] line and
    each [vn] line and two for each [vt] line, whatever number of tokens the
    line has.  A coordinate whose token is missing is read from [undefined]
    and stored as NaN, and the tokens after those of the coordinates (a
    weight, a colour) change nothing to what is read. *)
Theorem pools_hold_whole_records :
  (forall text : string,
     List.length (vertices (scan text)) = 3 * List.length (vLines text) /\
     List.length (normals (scan text)) = 3 * List.length (vnLines text) /\
     List.length (uvs (scan text)) = 2 * List.length (vtLines text)) /\
  (forall (parts : list string) (i : nat),
     List.length parts <= i -> parseFloat (part parts i) = nan) /\
  (forall (parts more : list string) (i : nat),
     i < List.length parts -> part (parts ++ more) i = part parts i).
Proof.
  split; [| split].
  - intros text.
    auto using scan_vertices_count, scan_normals_count, scan_uvs_count.
  - intros parts i H. unfold part.
    apply nth_error_None in H. rewrite H. reflexivity.
  - intros parts more i H. unfold part. now rewrite nth_error_app1.
Qed.

(** X2 on a vertex with two coordinates. *)
Lemma pools_hold_whole_records_witness :
  vertices (scan "v 1 2") = [1; 2; nan]%float /\
  parseFloat (part ["v"; "1"; "2"]%string 3) = nan.
Proof.
  split; [reflexivity |].
  apply (proj1 (proj2 pools_hold_whole_records)). cbn. lia.
Defined.

(** X3.  The guards of the second loop (lines 304, 310 and 317) test the
    start of a record only, and the loop reads the one or two numbers after
    it: on the pools of a scanned text these reads are inside the pool, so
    that no [undefined] enters a buffer. *)
Theorem corner_reads_stay_inside_the_pools (text : string) (n j : Z) :
  let p := scan text in
  (0 <= j)%Z ->
  ((0 <= (n - 1) * 3 < Z.of_nat (List.length (vertices p)))%Z -> (j < 3)%Z ->
   Z.to_nat ((n - 1) * 3 + j) < List.length (vertices p)) /\
  ((0 <= (n - 1) * 2 < Z.of_nat (List.length (uvs p)))%Z -> (j < 2)%Z ->
   Z.to_nat ((n - 1) * 2 + j) < List.length (uvs p)) /\
  ((0 <= (n - 1) * 3 < Z.of_nat (List.length (normals p)))%Z -> (j < 3)%Z ->
   Z.to_nat ((n - 1) * 3 + j) < List.length (normals p)).
Proof.
  intros p Hj. repeat split; intros Hn Hj'.
  - apply (element_in_pool _ 3 n j (List.length (vLines text))); try lia.
    unfold p. rewrite scan_vertices_count. lia.
  - apply (element_in_pool _ 2 n j (List.length (vtLines text))); try lia.
    unfold p. rewrite scan_uvs_count. lia.
  - apply (element_in_pool _ 3 n j (List.length (vnLines text))); try lia.
    unfold p. rewrite scan_normals_count. lia.
Qed.

(** X3 on the last coordinate of the last vertex of a triangle. *)
Lemma corner_reads_stay_inside_the_pools_witness :
  List.length (vertices (scan fullTriangle)) = 9 /\
  Z.to_nat ((3 - 1) * 3 + 2) < List.length (vertices (scan fullTriangle)).
Proof.
  split; [reflexivity |].
  apply (proj1 (corner_reads_stay_inside_the_pools fullTriangle 3 2 ltac:(lia)));
    cbn; lia.
Defined.



(** X5.  The lengths of the three buffers count the indices that resolve:
    three numbers for each corner whose position index resolves, two for each
    whose texture index resolves, three for each whose normal index resolves.
    The loader pads nothing, so the buffers describe the same vertices only
    when the same corners resolve; when the three indices of every corner
    resolve, a mesh of [n] corners has [3n] positions, [3n] normals and [2n]
    texture coordinates. *)
Theorem buffers_count_the_resolved_indices (text : string) :
  triangulated text ->
  let p := scan text in
  let n := List.length (corners text) in
  (exists b, resolveFaces p (corners text) emptyBuffers = Return b /\
     List.length (positions b)
     = 3 * List.length (filter (resolves p) (corners text)) /\
     List.length (uvsArray b)
     = 2 * List.length (filter (resolvesUV p) (corners text)) /\
     List.length (normalsArray b)
     = 3 * List.length (filter (resolvesNormal p) (corners text))) /\
  (n <> 0 -> forallb (complete p) (corners text) = true ->
   exists ps ns us,
     parse text = Return {| position := ps; normal := Supplied ns;
                            uv := Some us; material := defaultMaterial |} /\
     List.length ps = 3 * n /\ List.length ns = 3 * n /\
     List.length us = 2 * n).
Proof.
  intros H p n.
  assert (Lp := flat_map_length_filter (cornerPosition p) (resolves p) 3
                  (corners text) (cornerPosition_length p)).
  assert (Lu := flat_map_length_filter (cornerUV p) (resolvesUV p) 2
                  (corners text) (cornerUV_length p)).
  assert (Ln := flat_map_length_filter (cornerNormal p) (resolvesNormal p) 3
                  (corners text) (cornerNormal_length p)).
  split.
  - eexists. split.
    + apply (resolveFaces_buffers text (faceTriangleCount text)).
      apply triangulated_length, H.
    + cbn [positions uvsArray normalsArray emptyBuffers app]. fold p. auto.
  - intros Hn Hall.
    assert (Hall' : forall (f : string -> bool),
      (forall c, complete p c = true -> f c = true) ->
      filter f (corners text) = corners text).
    { intros f Hf. apply filter_all. rewrite forallb_forall in Hall |- *.
      auto. }
    rewrite (Hall' (resolves p)) in Lp
      by (unfold complete; intros c Hc; now destruct (resolves p c)).
    rewrite (Hall' (resolvesUV p)) in Lu
      by (unfold complete; intros c Hc;
          now destruct (resolves p c), (resolvesUV p c)).
    rewrite (Hall' (resolvesNormal p)) in Ln
      by (unfold complete; intros c Hc;
          now destruct (resolves p c), (resolvesUV p c), (resolvesNormal p c)).
    fold n in Lp, Lu, Ln.
    rewrite (parse_buffers text H). fold p.
    destruct (flat_map (cornerNormal p) (corners text)) as [| x ns] eqn:En;
      [cbn in Ln; lia |].
    destruct (flat_map (cornerUV p) (corners text)) as [| y us] eqn:Eu;
      [cbn in Lu; lia |].
    now exists (flat_map (cornerPosition p) (corners text)), (x :: ns), (y :: us).
Qed.

(** X5 on a triangle with a normal and texture coordinates, and on one where
    a single corner carries a texture index. *)
Lemma buffers_count_the_resolved_indices_witness :
  triangulated fullTriangle /\
  forallb (complete (scan fullTriangle)) (corners fullTriangle) = true /\
  (exists ps ns us,
     parse fullTriangle
     = Return {| position := ps; normal := Supplied ns; uv := Some us;
                 material := defaultMaterial |} /\
     List.length ps = 3 * 3 /\ List.length ns = 3 * 3 /\
     List.length us = 2 * 3) /\
  parse malformedTokens
  = Return {| position := [nan; 0; 0; 1; 0; 0; 0; 1; 0;
                           nan; 0; 0; 1; 0; 0]%float;
              normal := ComputedVertexNormals;
              uv := Some [0.5; nan]%float;
              material := defaultMaterial |}.
Proof.
  split; [reflexivity |]. split; [reflexivity |]. split; [| reflexivity].
  apply (proj2 (buffers_count_the_resolved_indices fullTriangle eq_refl));
    [discriminate | reflexivity].
Defined.

(** X6.  The loader does not triangulate polygons: the corners of all the
    [f] lines are put end to end and taken three at a time.  When every [f]
    line has [k] corners, a text of [m] such lines is parsed when [k * m] is
    a multiple of 3, to [k * m / 3] triangles that straddle the faces (three
    quadrilaterals give four triangles, not six), and [parse] throws a
    TypeError otherwise (a single quadrilateral). *)
Theorem polygons_are_regrouped_in_threes (k : nat) (text : string) :
  polygonFaces k text ->
  let m := List.length (faceLines text) in
  List.length (corners text) = k * m /\
  ((k * m) mod 3 = 0 ->
   forallb (resolves (scan text)) (corners text) = true ->
   exists object, parse text = Return object /\
     List.length (position object) = 3 * (k * m)) /\
  ((k * m) mod 3 <> 0 -> parse text = Throw TypeError).
Proof.
  intros Hk m.
  assert (Hlen : List.length (corners text) = k * m).
  { unfold corners, m. rewrite scan_faces_lines.
    unfold polygonFaces in Hk.
    induction Hk as [| line rest Hline Hrest IH]; [cbn; lia |].
    cbn [flat_map List.length]. rewrite length_app, Hline, IH. lia. }
  split; [exact Hlen |]. split.
  - intros Hmod Hall.
    assert (Htri : triangulated text) by (unfold triangulated; now rewrite Hlen).
    destruct (parse_triangulated text Htri) as (object & Hparse & Hpos).
    exists object. split; [exact Hparse |].
    rewrite Hpos, flat_map_cornerPosition_length, (filter_all _ _ Hall), Hlen.
    reflexivity.
  - intros Hmod. apply parse_not_triangulated.
    unfold triangulated. now rewrite Hlen.
Qed.

(** X6 on three quadrilaterals and on one. *)
Lemma polygons_are_regrouped_in_threes_witness :
  polygonFaces 4 threeQuads /\ List.length (faceLines threeQuads) = 3 /\
  (exists object, parse threeQuads = Return object /\
     List.length (position object) = 3 * (4 * 3)) /\
  polygonFaces 4 quad /\ List.length (faceLines quad) = 1 /\
  parse quad = Throw TypeError.
Proof.
  assert (H3 : polygonFaces 4 threeQuads) by (repeat constructor).
  assert (H1 : polygonFaces 4 quad) by (repeat constructor).
  split; [exact H3 |]. split; [reflexivity |]. split.
  - apply (proj1 (proj2 (polygons_are_regrouped_in_threes 4 threeQuads H3)));
      reflexivity.
  - split; [exact H1 |]. split; [reflexivity |].
    apply (proj2 (proj2 (polygons_are_regrouped_in_threes 4 quad H1))).
    discriminate.
Defined.

(** X7.  White space around a line is not read: a line is trimmed before its
    kind is looked at, so a white-space character before or after it changes
    nothing.  In particular a text with Windows line ends (a carriage return
    before every line feed) gives the same result as the text with line feeds
    alone. *)
Theorem carriage_returns_are_stripped :
  (forall (c : ascii) (p : Pools) (line : string),
     isWhiteSpace c = true ->
     scanLine p (String c line) = scanLine p line /\
     scanLine p (line ++ String c EmptyString) = scanLine p line) /\
  (forall text : string, parse (crlf text) = parse text).
Proof.
  split.
  - intros c p line Hc. split; apply scanLine_trim.
    + now apply trim_cons_space.
    + now apply trim_app_space.
  - intros text. unfold parse, scan.
    now rewrite (fold_scanLine_sameLine _ _ (split_crlf text)).
Qed.

(** X7 on a tabulation and on a triangle in Windows line ends. *)
Lemma carriage_returns_are_stripped_witness :
  scanLine emptyPools (String "009" "v 1 2 3")
  = scanLine emptyPools "v 1 2 3" /\
  parse (crlf fullTriangle) = parse fullTriangle.
Proof.
  split.
  - apply (proj1 carriage_returns_are_stripped "009"%char). reflexivity.
  - apply (proj2 carriage_returns_are_stripped).
Defined.

(** X8.  The four forms of a corner token are read as the format has them.
    For index tokens [a], [b] and [c] (with no [/]): the corner [a] has the
    position index [a] and no other; [a/b] has the position index [a] and
    the texture index [b]; [a/b/c] has the three, and an empty part stands
    for no index, so that [a//c] has a position and a normal index and no
    texture index. *)
Theorem corner_token_forms (a b c : string) :
  noSlash a = true -> noSlash b = true -> noSlash c = true ->
  (positionIndex a = parseInt a /\ uvIndex a = None /\ normalIndex a = None) /\
  (positionIndex (a ++ "/" ++ b) = parseInt a /\
   uvIndex (a ++ "/" ++ b) = indexOf b /\
   normalIndex (a ++ "/" ++ b) = None) /\
  (positionIndex (slashed a b c) = parseInt a /\
   uvIndex (slashed a b c) = indexOf b /\
   normalIndex (slashed a b c) = indexOf c).
Proof.
  intros Ha Hb Hc.
  unfold positionIndex, uvIndex, normalIndex, slashed, indexOf.
  cbn [append].
  rewrite (split_noSlash a Ha), !(split_app_slash a) by exact Ha.
  rewrite (split_app_slash b) by exact Hb.
  rewrite (split_noSlash b Hb), (split_noSlash c Hc).
  cbn [nth_error toString nonEmpty]. repeat split.
Qed.

(** X8 on a corner with a normal and no texture coordinate. *)
Lemma corner_token_forms_witness :
  positionIndex "7//3" = Some 7%Z /\ uvIndex "7//3" = None /\
  normalIndex "7//3" = Some 3%Z.
Proof.
  destruct (corner_token_forms "7" "" "3" eq_refl eq_refl eq_refl)
    as (_ & _ & H1 & H2 & H3).
  split; [exact H1 |]. split; [exact H2 | exact H3].
Defined.

(** X9.  The keyword of a record must be followed by a space: a line whose
    keyword [v], [vn], [vt] or [f] is followed by a tabulation is taken for no
    record and skipped, whatever follows. *)
Theorem keyword_needs_a_space (keyword rest : string) (p : Pools) :
  In keyword keywords -> scanLine p (tabbed keyword rest) = p.
Proof.
  intros H. unfold scanLine, tabbed, trim.
  destruct H as [<- | [<- | [<- | [<- | []]]]];
    cbn [append]; unfold trimStart;
    match goal with
    | |- context [isWhiteSpace ?c] => change (isWhiteSpace c) with false
    end; cbv iota;
    rewrite !trimEnd_cons_letter by reflexivity;
    destruct (trimEnd_tab rest) as [-> | [t ->]]; reflexivity.
Qed.

(** X9 on a vertex written with tabulations. *)
Lemma keyword_needs_a_space_witness :
  scan (tabbed "v" "1 2 3") = emptyPools /\
  vertices (scan "v 1 2 3") = [1; 2; 3]%float.
Proof.
  split; [| reflexivity].
  apply (keyword_needs_a_space "v" "1 2 3" emptyPools). now left.
Defined.

End WavefrontFacts.

(* ================================================================== *)
(** * Facts on rounding: a product does not cross a number *)

Module ProductFacts.

Import FloatOrder FloatOrderFacts Damping RoundingFacts DampingFacts Zoom.
Local Open Scope Z_scope.

(** ** Powers of two *)






(** ** A shift that loses nothing *)






(** ** The rounded product stays below a number above the product *)


(** ** The rounded product stays above a number below the product *)


(** ** Products of numbers *)




Local Open Scope float_scope.





End ProductFacts.

(* ================================================================== *)
(** * More facts on the controller *)

Module GestureFacts.

Import OrbitControls Orbit Gestures FloatOrderFacts OrbitControlsFacts ProductFacts.
Local Open Scope float_scope.

Section WithRuntime.

Variable rt : Runtime.t.

(** ** The gesture through the inputs *)

Lemma update_listening (c : t) : listening (update rt c) = listening c.
Proof. unfold update, autoRotated. now destruct (_ && _). Qed.

Lemma dispatch_settled (c : t) (i : Input) :
  settled c -> settled (dispatch rt c i).
Proof.
  intros [Hd Hl]. unfold settled.
  destruct i as [event | event | | event | column0 column1]; cbn [dispatch].
  - unfold onMouseDown. destruct (negb _); [auto |].
    destruct (button event =? 0)%Z; [now cbn |].
    destruct (button event =? 2)%Z; now cbn.
  - destruct (listening c) eqn:L; [| auto].
    unfold onMouseMove, handleMouseMoveRotate, handleMouseMovePan.
    destruct (negb _); [now rewrite L |].
    destruct (STATE_eqb (state c) ROTATE) eqn:R.
    + rewrite update_state, update_listening. cbn. now rewrite L.
    + destruct (STATE_eqb (state c) PAN); [| now rewrite L].
      rewrite update_state, update_listening. cbn. now rewrite L.
  - destruct (listening c); [now cbn | auto].
  - unfold onMouseWheel, handleMouseWheel. destruct (negb _); [auto |].
    rewrite update_state, update_listening. unfold dolly.
    destruct (deltaY event <? 0), (0 <? deltaY event); auto.
  - unfold rendered. cbn [state listening].
    rewrite update_state, update_listening. auto.
Qed.

Lemma run_settled (inputs : list Input) (c : t) :
  settled c -> settled (run rt c inputs).
Proof.
  unfold run. revert c.
  induction inputs as [| i inputs IH]; intros c H; [exact H |].
  cbn [fold_left]. now apply IH, dispatch_settled.
Qed.

(** ** The flag [enablePan] *)

Lemma update_withEnablePan (v : bool) (c : t) :
  update rt (withEnablePan v c) = withEnablePan v (update rt c).
Proof.
  destruct c as [cam h tg [] st sph sd sc po rs re rd ps pe pd q qi l].
  unfold update, autoRotated, withEnablePan, withFlags. cbn.
  destruct (_ && _); reflexivity.
Qed.

Lemma dispatch_withEnablePan (v : bool) (c : t) (i : Input) :
  dispatch rt (withEnablePan v c) i = withEnablePan v (dispatch rt c i).
Proof.
  destruct i as [event | event | | event | column0 column1]; cbn [dispatch].
  - destruct c as [cam h tg [] st sph sd sc po rs re rd ps pe pd q qi l].
    unfold onMouseDown, withEnablePan, withFlags. cbn.
    destruct (negb _); [reflexivity |].
    destruct (button event =? 0)%Z; [reflexivity |].
    destruct (button event =? 2)%Z; reflexivity.
  - replace (listening (withEnablePan v c)) with (listening c) by reflexivity.
    destruct (listening c); [| reflexivity].
    unfold onMouseMove, handleMouseMoveRotate, handleMouseMovePan.
    replace (enabled (settings (withEnablePan v c))) with (enabled (settings c))
      by reflexivity.
    replace (state (withEnablePan v c)) with (state c) by reflexivity.
    destruct (negb _); [reflexivity |].
    destruct (STATE_eqb (state c) ROTATE).
    + rewrite <- update_withEnablePan. f_equal;
        now destruct c as [cam h tg [] st sph sd sc po rs re rd ps pe pd q qi l].
    + destruct (STATE_eqb (state c) PAN); [| reflexivity].
      rewrite <- update_withEnablePan. f_equal;
        now destruct c as [cam h tg [] st sph sd sc po rs re rd ps pe pd q qi l].
  - replace (listening (withEnablePan v c)) with (listening c) by reflexivity.
    destruct (listening c); [| reflexivity].
    now destruct c as [cam h tg [] st sph sd sc po rs re rd ps pe pd q qi l].
  - unfold onMouseWheel, handleMouseWheel.
    replace (enabled (settings (withEnablePan v c))) with (enabled (settings c))
      by reflexivity.
    destruct (negb _); [reflexivity |].
    rewrite <- update_withEnablePan. f_equal.
    destruct c as [cam h tg [] st sph sd sc po rs re rd ps pe pd q qi l].
    unfold dolly. cbn.
    destruct (deltaY event <? 0); [reflexivity |].
    destruct (0 <? deltaY event); reflexivity.
  - rewrite update_withEnablePan.
    now destruct (update rt c) as [cam h tg [] st sph sd sc po rs re rd ps pe pd q qi l].
Qed.

(** ** The pending pan through the frames *)

Lemma update_panOffset (c : t) :
  enableDamping (settings c) = true ->
  panOffset (update rt c)
  = Vector3.multiplyScalar (panOffset c) (1 - dampingFactor (settings c)).
Proof.
  intros H. unfold update, autoRotated.
  destruct (_ && _); cbn; now rewrite H.
Qed.

Lemma frames_panOffset (frames : list Input) :
  forall c : t,
  enableDamping (settings c) = true -> dampingFactor (settings c) = 0.08 ->
  forallb isFrame frames = true ->
  panOffset (run rt c frames) = decayed (List.length frames) (panOffset c).
Proof.
  induction frames as [| i frames IH]; intros c Hd Hf Hall.
  - unfold run, decayed, Damping.decay. cbn. now destruct (panOffset c).
  - cbn [forallb] in Hall. apply andb_prop in Hall as [Hi Hall].
    destruct i as [| | | | column0 column1]; try discriminate.
    unfold run. cbn [fold_left dispatch]. fold (run rt).
    change (fold_left (dispatch rt) frames) with (fun c => run rt c frames).
    cbn beta. rewrite IH; try exact Hall;
      try (unfold rendered; cbn [settings]; now rewrite update_settings).
    unfold rendered. cbn [panOffset List.length]. rewrite update_panOffset, Hf by exact Hd.
    unfold decayed, Vector3.multiplyScalar. cbn [Vector3.x Vector3.y Vector3.z].
    now rewrite !DampingFacts.decay_succ_r.
Qed.

(** ** The zoom scale between the events *)




(* ------------------------------------------------------------------ *)
(** ** Properties of the controller *)

(** X10.  Whatever the inputs, the controller made by the constructor is
    never in the DOLLY state (the wheel zooms without a state), and it is
    idle (in the NONE state) whenever the listeners of the document are not
    installed, that is between gestures: a release ends the gesture, so that
    idle auto-rotation resumes after it. *)
Theorem gestures_end_idle (cam : Camera) (height : float) (inputs : list Input) :
  let c := run rt (constructor rt cam height) inputs in
  state c <> DOLLY /\
  (listening c = false -> state c = NONE) /\
  state (dispatch rt c mouseup) = NONE /\
  listening (dispatch rt c mouseup) = false.
Proof.
  intros c.
  assert (H : settled c).
  { apply run_settled. split; [discriminate | reflexivity]. }
  destruct H as [Hd Hl]. split; [exact Hd |]. split; [exact Hl |].
  cbn [dispatch]. destruct (listening c) eqn:L; [now cbn | auto].
Qed.

(** X11.  The flag [enablePan] is never read: the controller answers every
    sequence of inputs in the same way whatever its value, and a drag with
    the secondary button pans when it is false too. *)
Theorem enablePan_is_never_read (v : bool) (c : t) (inputs : list Input) :
  run rt (withEnablePan v c) inputs = withEnablePan v (run rt c inputs).
Proof.
  unfold run. revert c.
  induction inputs as [| i inputs IH]; intros c; [reflexivity |].
  cbn [fold_left]. now rewrite dispatch_withEnablePan, IH.
Qed.

(** X12.  A controller that is not enabled ignores the mouse and the wheel:
    between gestures, no event of theirs changes anything in it.  (The
    frames still call [update].) *)
Theorem disabled_controller_ignores_the_pointer (c : t) (inputs : list Input) :
  enabled (settings c) = false -> listening c = false ->
  forallb isPointer inputs = true ->
  run rt c inputs = c.
Proof.
  intros He Hl. unfold run.
  induction inputs as [| i inputs IH]; [reflexivity |].
  cbn [forallb fold_left]. intros H. apply andb_prop in H as [Hi H].
  assert (E : dispatch rt c i = c).
  { destruct i as [event | event | | event | column0 column1];
      cbn [dispatch]; try discriminate.
    - unfold onMouseDown. now rewrite He.
    - now rewrite Hl.
    - now rewrite Hl.
    - unfold onMouseWheel. now rewrite He. }
  rewrite E. now apply IH.
Qed.

(** X13.  With damping enabled, every frame multiplies the pending pan
    offset by [1 − dampingFactor], whether the controller auto-rotates or
    not.  With the damping factor 0.08 of the viewer, frames alone leave each
    component damped once a frame: when the pending offset is finite, its
    components never grow in magnitude from a frame to the next, and they are
    at most 6 · 2^-1074 from some number of frames on. *)
Theorem pan_offset_decays (c : t) :
  enableDamping (settings c) = true ->
  panOffset (update rt c)
  = Vector3.multiplyScalar (panOffset c) (1 - dampingFactor (settings c)) /\
  (dampingFactor (settings c) = 0.08 ->
   (forall frames : list Input, forallb isFrame frames = true ->
      panOffset (run rt c frames)
      = decayed (List.length frames) (panOffset c)) /\
   (finiteVector (panOffset c) ->
    (forall (frames : list Input) (i : Input),
       forallb isFrame (frames ++ [i]) = true ->
       noLonger (panOffset (run rt c (frames ++ [i])))
                (panOffset (run rt c frames))) /\
    (exists N : nat, forall frames : list Input,
       forallb isFrame frames = true -> (N <= List.length frames)%nat ->
       withinMagnitude Damping.tiny (panOffset (run rt c frames))))).
Proof.
  intros Hd. split; [now apply update_panOffset |].
  intros Hf.
  assert (Hframes : forall frames : list Input, forallb isFrame frames = true ->
            panOffset (run rt c frames)
            = decayed (List.length frames) (panOffset c))
    by (intros frames; now apply frames_panOffset).
  split; [exact Hframes |].
  intros (Hx & Hy & Hz).
  destruct (DampingFacts.decay_converges _ Hx) as [Mx [Nx Tx]].
  destruct (DampingFacts.decay_converges _ Hy) as [My [Ny Ty]].
  destruct (DampingFacts.decay_converges _ Hz) as [Mz [Nz Tz]].
  split.
  - intros frames i Hall.
    assert (Hall' : forallb isFrame frames = true).
    { rewrite forallb_app in Hall. now apply andb_prop in Hall as [H _]. }
    rewrite !Hframes by assumption.
    rewrite length_app, Nat.add_1_r. unfold noLonger, decayed.
    cbn [Vector3.x Vector3.y Vector3.z].
    split; [apply Mx |]. split; [apply My | apply Mz].
  - exists (Nx + Ny + Nz)%nat. intros frames Hall Hlen.
    rewrite Hframes by assumption. unfold withinMagnitude, decayed.
    cbn [Vector3.x Vector3.y Vector3.z].
    split; [apply Tx; lia |]. split; [apply Ty; lia | apply Tz; lia].
Qed.


End WithRuntime.


(** X11 on the viewer's controller with the flag off: the drag with the
    secondary button moves the target. *)
Lemma enablePan_is_never_read_witness :
  enablePan (settings panDisabledControls) = false /\
  run SampleRuntime.runtime panDisabledControls panGesture
  = withEnablePan false pannedControls /\
  (Vector3.x (target (withEnablePan false pannedControls)) <? 0) = true.
Proof.
  split; [reflexivity |]. split; [| reflexivity].
  apply (enablePan_is_never_read SampleRuntime.runtime false initControls).
Defined.

(** X12 on the viewer's controller, not enabled: a drag, a scroll and a
    release. *)
Lemma disabled_controller_ignores_the_pointer_witness :
  enabled (settings disabledControls) = false /\
  run SampleRuntime.runtime disabledControls rotateAndZoom = disabledControls.
Proof.
  split; [reflexivity |].
  apply (disabled_controller_ignores_the_pointer SampleRuntime.runtime);
    reflexivity.
Defined.

(** X13 on the viewer's controller after a pan: two frames. *)
Lemma pan_offset_decays_witness :
  enableDamping (settings pannedControls) = true /\
  dampingFactor (settings pannedControls) = 0.08 /\
  finiteVector (panOffset pannedControls) /\
  panOffset (run SampleRuntime.runtime pannedControls [frame; frame])
  = decayed 2 (panOffset pannedControls) /\
  noLonger (panOffset (run SampleRuntime.runtime pannedControls [frame; frame]))
           (panOffset (run SampleRuntime.runtime pannedControls [frame])).
Proof.
  assert (Hfinite : finiteVector (panOffset pannedControls))
    by (repeat split).
  split; [reflexivity |]. split; [reflexivity |]. split; [exact Hfinite |].
  destruct (pan_offset_decays SampleRuntime.runtime pannedControls eq_refl)
    as [_ H].
  destruct (H eq_refl) as [Hframes Hfin].
  destruct (Hfin Hfinite) as [Hstep _].
  split; [now apply Hframes |].
  apply (Hstep [frame] frame). reflexivity.
Defined.


End GestureFacts.

(* ================================================================== *)
(** * Facts on the viewer *)

Module ViewerFacts.

Import JS Viewer Shading FloatOrder FloatOrderFacts.

(** ** The product by 1 and the minimum with 1 *)

Local Open Scope Z_scope.

Lemma digits2_pos_shift (m : positive) :
  Zpos (digits2_pos (4503599627370496 * m)) = Zpos (digits2_pos m) + 52.
Proof. cbn [Pos.mul digits2_pos]. rewrite !Pos2Z.inj_succ. lia. Qed.

Lemma shr_exact (m : positive) :
  iter_pos shr_1 52
    (shr_record_of_loc (Zpos (4503599627370496 * m)) loc_Exact)
  = {| shr_m := Zpos m; shr_r := false; shr_s := false |}.
Proof. reflexivity. Qed.

(** The product of a number by 1 is the number. *)
Lemma SFmul_one (f : spec_float) :
  valid_binary f = true ->
  SF64mul f (S754_finite false 4503599627370496 (-52)) = f.
Proof.
  intros Hv. unfold SF64mul.
  destruct f as [s | s | | s m e]; cbn [SFmul]; rewrite ?xorb_false_r;
    try reflexivity.
  cbn [SpecFloat.valid_binary] in Hv. unfold bounded, canonical_mantissa in Hv.
  apply andb_prop in Hv as [Hc Hb].
  apply Z.eqb_eq in Hc. apply Z.leb_le in Hb.
  rewrite Pos.mul_comm. unfold binary_round_aux, shr_fexp.
  cbn [Zdigits2]. rewrite digits2_pos_shift.
  replace (Zpos (digits2_pos m) + 52 + (e + -52)) with (Zpos (digits2_pos m) + e)
    by lia.
  rewrite Hc. replace (e - (e + -52)) with 52 by lia.
  unfold shr at 1. rewrite shr_exact.
  cbn [shr_m shr_r shr_s loc_of_shr_record round_nearest_even].
  replace (e + -52 + 52) with e by lia.
  cbn [shr_record_of_loc Zdigits2]. rewrite Hc, Z.sub_diag.
  cbn [shr shr_m].
  apply Z.leb_le in Hb. now rewrite Hb.
Qed.

Local Open Scope float_scope.

Lemma mul_one (x : float) : x * 1 = x.
Proof.
  apply Prim2SF_inj. rewrite mul_spec.
  change (Prim2SF 1) with (S754_finite false 4503599627370496 (-52)).
  apply SFmul_one, Prim2SF_valid.
Qed.

Lemma is_nan_eq (x : float) : is_nan x = true -> x = nan.
Proof.
  intros H. apply Prim2SF_inj. change (Prim2SF nan) with S754_nan.
  destruct (Prim2SF x) eqn:E; try reflexivity;
    assert (N : is_nan x = false)
      by (apply is_nan_number; unfold number; rewrite E; discriminate);
    congruence.
Qed.

Lemma leb_not_ltb (x y : float) : (x <=? y) = true -> (y <? x) = false.
Proof.
  intros H. destruct (y <? x) eqn:E; [| reflexivity].
  apply leb_key in H. apply ltb_key in E.
  destruct H as (_ & _ & H), E as (_ & _ & E).
  destruct (key (Prim2SF x)) as [[? ?] ?], (key (Prim2SF y)) as [[? ?] ?].
  cbn in *. lia.
Qed.

(** [Math.min(x, 1)] is never above 1, and is [x] when [x] is not above 1. *)
Lemma min_one_displayable (x : float) : (1 <? Math.min x 1) = false.
Proof.
  destruct (is_nan x) eqn:N.
  - unfold Math.min. rewrite N. reflexivity.
  - destruct (min_cases x 1 N eq_refl) as [[-> H] | [-> _]];
      [now apply leb_not_ltb | reflexivity].
Qed.

Lemma min_one_below (x : float) : (1 <? x) = false -> Math.min x 1 = x.
Proof.
  intros H. destruct (is_nan x) eqn:N.
  - unfold Math.min. rewrite N. symmetry. now apply is_nan_eq.
  - unfold Math.min. rewrite N, H. cbn [orb is_nan].
    change (is_nan 1) with false. cbv iota.
    destruct (x <? 1) eqn:L; [reflexivity |].
    destruct (Math.isNegativeZero x); [reflexivity |].
    apply (ltb_false_leb x 1 N eq_refl) in L.
    apply (ltb_false_leb 1 x eq_refl N) in H.
    apply leb_key in L. apply leb_key in H.
    destruct L as (_ & _ & L), H as (_ & _ & H).
    apply Prim2SF_inj.
    change (Prim2SF 1) with (S754_finite false 4503599627370496 (-52)) in *.
    destruct (Prim2SF x) as [s | [] | | [] m e]; cbn in L, H; try lia.
    assert (e = (-52)%Z) by lia. assert (m = 4503599627370496%positive) by lia.
    now subst.
Qed.

(** ** Traversals *)

Lemma Node_induction (P : Node -> Prop) :
  (forall m u ms cs, Forall P cs -> P (node m u ms cs)) ->
  forall n, P n.
Proof.
  intros H. fix IH 1. intros [m u ms cs]. apply H.
  induction cs as [| c cs IHcs]; constructor; [apply IH | exact IHcs].
Qed.

Lemma forEachMaterial_materialsOf (f : Material -> Material) (ms : Materials) :
  materialsOf (forEachMaterial f ms) = List.map f (materialsOf ms).
Proof. now destruct ms. Qed.

Lemma forEachMaterial_ext (f g : Material -> Material) (ms : Materials) :
  (forall m, In m (materialsOf ms) -> f m = g m) ->
  forEachMaterial f ms = forEachMaterial g ms.
Proof.
  destruct ms as [| m | l]; cbn; intros H; [reflexivity | |].
  - rewrite H; auto.
  - f_equal. apply map_ext_in, H.
Qed.

Lemma forEachMaterial_compose (f g : Material -> Material) (ms : Materials) :
  forEachMaterial f (forEachMaterial g ms)
  = forEachMaterial (fun m => f (g m)) ms.
Proof. destruct ms; cbn; [reflexivity | reflexivity |]. now rewrite map_map. Qed.

(** The materials of the meshes after a write to them. *)
Lemma meshMaterials_onMeshes (f : Material -> Material) (n : Node) :
  meshMaterials (traverse (onMeshes f) n) = List.map f (meshMaterials n).
Proof.
  induction n as [m u ms cs IH] using Node_induction.
  cbn [traverse meshMaterials]. rewrite map_app. f_equal.
  - unfold onMeshes. cbn [isMesh material].
    destruct m; [apply forEachMaterial_materialsOf | reflexivity].
  - induction IH as [| c cs Hc Hcs IHcs]; [reflexivity |].
    cbn [List.map flat_map]. now rewrite map_app, Hc, IHcs.
Qed.

(** Two writes that agree on the materials of the meshes. *)
Lemma traverse_onMeshes_ext (f g : Material -> Material) (n : Node) :
  (forall m, In m (meshMaterials n) -> f m = g m) ->
  traverse (onMeshes f) n = traverse (onMeshes g) n.
Proof.
  induction n as [m u ms cs IH] using Node_induction.
  cbn [traverse meshMaterials]. intros H. f_equal.
  - unfold onMeshes. cbn [isMesh material]. destruct m; [| reflexivity].
    apply forEachMaterial_ext. intros x Hx. apply H, in_or_app. now left.
  - assert (H' : forall x, In x (flat_map meshMaterials cs) -> f x = g x)
      by (intros x Hx; apply H, in_or_app; now right).
    clear H. induction IH as [| c cs Hc Hcs IHcs]; [reflexivity |].
    cbn [List.map]. f_equal.
    + apply Hc. intros x Hx. apply H'. cbn [flat_map]. apply in_or_app. now left.
    + apply IHcs. intros x Hx. apply H'. cbn [flat_map]. apply in_or_app.
      now right.
Qed.

(** A write after a write. *)
Lemma traverse_onMeshes_compose (f g : Material -> Material) (n : Node) :
  traverse (onMeshes f) (traverse (onMeshes g) n)
  = traverse (onMeshes (fun m => f (g m))) n.
Proof.
  induction n as [m u ms cs IH] using Node_induction.
  cbn [traverse]. f_equal.
  - unfold onMeshes. cbn [isMesh material]. destruct m; [| reflexivity].
    apply forEachMaterial_compose.
  - rewrite map_map. induction IH as [| c cs Hc Hcs IHcs]; [reflexivity |].
    cbn [List.map]. now rewrite Hc, IHcs.
Qed.

(** A write that changes no material of a mesh. *)
Lemma traverse_onMeshes_id (f : Material -> Material) (n : Node) :
  (forall m, In m (meshMaterials n) -> f m = m) ->
  traverse (onMeshes f) n = n.
Proof.
  induction n as [m u ms cs IH] using Node_induction.
  cbn [traverse meshMaterials]. intros H. f_equal.
  - unfold onMeshes. cbn [isMesh material]. destruct m; [| reflexivity].
    assert (H' : forall x, In x (materialsOf ms) -> f x = x)
      by (intros x Hx; apply H, in_or_app; now left).
    destruct ms as [| x | l]; cbn in *; [reflexivity | |].
    + rewrite H'; auto.
    + f_equal. rewrite <- (map_id l) at 2. apply map_ext_in, H'.
  - assert (H' : forall x, In x (flat_map meshMaterials cs) -> f x = x)
      by (intros x Hx; apply H, in_or_app; now right).
    clear H. induction IH as [| c cs Hc Hcs IHcs]; [reflexivity |].
    cbn [List.map]. f_equal.
    + apply Hc. intros x Hx. apply H'. cbn [flat_map]. apply in_or_app. now left.
    + apply IHcs. intros x Hx. apply H'. cbn [flat_map]. apply in_or_app.
      now right.
Qed.

(** ** The brightness *)

Lemma brighten_brighten (s1 s2 : VisualSettings) (m : Material) :
  brighten s2 (brighten s1 m) = brighten s2 m.
Proof.
  unfold brighten. destruct (map m) eqn:E; cbn [map originalColor color];
    rewrite ?E; reflexivity.
Qed.

Lemma brighten_original (s : VisualSettings) (m : Material) :
  original (brighten s m) = original m.
Proof. unfold brighten, original. now destruct (map m). Qed.

Lemma brighten_one (s : VisualSettings) (m : Material) :
  brightness s = 1 -> displayable (original m) -> brighten s m = restore m.
Proof.
  intros Hs (Hr & Hg & Hb). unfold brighten, restore. fold (original m).
  destruct (map m); [| reflexivity].
  rewrite Hs, !mul_one, !min_one_below by assumption.
  now destruct (original m).
Qed.

Lemma brighten_displayable (s : VisualSettings) (m : Material) :
  textured m = true -> displayable (color (brighten s m)).
Proof.
  unfold brighten, textured, displayable. destruct (map m); [| discriminate].
  intros _. cbn [color r g b]. auto using min_one_displayable.
Qed.

Lemma brighten_untextured (s : VisualSettings) (m : Material) :
  textured m = false -> brighten s m = m.
Proof. unfold brighten, textured. now destruct (map m). Qed.

Lemma visualise_meshMaterials (s : VisualSettings) (n : Node) :
  meshMaterials (traverse (visualiseChild s) n)
  = List.map (brighten s) (meshMaterials n).
Proof. apply (meshMaterials_onMeshes (brighten s)). Qed.

Lemma visualise_twice (s1 s2 : VisualSettings) (n : Node) :
  traverse (visualiseChild s2) (traverse (visualiseChild s1) n)
  = traverse (visualiseChild s2) n.
Proof.
  change (visualiseChild s2) with (onMeshes (brighten s2)).
  change (visualiseChild s1) with (onMeshes (brighten s1)).
  rewrite traverse_onMeshes_compose.
  apply traverse_onMeshes_ext. intros m _. apply brighten_brighten.
Qed.

(** ** The model the loader delivers *)

Import Mesh Wavefront.

Lemma load_triangulated (text : string) :
  triangulated text ->
  let p := OBJLoader.scan text in
  OBJLoader.load true (OBJLoader.Loaded 200 text)
  = [OBJLoader.onLoad
       {| OBJLoader.position := flat_map (cornerPosition p) (corners text);
          OBJLoader.normal :=
            normalAttribute (flat_map (cornerNormal p) (corners text));
          OBJLoader.uv := uvAttribute (flat_map (cornerUV p) (corners text));
          OBJLoader.material := OBJLoader.defaultMaterial |}].
Proof.
  intros H p. cbn [OBJLoader.load Z.eqb Pos.eqb].
  now rewrite (WavefrontFacts.parse_buffers text H).
Qed.

(* ------------------------------------------------------------------ *)
(** ** Properties of the viewer *)

(** X15.  The brightness is applied to the colour the material had when its
    texture was first shown, which the viewer puts aside, and not to the
    colour the last setting left: two moves of the slider give what the
    second alone gives, no move changes the colour put aside, and
    [resetVisuals] gives every textured material its original colour back
    (when no channel of that colour is above 1). *)
Theorem brightness_scales_the_original_colour :
  (forall (v1 v2 : string) (a : App),
     setBrightness v2 (setBrightness v1 a) = setBrightness v2 a) /\
  (forall (v : string) (a : App) (model model' : Node),
     currentModel a = Some model ->
     currentModel (setBrightness v a) = Some model' ->
     List.map original (meshMaterials model')
     = List.map original (meshMaterials model)) /\
  (forall (a : App) (model : Node),
     currentModel a = Some model ->
     Forall (fun m => displayable (original m)) (meshMaterials model) ->
     currentModel (resetVisuals a) = Some (traverse (onMeshes restore) model)).
Proof.
  split; [| split].
  - intros v1 v2 [[model |] texture settings tm];
      unfold setBrightness, applyVisualSettings, set_visualSettings;
      cbn; [| reflexivity].
    now rewrite visualise_twice.
  - intros v [cm texture settings tm] model model' E.
    cbn in E. subst cm.
    unfold setBrightness, applyVisualSettings, set_visualSettings. cbn.
    intros [= <-]. rewrite visualise_meshMaterials, map_map.
    apply map_ext. intros m. apply brighten_original.
  - intros [cm texture settings tm] model E Hall. cbn in E. subst cm.
    unfold resetVisuals, applyVisualSettings, set_visualSettings. cbn.
    f_equal. apply traverse_onMeshes_ext. intros m Hm.
    rewrite Forall_forall in Hall. now apply brighten_one; [| apply Hall].
Qed.

(** X15 on a grey model with a texture: the slider at 0.5, then the
    reset. *)
Lemma brightness_scales_the_original_colour_witness :
  option_map meshMaterials (currentModel (setBrightness "0.5" texturedApp))
  = Some [{| color := {| r := 0.4; g := 0.4; b := 0.4 |}%float;
             map := Some stone; originalColor := Some (grey 0);
             wireframe := false |}] /\
  option_map meshMaterials
    (currentModel (resetVisuals (setBrightness "0.5" texturedApp)))
  = Some [{| color := grey 0; map := Some stone;
             originalColor := Some (grey 0); wireframe := false |}].
Proof.
  split; [reflexivity |].
  destruct brightness_scales_the_original_colour as (_ & _ & H).
  rewrite (H (setBrightness "0.5" texturedApp)
             (traverse (visualiseChild
                          {| brightness := 0.5; contrast := 1; saturation := 1;
                             exposure := 1 |})
                (traverse (textureChild stone) greyModel))).
  - reflexivity.
  - reflexivity.
  - repeat constructor.
Defined.

(** X16.  Whatever the brightness, [applyVisualSettings] leaves no channel
    of the colour of a textured material above 1. *)
Theorem brightened_colours_stay_displayable (a : App) (model : Node) :
  currentModel (applyVisualSettings a) = Some model ->
  Forall (fun m => textured m = true -> displayable (color m))
         (meshMaterials model).
Proof.
  destruct a as [[model0 |] texture settings tm];
    unfold applyVisualSettings; cbn; [| discriminate].
  intros [= <-]. rewrite visualise_meshMaterials.
  apply Forall_map, Forall_forall. intros m _ Hm.
  apply brighten_displayable.
  unfold brighten, textured in *.
  destruct (map m) eqn:E; [reflexivity |]. now rewrite E in Hm.
Qed.

(** X16 on a grey model with a texture and the slider at 2. *)
Lemma brightened_colours_stay_displayable_witness :
  option_map meshMaterials (currentModel (setBrightness "2" texturedApp))
  = Some [{| color := {| r := 1; g := 1; b := 1 |}%float;
             map := Some stone; originalColor := Some (grey 0);
             wireframe := false |}] /\
  Forall (fun m => textured m = true -> displayable (color m))
    (meshMaterials
       (traverse (visualiseChild
                    {| brightness := 2; contrast := 1; saturation := 1;
                       exposure := 1 |})
          (traverse (textureChild stone) greyModel))).
Proof.
  split; [reflexivity |].
  apply (brightened_colours_stay_displayable (setBrightness "2" texturedApp)).
  reflexivity.
Defined.

(** X17.  The contrast and the saturation are stored and never applied: a
    move of one of their sliders leaves the model and the exposure of the
    renderer as a call of [applyVisualSettings] with the settings as they were
    leaves them.  The brightness itself reaches the textured materials only:
    a model none of whose materials has a texture is left as it is. *)
Theorem contrast_and_saturation_are_never_applied (v : string) (a : App) :
  (currentModel (setContrast v a) = currentModel (applyVisualSettings a) /\
   toneMappingExposure (setContrast v a)
   = toneMappingExposure (applyVisualSettings a)) /\
  (currentModel (setSaturation v a) = currentModel (applyVisualSettings a) /\
   toneMappingExposure (setSaturation v a)
   = toneMappingExposure (applyVisualSettings a)) /\
  (forall model : Node,
     currentModel a = Some model ->
     Forall (fun m => textured m = false) (meshMaterials model) ->
     currentModel (setBrightness v a) = Some model).
Proof.
  destruct a as [[model0 |] texture [br co sa ex] tm];
    unfold setContrast, setSaturation, setBrightness, applyVisualSettings,
      set_visualSettings; cbn; (split; [| split]);
    try (split; reflexivity); try discriminate.
  intros model [= <-] Hall. f_equal.
  apply (traverse_onMeshes_id (brighten _)). intros m Hm.
  apply brighten_untextured. rewrite Forall_forall in Hall. now apply Hall.
Qed.

(** X17 on a grey model with no texture. *)
Lemma contrast_and_saturation_are_never_applied_witness :
  currentModel (setBrightness "0.5" (objLoaded greyModel false initialApp))
  = Some greyModel.
Proof.
  apply (proj2 (proj2 (contrast_and_saturation_are_never_applied "0.5"
                         (objLoaded greyModel false initialApp)))).
  - reflexivity.
  - repeat constructor.
Defined.



(** X19.  [loadOBJ] removes the current model before it asks for the file,
    and a load that fails delivers none: after a response whose status is not
    200, a request that failed or a text whose face corners do not come in
    triples, the viewer has no model, whatever model it had.  After a text
    whose corners come in triples it has the group made of the mesh [parse]
    returns. *)
Theorem failed_load_leaves_no_model
  (setHex : Z -> Color) (textureFile : bool) (a : App) :
  let ended := fun response =>
    currentModel (requestEnded setHex textureFile response (loadOBJ a)) in
  (forall (status : Z) (text : string), (status =? 200)%Z = false ->
     ended (OBJLoader.Loaded status text) = None) /\
  ended OBJLoader.Failed = None /\
  (forall text : string, ~ triangulated text ->
     ended (OBJLoader.Loaded 200 text) = None) /\
  (forall text : string, triangulated text ->
     exists (object : OBJLoader.Object3D) (model : Node),
       OBJLoader.parse text = JS.Return object /\
       ended (OBJLoader.Loaded 200 text) = Some model /\
       List.length (meshMaterials model) = 1%nat /\
       hasUV model = false /\
       List.map hasUV (children model)
       = [match OBJLoader.uv object with Some _ => true | None => false end]).
Proof.
  intros ended. subst ended. cbn beta.
  assert (Hcleared : currentModel (loadOBJ a) = None).
  { unfold loadOBJ, clearModel. now destruct (currentModel a) eqn:E. }
  repeat split.
  - intros status text Hs. unfold requestEnded. cbn [OBJLoader.load].
    now rewrite Hs.
  - exact Hcleared.
  - intros text Hn. unfold requestEnded. cbn [OBJLoader.load Z.eqb Pos.eqb].
    now rewrite (OBJLoaderFacts.parse_not_triangulated text Hn).
  - intros text H. unfold requestEnded.
    rewrite (load_triangulated text H). cbn [fold_left].
    pose proof (WavefrontFacts.parse_buffers text H) as Hparse.
    cbv zeta in Hparse.
    match type of Hparse with _ = JS.Return ?o => exists o end.
    unfold objLoaded, applyTextureToModel, applyVisualSettings. cbn.
    destruct textureFile; [eexists; repeat split; exact Hparse |].
    destruct (loadedTexture (loadOBJ a));
      [| eexists; repeat split; exact Hparse].
    destruct (uvAttribute _); cbn; eexists; repeat split; exact Hparse.
Qed.

(** X19 on the viewer with a model, after the text of a quadrilateral and
    after the text of a triangle. *)
Lemma failed_load_leaves_no_model_witness :
  currentModel texturedApp <> None /\
  currentModel
    (requestEnded grey false (OBJLoader.Loaded 200 quad) (loadOBJ texturedApp))
  = None /\
  exists model,
    currentModel
      (requestEnded grey false (OBJLoader.Loaded 200 tetrahedronFace)
         (loadOBJ texturedApp)) = Some model.
Proof.
  split; [discriminate |].
  destruct (failed_load_leaves_no_model grey false texturedApp)
    as (_ & _ & Hquad & Htriangle).
  split.
  - apply Hquad. discriminate.
  - destruct (Htriangle tetrahedronFace eq_refl) as (object & model & _ & E & _).
    now exists model.
Defined.

(** X20.  [toggleWireframe] flips the flag of every material of every mesh
    of the model, and a second call gives the viewer back as it was. *)
Theorem wireframe_toggles_back (a : App) :
  toggleWireframe (toggleWireframe a) = a /\
  option_map meshMaterials (currentModel (toggleWireframe a))
  = option_map (fun model => List.map flipWireframe (meshMaterials model))
      (currentModel a).
Proof.
  destruct a as [[model |] texture settings tm];
    unfold toggleWireframe, set_currentModel; cbn; [| split; reflexivity].
  change wireframeChild with (onMeshes flipWireframe). split.
  - rewrite traverse_onMeshes_compose, traverse_onMeshes_id; [reflexivity |].
    intros [c t o w] _. unfold flipWireframe. cbn. now rewrite negb_involutive.
  - now rewrite meshMaterials_onMeshes.
Qed.

(** X21.  [applyVisualSettings] returns at once when there is no model, so
    the settings wait for one: a move of the exposure slider while no model
    is loaded is stored and leaves the exposure of the renderer as it was.
    The stored exposure reaches the renderer when the model arrives only if
    a texture loaded before is applied to it; a model that arrives with no
    texture to apply leaves the exposure of the renderer unchanged. *)
Theorem settings_wait_for_a_model (v : string) (a : App) :
  currentModel a = None ->
  exposure (visualSettings (setExposure v a)) = parseFloat v /\
  toneMappingExposure (setExposure v a) = toneMappingExposure a /\
  (forall object : Node, loadedTexture a = None ->
     toneMappingExposure (objLoaded object false (setExposure v a))
     = toneMappingExposure a) /\
  (forall (object : Node) (texture : Texture),
     loadedTexture a = Some texture ->
     toneMappingExposure (objLoaded object false (setExposure v a))
     = parseFloat v).
Proof.
  destruct a as [cm tx settings tm]. cbn [currentModel]. intros ->.
  unfold setExposure, applyVisualSettings, set_visualSettings. cbn.
  split; [reflexivity |]. split; [reflexivity |]. split.
  - intros object E. cbn in E. subst tx. reflexivity.
  - intros object texture E. cbn in E. subst tx. reflexivity.
Qed.

(** X21 on the viewer before any load. *)
Lemma settings_wait_for_a_model_witness :
  toneMappingExposure (setExposure "2.5" initialApp) = 1%float /\
  toneMappingExposure (objLoaded greyModel false (setExposure "2.5" initialApp))
  = 1%float /\
  toneMappingExposure
    (setBrightness "1" (objLoaded greyModel false (setExposure "2.5" initialApp)))
  = 2.5%float.
Proof.
  destruct (settings_wait_for_a_model "2.5" initialApp eq_refl)
    as (_ & H1 & H2 & _).
  split; [exact H1 |]. split; [apply H2; reflexivity | reflexivity].
Defined.

End ViewerFacts.

(* ================================================================== *)
(** * Facts on the dropped files *)

Module FilesFacts.

Import JS Files.

Lemma lowerCase_lowerCase (c : ascii) : lowerCase (lowerCase c) = lowerCase c.
Proof. now destruct c as [[] [] [] [] [] [] [] []]. Qed.

Lemma toLowerCase_toLowerCase (s : string) :
  toLowerCase (toLowerCase s) = toLowerCase s.
Proof.
  induction s as [| c s IH]; [reflexivity |].
  cbn [toLowerCase]. now rewrite lowerCase_lowerCase, IH.
Qed.

Lemma substring_empty (n : nat) : substring n EmptyString = EmptyString.
Proof. now destruct n. Qed.

Lemma substring_add (a b : nat) (s : string) :
  substring (a + b) s = substring b (substring a s).
Proof.
  revert s. induction a as [| a IH]; intros s; [reflexivity |].
  destruct s as [| c s]; cbn [Nat.add substring].
  - now rewrite !substring_empty.
  - apply IH.
Qed.

(** The end of a string determines its shorter ends. *)
Lemma endsWith_both (s x y : string) :
  endsWith s x = true -> endsWith s y = true ->
  (String.length x <= String.length y)%nat ->
  x = substring (String.length y - String.length x) y.
Proof.
  unfold endsWith. intros Hx Hy Hle.
  apply andb_prop in Hx as [Lx Ex]. apply andb_prop in Hy as [Ly Ey].
  apply Nat.leb_le in Lx. apply Nat.leb_le in Ly.
  apply String.eqb_eq in Ex. apply String.eqb_eq in Ey.
  rewrite <- Ex at 1. rewrite <- Ey at 2.
  rewrite <- substring_add. f_equal. lia.
Qed.

(** Two of the extensions of the handler end no common name. *)
Ltac apart Hx Hy :=
  first
    [ discriminate (endsWith_both _ _ _ Hx Hy ltac:(cbn; lia))
    | discriminate (endsWith_both _ _ _ Hy Hx ltac:(cbn; lia)) ].

Lemma obj_is_no_mtl (s : string) :
  endsWith s ".obj" = true -> endsWith s ".mtl" = false.
Proof.
  intros Hx. destruct (endsWith s ".mtl") eqn:Hy; [apart Hx Hy | reflexivity].
Qed.

Lemma texture_is_neither (s x : string) :
  x = ".obj"%string \/ x = ".mtl"%string ->
  endsWith s x = true ->
  endsWith s ".jpg" || endsWith s ".jpeg" || endsWith s ".png"
  || endsWith s ".bmp" || endsWith s ".tga" || endsWith s ".tiff"
  || endsWith s ".webp" = false.
Proof.
  intros Hk Hx.
  destruct (endsWith s ".jpg") eqn:H1; [destruct Hk; subst x; apart Hx H1 |].
  destruct (endsWith s ".jpeg") eqn:H2; [destruct Hk; subst x; apart Hx H2 |].
  destruct (endsWith s ".png") eqn:H3; [destruct Hk; subst x; apart Hx H3 |].
  destruct (endsWith s ".bmp") eqn:H4; [destruct Hk; subst x; apart Hx H4 |].
  destruct (endsWith s ".tga") eqn:H5; [destruct Hk; subst x; apart Hx H5 |].
  destruct (endsWith s ".tiff") eqn:H6; [destruct Hk; subst x; apart Hx H6 |].
  destruct (endsWith s ".webp") eqn:H7; [destruct Hk; subst x; apart Hx H7 |].
  reflexivity.
Qed.

(* ------------------------------------------------------------------ *)
(** ** Property of the handler *)

(** X22.  The handler of a drop tells the files apart by the end of their
    names, whatever the case of the letters, and no name falls in two of its
    three classes (mesh, material library, picture).  A drop starts at most
    one load: of the first mesh file, with the first material library and the
    first picture of the drop, when there is a mesh file; of the first
    picture alone when there is none; and none when there is neither. *)
Theorem dropped_files_are_told_apart_by_extension :
  (forall f : File,
     (isObj f = true -> isMtl f = false /\ isTexture f = false) /\
     (isMtl f = true -> isTexture f = false)) /\
  (forall f : File,
     let lower := {| name := toLowerCase (name f) |} in
     isObj lower = isObj f /\ isMtl lower = isMtl f /\
     isTexture lower = isTexture f) /\
  (forall files : list File, (List.length (onDrop files) <= 1)%nat) /\
  (forall (files : list File) (objFile : File),
     find isObj files = Some objFile ->
     onDrop files
     = [loadOBJ objFile (find isMtl files) (find isTexture files)]) /\
  (forall (files : list File) (texture : File),
     find isObj files = None -> find isTexture files = Some texture ->
     onDrop files = [loadAndApplyTexture texture]) /\
  (forall files : list File,
     find isObj files = None -> find isTexture files = None ->
     onDrop files = []).
Proof.
  split; [| split; [| split; [| split; [| split]]]].
  - intros f. unfold isObj, isMtl, isTexture. split.
    + intros H. split; [now apply obj_is_no_mtl |].
      apply (texture_is_neither _ ".obj"); auto.
    + intros H. apply (texture_is_neither _ ".mtl"); auto.
  - intros f lower. unfold isObj, isMtl, isTexture, lower. cbn [name].
    now rewrite toLowerCase_toLowerCase.
  - intros files. unfold onDrop.
    destruct (find isObj files), (find isTexture files); cbn; lia.
  - intros files objFile H. unfold onDrop. rewrite H.
    now destruct (find isTexture files).
  - intros files texture H1 H2. unfold onDrop. now rewrite H1, H2.
  - intros files H1 H2. unfold onDrop. now rewrite H1, H2.
Qed.

(** X22 on the files of a statue. *)
Lemma dropped_files_are_told_apart_by_extension_witness :
  find isObj statue = Some {| name := "STATUE.OBJ" |} /\
  onDrop statue
  = [loadOBJ {| name := "STATUE.OBJ" |} (Some {| name := "statue.mtl" |})
       (Some {| name := "Statue.PNG" |})].
Proof.
  split; [reflexivity |].
  apply (proj1 (proj2 (proj2 (proj2
           dropped_files_are_told_apart_by_extension)))).
  reflexivity.
Defined.

End FilesFacts.
